(** * Apple Podcasts episode scraper: the collector loop and the date normalizer

    A shallow embedding of the two pieces of [src/main.js] that carry logic:

    - the function passed to [page.evaluate] (lines 148-212), which scans the
      rows of the episode list, appends records to [results], scrolls and
      waits, and stops on the requested count or on a plateau;
    - [normalizeDate] (lines 217-292), which turns the date text of a record
      into a display form and an ISO date.

    JavaScript strings are modelled as [string] (sequences of 8-bit
    characters); the character classes [\s] and [\d] and the case mapping are
    the ASCII ones, so the strings spoken of are ASCII text.  [Date] values
    are modelled as in ECMA-262: a time value in milliseconds since the
    epoch, or NaN ([None]); the time zone of the host is the pair of offsets
    [LocalTime] and [UTC] use, which daylight saving makes differ, and a
    number of minutes stands for a host with that one offset all year. *)

From Stdlib Require Import ZArith List String Ascii Bool Arith Lia DecimalString.
Import ListNotations.

Local Open Scope string_scope.
Local Open Scope nat_scope.
Local Open Scope list_scope.

(** ** Strings *)

Module Text.

Definition chars (s : string) : list ascii := list_ascii_of_string s.
Definition str (l : list ascii) : string := string_of_list_ascii l.

(** [\s] restricted to ASCII: TAB, LF, VT, FF, CR and SPACE. *)
Definition isSpace (c : ascii) : bool :=
  let n := nat_of_ascii c in
  ((9 <=? n) && (n <=? 13)) || (n =? 32).

(** [\d] *)
Definition isDigit (c : ascii) : bool :=
  let n := nat_of_ascii c in
  (48 <=? n) && (n <=? 57).

Definition isLower (c : ascii) : bool :=
  let n := nat_of_ascii c in
  (97 <=? n) && (n <=? 122).

Definition isUpper (c : ascii) : bool :=
  let n := nat_of_ascii c in
  (65 <=? n) && (n <=? 90).

Definition upperChar (c : ascii) : ascii :=
  if isLower c then ascii_of_nat (nat_of_ascii c - 32) else c.

Fixpoint dropWhile (p : ascii -> bool) (l : list ascii) : list ascii :=
  match l with
  | [] => []
  | c :: r => if p c then dropWhile p r else l
  end.

Fixpoint takeWhile (p : ascii -> bool) (l : list ascii) : list ascii :=
  match l with
  | [] => []
  | c :: r => if p c then c :: takeWhile p r else []
  end.

Definition trimChars (l : list ascii) : list ascii :=
  rev (dropWhile isSpace (rev (dropWhile isSpace l))).

(** [String.prototype.trim] *)
Definition trim (s : string) : string := str (trimChars (chars s)).

(** [String.prototype.toUpperCase] *)
Definition toUpperCase (s : string) : string := str (map upperChar (chars s)).

(** [s.replace(/,/g, '')] *)
Definition removeCommas (s : string) : string :=
  str (filter (fun c => negb (Ascii.eqb c ",")) (chars s)).

(** [s.slice(0, n)] for a non-negative [n] *)
Definition slice0 (n : nat) (s : string) : string := str (firstn n (chars s)).

Definition allDigits (l : list ascii) : bool := forallb isDigit l.

Definition digitVal (c : ascii) : Z := Z.of_nat (nat_of_ascii c - 48).

(** [parseInt(s, 10)] on a string of decimal digits.  The value is exact;
    JavaScript rounds it above 2^53, where an amount of any unit is beyond
    the range of [Date] either way. *)
Definition parseDigits (l : list ascii) : Z :=
  fold_left (fun acc c => 10 * acc + digitVal c)%Z l 0%Z.

End Text.

(** ** The collector (lines 148-212) *)

Module Collector.

(** What the four [querySelector] calls find in a row: the [textContent] of
    the title, summary and date elements and the [href] of the link, each
    absent when the selector matches nothing. *)
Record RowEls := {
  titleEl : option string;
  descEl : option string;
  dateEl : option string;
  linkEl : option string
}.

(** A row of the list; [Faulty] is a row on which the extraction raises, which
    the [try]/[catch] around it swallows. *)
Inductive Row :=
| Li (els : RowEls)
| Faulty.

Record Episode := {
  title : string;
  description : option string;
  date : option string;
  shareUrl : option string
}.

(** [getRows()] after [k] settle delays.  The page only changes while the loop
    is suspended in [await sleep(800)], so the three calls of [getRows] inside
    one iteration see the same rows. *)
Definition RowSource := nat -> list Row.

Inductive Scroll :=
| ScrollIntoView (index : nat)
| ScrollBy.

Record State := {
  results : list Episode;
  prevCount : nat;
  stableAttempts : nat;
  iterations : nat;
  scrolls : list Scroll
}.

Definition maxStableAttempts : nat := 12.

Definition init : State :=
  {| results := []; prevCount := 0; stableAttempts := 0; iterations := 0;
     scrolls := [] |}.

(** [results.length ? results[results.length - 1].title : null] *)
Definition lastTitle (rs : list Episode) : option string :=
  option_map title (nth_error rs (List.length rs - 1)).

(** The [title] of a row as line 165 computes it. *)
Definition rowTitle (row : Row) : option string :=
  match row with
  | Li els => option_map Text.trim (titleEl els)
  | Faulty => None
  end.

Definition rowEpisode (els : RowEls) (t : string) : Episode :=
  {| title := t;
     description := option_map Text.trim (descEl els);
     date := option_map Text.trim (dateEl els);
     shareUrl := linkEl els |}.

Definition sameTitle (t : string) (last : option string) : bool :=
  match last with
  | Some l => String.eqb t l
  | None => false
  end.

(** The body of the [try] block (lines 164-182) on one row. *)
Definition visit (rs : list Episode) (row : Row) : list Episode :=
  match row with
  | Faulty => rs
  | Li els =>
      match option_map Text.trim (titleEl els) with
      | None => rs
      | Some "" => rs
      | Some t =>
          if sameTitle t (lastTitle rs) then rs
          else rs ++ [rowEpisode els t]
      end
  end.

(** [for (const row of rows) { if (results.length >= limit) break; ... }] *)
Fixpoint scanRows (limit : nat) (rows : list Row) (rs : list Episode)
  : list Episode :=
  match rows with
  | [] => rs
  | row :: rest =>
      if limit <=? List.length rs then rs
      else scanRows limit rest (visit rs row)
  end.

(** Lines 159-195: one scan of the rows and the plateau update. *)
Definition scanAndCount (limit : nat) (src : RowSource) (st : State) : State :=
  let rows := src (iterations st) in
  let rs := scanRows limit rows (results st) in
  let currentCount := List.length (src (iterations st)) in
  if prevCount st <? currentCount then
    {| results := rs; prevCount := currentCount; stableAttempts := 0;
       iterations := S (iterations st); scrolls := scrolls st |}
  else
    {| results := rs; prevCount := prevCount st;
       stableAttempts := S (stableAttempts st);
       iterations := S (iterations st); scrolls := scrolls st |}.

(** Lines 199-208: the scroll request before the settle delay. *)
Definition scrollOn (src : RowSource) (st : State) : State :=
  let currentCount := List.length (src (iterations st - 1)) in
  {| results := results st; prevCount := prevCount st;
     stableAttempts := stableAttempts st; iterations := iterations st;
     scrolls := scrolls st ++
       [if 0 <? currentCount then ScrollIntoView (currentCount - 1)
        else ScrollBy] |}.

Definition continues (limit : nat) (st : State) : bool :=
  (List.length (results st) <? limit) && (stableAttempts st <? maxStableAttempts).

(** The [while] loop.  [None] when [fuel] iterations were not enough. *)
Fixpoint loop (fuel : nat) (limit : nat) (src : RowSource) (st : State)
  : option State :=
  if continues limit st then
    match fuel with
    | O => None
    | S fuel' =>
        let st' := scanAndCount limit src st in
        if limit <=? List.length (results st') then Some st'
        else loop fuel' limit src (scrollOn src st')
    end
  else Some st.

(** The value of [page.evaluate]: [results.slice(0, limit)]. *)
Definition collect (fuel : nat) (limit : nat) (src : RowSource)
  : option (list Episode) :=
  option_map (fun st => firstn limit (results st)) (loop fuel limit src init).

Definition titled (t : string) : Row :=
  Li {| titleEl := Some t; descEl := None; dateEl := None; linkEl := None |}.

(** *** Notions the properties of the collector are stated with *)

(** No record has the title of the record right before it. *)
Fixpoint noAdjacentRepeat (ts : list string) : Prop :=
  match ts with
  | a :: (b :: _) as rest => a <> b /\ noAdjacentRepeat rest
  | _ => True
  end.

(** The titles of the rows that have one, in order. *)
Fixpoint rowTitles (rows : list Row) : list string :=
  match rows with
  | [] => []
  | row :: rest =>
      match rowTitle row with
      | Some "" | None => rowTitles rest
      | Some t => t :: rowTitles rest
      end
  end.

(** One title per maximal run of equal titles. *)
Fixpoint dedupAdjacent (ts : list string) : list string :=
  match ts with
  | a :: (b :: _) as rest =>
      if String.eqb a b then dedupAdjacent rest else a :: dedupAdjacent rest
  | _ => ts
  end.

(** The number of distinct-adjacent rows of a row list. *)
Definition distinctAdjacent (rows : list Row) : nat :=
  List.length (dedupAdjacent (rowTitles rows)).

(** The row count never exceeds the count at index [n] from [n] on. *)
Definition stableFrom (n : nat) (src : RowSource) : Prop :=
  forall i, n <= i -> List.length (src i) <= List.length (src n).

(** Every source that never grows beyond its initial row count ends the loop
    within [bound] iterations, whatever the limit. *)
Definition plateauWithin (bound : nat) : Prop :=
  forall limit src, stableFrom 0 src ->
    exists fuel st, loop fuel limit src init = Some st /\ iterations st <= bound.


End Collector.

(** ** Dates (ECMA-262, section 21.4.1) *)

Module JSDate.

Local Open Scope Z_scope.

Definition msPerDay : Z := 86400000.
Definition msPerHour : Z := 3600000.
Definition msPerMinute : Z := 60000.
Definition msPerSecond : Z := 1000.

Definition Day (t : Z) : Z := t / msPerDay.
Definition TimeWithinDay (t : Z) : Z := t mod msPerDay.

Definition isLeap (y : Z) : bool :=
  (y mod 4 =? 0) && (negb (y mod 100 =? 0) || (y mod 400 =? 0)).

Definition DaysInYear (y : Z) : Z := if isLeap y then 366 else 365.

Definition DayFromYear (y : Z) : Z :=
  365 * (y - 1970) + (y - 1969) / 4 - (y - 1901) / 100 + (y - 1601) / 400.

(** The largest [y] with [DayFromYear y <= d]: an estimate from the mean
    length of a year, corrected by at most one. *)
Definition YearFromDay (d : Z) : Z :=
  let y := 1970 + (400 * d) / 146097 in
  if d <? DayFromYear y then y - 1
  else if DayFromYear (y + 1) <=? d then y + 1
  else y.

Definition YearFromTime (t : Z) : Z := YearFromDay (Day t).

(** Day number within the year of the first day of month [m] (0..11). *)
Definition monthStart (leap : bool) (m : Z) : Z :=
  let l := if leap then 1 else 0 in
  if m =? 0 then 0
  else if m =? 1 then 31
  else if m =? 2 then 59 + l
  else if m =? 3 then 90 + l
  else if m =? 4 then 120 + l
  else if m =? 5 then 151 + l
  else if m =? 6 then 181 + l
  else if m =? 7 then 212 + l
  else if m =? 8 then 243 + l
  else if m =? 9 then 273 + l
  else if m =? 10 then 304 + l
  else 334 + l.

Definition monthOfYearDay (leap : bool) (d : Z) : Z :=
  let l := if leap then 1 else 0 in
  if d <? 31 then 0
  else if d <? 59 + l then 1
  else if d <? 90 + l then 2
  else if d <? 120 + l then 3
  else if d <? 151 + l then 4
  else if d <? 181 + l then 5
  else if d <? 212 + l then 6
  else if d <? 243 + l then 7
  else if d <? 273 + l then 8
  else if d <? 304 + l then 9
  else if d <? 334 + l then 10
  else 11.

(** [InLeapYear], [DayWithinYear], [MonthFromTime] and [DateFromTime] depend on
    the time value through its day number only. *)
Definition leapOfDay (d : Z) : bool := isLeap (YearFromDay d).
Definition dayWithinYear (d : Z) : Z := d - DayFromYear (YearFromDay d).
Definition MonthFromDay (d : Z) : Z :=
  monthOfYearDay (leapOfDay d) (dayWithinYear d).
Definition DateFromDay (d : Z) : Z :=
  dayWithinYear d - monthStart (leapOfDay d) (MonthFromDay d) + 1.

Definition InLeapYear (t : Z) : bool := leapOfDay (Day t).
Definition DayWithinYear (t : Z) : Z := dayWithinYear (Day t).
Definition MonthFromTime (t : Z) : Z := MonthFromDay (Day t).
Definition DateFromTime (t : Z) : Z := DateFromDay (Day t).

Definition HourFromTime (t : Z) : Z := (t / msPerHour) mod 24.
Definition MinFromTime (t : Z) : Z := (t / msPerMinute) mod 60.
Definition SecFromTime (t : Z) : Z := (t / msPerSecond) mod 60.
Definition msFromTime (t : Z) : Z := t mod msPerSecond.

Definition MakeTime (hour min sec ms : Z) : Z :=
  hour * msPerHour + min * msPerMinute + sec * msPerSecond + ms.

Definition MakeDay (year month date : Z) : Z :=
  let ym := year + month / 12 in
  let mn := month mod 12 in
  DayFromYear ym + monthStart (isLeap ym) mn + date - 1.

Definition MakeDate (day time : Z) : Z := day * msPerDay + time.

(** A [Date]: its time value, [None] for NaN (an invalid date). *)
Definition Date := option Z.

Definition TimeClip (t : Z) : Date :=
  if Z.abs t <=? 8640000000000000 then Some t else None.

(** The time zone of the host, as ECMA-262 reads it (21.4.1.25 and 26): the
    offset in milliseconds in force at a time value, which [LocalTime] adds,
    and the offset the host takes for a local time value, which [UTC]
    subtracts.  For a local time that a transition skips or repeats the
    second is the offset in force before the transition, so the two differ
    around a daylight-saving transition. *)
Record Zone := {
  offsetAt : Z -> Z;
  offsetOfLocal : Z -> Z
}.

Bind Scope Z_scope with Zone.

(** A host with the same offset all year, [tz] minutes east of UTC.  A
    number of minutes stands for such a host wherever a zone is expected. *)
Definition fixedOffset (tz : Z) : Zone :=
  {| offsetAt := fun _ => tz * msPerMinute;
     offsetOfLocal := fun _ => tz * msPerMinute |}.

Coercion fixedOffset : Z >-> Zone.

(** A host whose offset changes once, from [before] to [after] milliseconds
    at the instant [at]: daylight saving starts when [after] is the larger
    and ends when it is the smaller.  The local times the change skips or
    repeats are read with the offset before it. *)
Definition transition (at_ before after : Z) : Zone :=
  {| offsetAt := fun t => if t <? at_ then before else after;
     offsetOfLocal :=
       fun l => if l <? at_ + Z.max before after then before else after |}.

Section Zone.

Variable zone : Zone.

Definition LocalTime (t : Z) : Z := t + offsetAt zone t.
Definition UTC (t : Z) : Z := t - offsetOfLocal zone t.

(** [new Date(year, month, date)] *)
Definition newDate (year month date : Z) : Date :=
  let yr := if (0 <=? year) && (year <=? 99) then 1900 + year else year in
  TimeClip (UTC (MakeDate (MakeDay yr month date) (MakeTime 0 0 0 0))).

Definition getFullYear (t : Z) : Z := YearFromTime (LocalTime t).
Definition getMonth (t : Z) : Z := MonthFromTime (LocalTime t).
Definition getDate (t : Z) : Z := DateFromTime (LocalTime t).
Definition getHours (t : Z) : Z := HourFromTime (LocalTime t).
Definition getMinutes (t : Z) : Z := MinFromTime (LocalTime t).
Definition getSeconds (t : Z) : Z := SecFromTime (LocalTime t).

Definition setSeconds (t sec : Z) : Date :=
  let l := LocalTime t in
  TimeClip (UTC (MakeDate (Day l)
    (MakeTime (HourFromTime l) (MinFromTime l) sec (msFromTime l)))).

Definition setMinutes (t min : Z) : Date :=
  let l := LocalTime t in
  TimeClip (UTC (MakeDate (Day l)
    (MakeTime (HourFromTime l) min (SecFromTime l) (msFromTime l)))).

Definition setHours (t hour : Z) : Date :=
  let l := LocalTime t in
  TimeClip (UTC (MakeDate (Day l)
    (MakeTime hour (MinFromTime l) (SecFromTime l) (msFromTime l)))).

Definition setDate (t date : Z) : Date :=
  let l := LocalTime t in
  TimeClip (UTC (MakeDate
    (MakeDay (YearFromTime l) (MonthFromTime l) date) (TimeWithinDay l))).

Definition setMonth (t month : Z) : Date :=
  let l := LocalTime t in
  TimeClip (UTC (MakeDate
    (MakeDay (YearFromTime l) month (DateFromTime l)) (TimeWithinDay l))).

Definition setFullYear (t year : Z) : Date :=
  let l := LocalTime t in
  TimeClip (UTC (MakeDate
    (MakeDay year (MonthFromTime l) (DateFromTime l)) (TimeWithinDay l))).

End Zone.

(** Decimal digits of a non-negative number. *)
Definition decimal (n : Z) : string :=
  DecimalString.NilEmpty.string_of_uint (N.to_uint (Z.to_N n)).

Fixpoint zeros (n : nat) : string :=
  match n with
  | O => ""
  | S k => String "0" (zeros k)
  end.

Definition pad (width : nat) (n : Z) : string :=
  let d := decimal n in
  (zeros (width - String.length d)%nat ++ d)%string.

Definition isoYear (y : Z) : string :=
  if (0 <=? y) && (y <=? 9999) then pad 4 y
  else ((if (y <? 0)%Z then "-" else "+") ++ pad 6 (Z.abs y))%string.

(** The date part of [toISOString], from the day number. *)
Definition isoDateOfDay (d : Z) : string :=
  (isoYear (YearFromDay d) ++ "-" ++ pad 2 (MonthFromDay d + 1)%Z ++ "-"
   ++ pad 2 (DateFromDay d))%string.

Definition isoTime (t : Z) : string :=
  (pad 2 (HourFromTime t) ++ ":" ++ pad 2 (MinFromTime t) ++ ":"
   ++ pad 2 (SecFromTime t) ++ "." ++ pad 3 (msFromTime t) ++ "Z")%string.

(** [Date.prototype.toISOString] of a valid time value *)
Definition isoString (t : Z) : string :=
  (isoDateOfDay (Day t) ++ "T" ++ isoTime t)%string.

Definition monthNames : list string :=
  ["January"; "February"; "March"; "April"; "May"; "June"; "July";
   "August"; "September"; "October"; "November"; "December"]%string.

Definition monthName (m : Z) : string := nth (Z.to_nat m) monthNames ""%string.

(** [toLocaleDateString('en-GB', { day: 'numeric', month: 'long',
    year: 'numeric' })] of a valid local time: the pattern [d MMMM y], whose
    year field is the year of the era. *)
Definition longDateOfDay (d : Z) : string :=
  let y := YearFromDay d in
  (decimal (DateFromDay d) ++ " " ++ monthName (MonthFromDay d) ++ " "
   ++ decimal (if (y <=? 0)%Z then (1 - y)%Z else y))%string.

Definition longDate (l : Z) : string := longDateOfDay (Day l).

End JSDate.

(** ** The normalizer (lines 217-292) *)

Module Normalizer.

Import Text JSDate.

(** The values [normalizeDate] can be called with. *)
Inductive Value :=
| VUndefined
| VNull
| VBool (b : bool)
| VNumber (n : Z)
| VString (s : string).

Record Normalized := { full : Value; iso : option string }.

(** A call either returns or raises the [RangeError] of [toISOString]. *)
Inductive Outcome :=
| Returns (r : Normalized)
| ThrowsRangeError.

Inductive Unit := SECOND | MINUTE | HOUR | DAY | WEEK | MONTH | YEAR.

Definition unitName (u : Unit) : string :=
  match u with
  | SECOND => "SECOND" | MINUTE => "MINUTE" | HOUR => "HOUR" | DAY => "DAY"
  | WEEK => "WEEK" | MONTH => "MONTH" | YEAR => "YEAR"
  end.

Definition units : list Unit := [SECOND; MINUTE; HOUR; DAY; WEEK; MONTH; YEAR].

(** A pattern character under the [i] flag. *)
Definition ci (c p : ascii) : bool := Ascii.eqb (upperChar c) p.

(** Match the literal [p] at the head of [l]; the rest of [l] on success. *)
Fixpoint literal (p l : list ascii) : option (list ascii) :=
  match p with
  | [] => Some l
  | pc :: p' =>
      match l with
      | c :: l' => if ci c pc then literal p' l' else None
      | [] => None
      end
  end.

(** [\s+] (greedy); the rest of [l] when at least one character matched. *)
Definition spaces (l : list ascii) : option (list ascii) :=
  match l with
  | c :: _ => if isSpace c then Some (dropWhile isSpace l) else None
  | [] => None
  end.

(** [\s+AGO$] *)
Definition agoTail (l : list ascii) : bool :=
  match spaces l with
  | Some r =>
      match literal (chars "AGO") r with
      | Some [] => true
      | _ => false
      end
  | None => false
  end.

(** [S?\s+AGO$]: first with the [S], then without it. *)
Definition pluralTail (l : list ascii) : bool :=
  match l with
  | c :: r => (ci c "S" && agoTail r) || agoTail l
  | [] => agoTail l
  end.

(** [(SECOND|MINUTE|HOUR|DAY|WEEK|MONTH|YEAR)S?\s+AGO$]: the alternatives in
    order. *)
Fixpoint unitTail (us : list Unit) (l : list ascii) : option Unit :=
  match us with
  | [] => None
  | u :: us' =>
      match literal (chars (unitName u)) l with
      | Some r => if pluralTail r then Some u else unitTail us' l
      | None => unitTail us' l
      end
  end.

(** [s.match(/^(\d+)\s+(SECOND|MINUTE|HOUR|DAY|WEEK|MONTH|YEAR)S?\s+AGO$/i)]:
    the groups as [parseInt(m[1], 10)] and [m[2].toUpperCase()]. *)
Definition relativeMatch (s : string) : option (Z * Unit) :=
  let l := chars s in
  match takeWhile isDigit l with
  | [] => None
  | ds =>
      match spaces (dropWhile isDigit l) with
      | Some r =>
          match unitTail units r with
          | Some u => Some (parseDigits ds, u)
          | None => None
          end
      | None => None
      end
  end.

(** [s.split(/\s+/)] *)
Fixpoint splitSpaces (inSep : bool) (cur : list ascii) (l : list ascii)
  : list string :=
  match l with
  | [] => [str (rev cur)]
  | c :: r =>
      if isSpace c then
        if inSep then splitSpaces true [] r
        else str (rev cur) :: splitSpaces true [] r
      else splitSpaces false (c :: cur) r
  end.

Definition split (s : string) : list string := splitSpaces false [] (chars s).

(** [/^\d{1,2}$/.test(p)] *)
Definition isDay (p : string) : bool :=
  let l := chars p in
  allDigits l && (1 <=? List.length l)%nat && (List.length l <=? 2)%nat.

(** [/^\d{4}$/.test(p)] *)
Definition isYear (p : string) : bool :=
  let l := chars p in
  allDigits l && (List.length l =? 4)%nat.

Definition parseInt (p : string) : Z := parseDigits (chars p).

Definition months : list (string * Z) :=
  [("JAN", 0); ("FEB", 1); ("MAR", 2); ("APR", 3); ("MAY", 4); ("JUN", 5);
   ("JUL", 6); ("AUG", 7); ("SEP", 8); ("OCT", 9); ("NOV", 10);
   ("DEC", 11)]%Z.

Fixpoint lookup (k : string) (tbl : list (string * Z)) : option Z :=
  match tbl with
  | [] => None
  | (k', v) :: rest => if String.eqb k k' then Some v else lookup k rest
  end.

(** [const m = p.slice(0, 3); if (months.hasOwnProperty(m)) month = months[m]] *)
Definition monthOf (p : string) : option Z := lookup (slice0 3 p) months.

(** [if (parts.length >= 3 && /^\d{4}$/.test(parts[2])) year = ...] *)
Definition yearOf (rest : list string) : option Z :=
  match rest with
  | p2 :: _ => if isYear p2 then Some (parseInt p2) else None
  | [] => None
  end.

Record Fields := { day : option Z; month : option Z; year : option Z }.

(** Lines 251-268: the two token patterns. *)
Definition fields (parts : list string) : Fields :=
  match parts with
  | p0 :: p1 :: rest =>
      if isDay p0 then
        {| day := Some (parseInt p0); month := monthOf p1; year := yearOf rest |}
      else if isDay p1 then
        {| day := Some (parseInt p1); month := monthOf p0; year := yearOf rest |}
      else {| day := None; month := None; year := None |}
  | _ => {| day := None; month := None; year := None |}
  end.

(** [!year] *)
Definition noYear (y : option Z) : bool :=
  match y with
  | Some v => (v =? 0)%Z
  | None => true
  end.

(** Line 225 *)
Definition clean (r : string) : string := toUpperCase (trim (removeCommas r)).

Section Host.

(** The host: its time zone, the instant [new Date()] yields, and
    [Date.parse], whose results on strings outside the ISO format are left to
    the engine (NaN is [None]). *)
Variable zone : Zone.
Variable now : Z.
Variable dateParse : string -> option Z.

(** Lines 235-243 *)
Definition subtract (u : Unit) (amount : Z) : Date :=
  match u with
  | SECOND => setSeconds zone now (getSeconds zone now - amount)
  | MINUTE => setMinutes zone now (getMinutes zone now - amount)
  | HOUR => setHours zone now (getHours zone now - amount)
  | DAY => setDate zone now (getDate zone now - amount)
  | WEEK => setDate zone now (getDate zone now - amount * 7)
  | MONTH => setMonth zone now (getMonth zone now - amount)
  | YEAR => setFullYear zone now (getFullYear zone now - amount)
  end.

(** [toLocaleDateString('en-GB', ...)] *)
Definition toLocaleDateString (d : Date) : string :=
  match d with
  | Some t => longDate (LocalTime zone t)
  | None => "Invalid Date"
  end.

(** Lines 245-247: no validity test before [toISOString]. *)
Definition finishRelative (d : Date) : Outcome :=
  let full := toLocaleDateString d in
  match d with
  | Some t => Returns {| full := VString full; iso := Some (slice0 10 (isoString t)) |}
  | None => ThrowsRangeError
  end.

(** [dateObj > now]; a comparison with NaN is false. *)
Definition isAfter (dateObj : Date) : bool :=
  match dateObj with
  | Some t => (now <? t)%Z
  | None => false
  end.

(** The year inference of lines 273-279 for a day and month without a year. *)
Definition inferYear (m d : Z) : Date :=
  let candidateYear := getFullYear zone now in
  if isAfter (newDate zone candidateYear m d)
  then newDate zone (candidateYear - 1) m d
  else newDate zone candidateYear m d.

(** Lines 270-283 *)
Definition resolve (f : Fields) (s : string) : option Date :=
  match month f, day f with
  | Some m, Some d =>
      let candidateYear :=
        if noYear (year f) then getFullYear zone now
        else match year f with Some y => y | None => 0%Z end in
      let dateObj := newDate zone candidateYear m d in
      if noYear (year f) && isAfter dateObj
      then Some (newDate zone (candidateYear - 1) m d)
      else Some dateObj
  | _, _ =>
      match dateParse s with
      | Some parsed => Some (TimeClip parsed)
      | None => None
      end
  end.

(** Lines 285-291: [dateObj] is [None] for [null]. *)
Definition finishAbsolute (raw : Value) (dateObj : option Date) : Outcome :=
  match dateObj with
  | Some (Some t) =>
      Returns {| full := VString (toLocaleDateString (Some t));
                 iso := Some (slice0 10 (isoString t)) |}
  | _ => Returns {| full := raw; iso := None |}
  end.

Definition normalizeDate (raw : Value) : Outcome :=
  match raw with
  | VString "" => Returns {| full := raw; iso := None |}
  | VString r =>
      let s := clean r in
      match relativeMatch s with
      | Some (amount, u) => finishRelative (subtract u amount)
      | None => finishAbsolute raw (resolve (fields (split s)) s)
      end
  | _ => Returns {| full := raw; iso := None |}
  end.

End Host.

(** *** Notions the properties of the normalizer are stated with *)

(** The length in milliseconds of the units that have a fixed one. *)
Definition fixedMillis (u : Unit) : option Z :=
  match u with
  | SECOND => Some msPerSecond
  | MINUTE => Some msPerMinute
  | HOUR => Some msPerHour
  | DAY => Some msPerDay
  | WEEK => Some (7 * msPerDay)%Z
  | MONTH | YEAR => None
  end.

(** The inputs on which [normalizeDate] calls [new Date()] and uses it: the
    relative ones, and the day and month pairs without a usable year. *)
Definition readsClock (raw : Value) : bool :=
  match raw with
  | VString "" => false
  | VString r =>
      match relativeMatch (clean r) with
      | Some _ => true
      | None =>
          let f := fields (split (clean r)) in
          match month f, day f with
          | Some _, Some _ => noYear (year f)
          | _, _ => false
          end
      end
  | _ => false
  end.

(** The result does not depend on the clock. *)
Definition clockFree : Prop :=
  forall (tz : Z) dateParse raw now1 now2,
    normalizeDate tz now1 dateParse raw = normalizeDate tz now2 dateParse raw.

(** The result does not depend on the zone of the host. *)
Definition zoneFree (raw : Value) : Prop :=
  forall now dateParse (tz1 tz2 : Z),
    normalizeDate tz1 now dateParse raw = normalizeDate tz2 now dateParse raw.

(** No call raises. *)
Definition neverThrows : Prop :=
  forall (tz : Z) now dateParse raw,
    normalizeDate tz now dateParse raw <> ThrowsRangeError.

(** The parse-failure result. *)
Definition fallback (raw : Value) : Outcome :=
  Returns {| full := raw; iso := None |}.

(** A non-empty string of digits, and a non-empty string of white space. *)
Definition isNumber (s : string) : bool :=
  match chars s with
  | [] => false
  | l => allDigits l
  end.

Definition isBlank (s : string) : bool :=
  match chars s with
  | [] => false
  | l => forallb isSpace l
  end.

(** A non-empty string without white space and commas. *)
Definition plainChar (c : ascii) : bool :=
  negb (isSpace c) && negb (Ascii.eqb c ",").

Definition isToken (s : string) : bool :=
  match chars s with
  | [] => false
  | l => forallb plainChar l
  end.

(** [w] is the name of [u] or its plural, in any case. *)
Definition namesUnit (w : string) (u : Unit) : Prop :=
  toUpperCase w = unitName u \/ toUpperCase w = (unitName u ++ "S")%string.

(** Zone offsets of less than a day. *)
Definition zoneOffset (tz : Z) : Prop := (-1440 < tz < 1440)%Z.

(** The offset of the host at an instant is never more than [w]
    milliseconds ahead of the offset it takes for a local time. *)
Definition spread (zone : Zone) (w : Z) : Prop :=
  forall a b, (offsetAt zone a - offsetOfLocal zone b <= w)%Z.

(** The shortest a unit can be, in milliseconds. *)
Definition shortest (u : Unit) : Z :=
  match u with
  | MONTH => (28 * msPerDay)%Z
  | YEAR => (365 * msPerDay)%Z
  | SECOND => msPerSecond
  | MINUTE => msPerMinute
  | HOUR => msPerHour
  | DAY => msPerDay
  | WEEK => (7 * msPerDay)%Z
  end.

End Normalizer.

(** ** What the collector has seen *)

Module Scans.

Import Collector.

(** The record line 180 builds from a row, for the rows that have a title. *)
Definition rowRecord (row : Row) : option Episode :=
  match row with
  | Li els =>
      match option_map Text.trim (titleEl els) with
      | Some "" | None => None
      | Some t => Some (rowEpisode els t)
      end
  | Faulty => None
  end.

Fixpoint records (rows : list Row) : list Episode :=
  match rows with
  | [] => []
  | row :: rest =>
      match rowRecord row with
      | Some e => e :: records rest
      | None => records rest
      end
  end.

(** The first record of every run of records with one title, [prev] being
    the title before the first record. *)
Fixpoint dropRepeats (prev : option string) (es : list Episode)
  : list Episode :=
  match es with
  | [] => []
  | e :: rest =>
      if sameTitle (title e) prev then dropRepeats prev rest
      else e :: dropRepeats (Some (title e)) rest
  end.

(** The title before the next record, after the records [rs] that followed
    the title [p]. *)
Definition lastOr (p : option string) (rs : list Episode) : option string :=
  match lastTitle rs with
  | Some t => Some t
  | None => p
  end.

(** The records of the rows of the first [k] snapshots, one snapshot after
    the other. *)
Definition scanned (src : RowSource) (k : nat) : list Episode :=
  flat_map (fun i => records (src i)) (seq 0 k).

(** The largest row count among the first [k] snapshots. *)
Fixpoint maxCount (src : RowSource) (k : nat) : nat :=
  match k with
  | O => 0
  | S k' => Nat.max (maxCount src k') (List.length (src k'))
  end.

(** The scroll request lines 200-205 make for a list of rows. *)
Definition scrollFor (rows : list Row) : Scroll :=
  if 0 <? List.length rows then ScrollIntoView (List.length rows - 1)
  else ScrollBy.

End Scans.

(** ** The calendar *)

Module Calendar.

Import Text JSDate.
Local Open Scope Z_scope.

(** The number of days of month [m] (0..11). *)
Definition daysInMonth (leap : bool) (m : Z) : Z :=
  if m =? 1 then (if leap then 29 else 28)
  else if (m =? 3) || (m =? 5) || (m =? 8) || (m =? 10) then 30
  else 31.

(** [YYYY-MM-DD] with a month from 01 to 12 and a day from 01 to 31. *)
Definition isIsoDate (s : string) : bool :=
  match chars s with
  | [y1; y2; y3; y4; h1; m1; m2; h2; d1; d2] =>
      allDigits [y1; y2; y3; y4; m1; m2; d1; d2]
      && Ascii.eqb h1 "-" && Ascii.eqb h2 "-"
      && (1 <=? parseDigits [m1; m2]) && (parseDigits [m1; m2] <=? 12)
      && (1 <=? parseDigits [d1; d2]) && (parseDigits [d1; d2] <=? 31)
  | _ => false
  end.

(** [pad w n] is [w] digits that read [n]. *)
Definition padded (w : nat) (n : Z) : bool :=
  let l := chars (pad w n) in
  (List.length l =? w)%nat && allDigits l && (parseDigits l =? n).

(** [decimal n] is [w] digits that read [n]. *)
Definition plain (w : nat) (n : Z) : bool :=
  let l := chars (decimal n) in
  (List.length l =? w)%nat && allDigits l && (parseDigits l =? n).

Definition upTo (n : nat) : list Z := map Z.of_nat (seq 0 n).

(** [decimal v] is a day token that reads [v]. *)
Definition dayText (v : Z) : bool :=
  Normalizer.isDay (decimal v)
  && (Normalizer.parseInt (decimal v) =? v)
  && Normalizer.isToken (decimal v).

(** From 1000 on, [decimal y] is a year token that reads [y]. *)
Definition yearText (y : Z) : bool :=
  (y <? 1000)
  || (Normalizer.isYear (decimal y) && (Normalizer.parseInt (decimal y) =? y)).

(** The name of month [m] is a month token that reads [m]. *)
Definition monthText (m : Z) : bool :=
  Normalizer.isToken (monthName m)
  && match Normalizer.monthOf (toUpperCase (monthName m)) with
     | Some k => k =? m
     | None => false
     end.

End Calendar.

(** ** The search URL (lines 18-24) *)

Module Url.

Import Text.

(** The characters [encodeURIComponent] leaves as they are. *)
Definition isUnreserved (c : ascii) : bool :=
  isDigit c || isUpper c || isLower c
  || existsb (Ascii.eqb c) (chars "-_.!~*'()").

Definition hexDigit (n : nat) : ascii := nth n (chars "0123456789ABCDEF") "0"%char.

(** [%XX] for one byte of the UTF-8 form of the string. *)
Definition percent (c : ascii) : list ascii :=
  let n := nat_of_ascii c in
  ["%"%char; hexDigit (n / 16); hexDigit (n mod 16)].

Definition encodeChar (c : ascii) : list ascii :=
  if isUnreserved c then [c] else percent c.

(** [encodeURIComponent] on a well-formed string, held as its UTF-8 bytes. *)
Definition encodeURIComponent (s : string) : string :=
  str (flat_map encodeChar (chars s)).

Definition hexValue (c : ascii) : nat :=
  if isDigit c then nat_of_ascii c - 48 else nat_of_ascii c - 55.

(** The inverse reading: [%XX] back to the byte. *)
Fixpoint decode (l : list ascii) : list ascii :=
  match l with
  | [] => []
  | c :: rest =>
      if Ascii.eqb c "%" then
        match rest with
        | h1 :: h2 :: rest' =>
            ascii_of_nat (16 * hexValue h1 + hexValue h2) :: decode rest'
        | _ => l
        end
      else c :: decode rest
  end.

(** Unreserved, or the percent sign. *)
Definition urlSafe (c : ascii) : bool := isUnreserved c || Ascii.eqb c "%".

(** The input of the actor: absent, or an object whose two fields may be
    absent. *)
Record InputObject := {
  searchTerm : option string;
  totalEpisodes : option Z
}.

Definition Input := option InputObject.

(** [input?.searchTerm || 'Giva'] *)
Definition termOf (input : Input) : string :=
  match input with
  | Some {| searchTerm := Some "" |} => "Giva"
  | Some {| searchTerm := Some t |} => t
  | _ => "Giva"
  end.

(** [input?.totalEpisodes || 50] *)
Definition limitOf (input : Input) : Z :=
  match input with
  | Some {| totalEpisodes := Some n |} => if (n =? 0)%Z then 50%Z else n
  | _ => 50%Z
  end.

Definition searchPrefix : string := "https://podcasts.apple.com/in/search?term=".

Definition searchUrl (input : Input) : string :=
  (searchPrefix ++ encodeURIComponent (termOf input))%string.

End Url.

(** ** Saving the records (lines 294-313) *)

Module Pipeline.

Import Collector Normalizer.

Record Item := {
  itemTitle : string;
  itemDescription : option string;
  itemDate : Value;
  itemDateISO : option string;
  itemShareUrl : option string
}.

(** [ep.date]: the trimmed text, or [null] without a date element. *)
Definition rawDate (d : option string) : Value :=
  match d with
  | Some s => VString s
  | None => VNull
  end.

Section Host.

Variable zone : JSDate.Zone.
Variable dateParse : string -> option Z.

(** [{ ...ep, date: parsed.full, dateISO: parsed.iso }]; [None] when
    [normalizeDate] raises. *)
Definition normalizeEpisode (now : Z) (ep : Episode) : option Item :=
  match normalizeDate zone now dateParse (rawDate (date ep)) with
  | Returns parsed =>
      Some {| itemTitle := title ep;
              itemDescription := description ep;
              itemDate := full parsed;
              itemDateISO := iso parsed;
              itemShareUrl := shareUrl ep |}
  | ThrowsRangeError => None
  end.

(** [episodes.map(...)]: the clock is read anew for every record, [clock i]
    for the record of index [i]; an exception ends the whole map. *)
Fixpoint normalizeAll (clock : nat -> Z) (i : nat) (eps : list Episode)
  : option (list Item) :=
  match eps with
  | [] => Some []
  | ep :: rest =>
      match normalizeEpisode (clock i) ep with
      | None => None
      | Some item =>
          match normalizeAll clock (S i) rest with
          | None => None
          | Some items => Some (item :: items)
          end
      end
  end.

(** What becomes of the collected records: pushed to the dataset, the debug
    capture of an empty result, or the exception handed on. *)
Inductive Saved :=
| Pushed (items : list Item)
| DebugCaptured
| Raised.

Definition saveEpisodes (clock : nat -> Z) (eps : list Episode) : Saved :=
  match eps with
  | [] => DebugCaptured
  | _ :: _ =>
      match normalizeAll clock 0 eps with
      | Some items => Pushed items
      | None => Raised
      end
  end.

(** Steps 4 and 5 for an input: the collector with the input's limit, then
    the saving; [None] when the loop needs more than [fuel] iterations. *)
Definition scrape (clock : nat -> Z) (fuel : nat) (input : Url.Input)
    (src : RowSource) : option Saved :=
  match collect fuel (Z.to_nat (Url.limitOf input)) src with
  | Some eps => Some (saveEpisodes clock eps)
  | None => None
  end.

End Host.

End Pipeline.

(** * Properties *)

(** Reduces the offsets of a host with a fixed offset. *)
Ltac fixed_offset :=
  cbn [JSDate.offsetAt JSDate.offsetOfLocal JSDate.fixedOffset] in *;
  unfold JSDate.msPerMinute in *.

(** ** Strings *)

Section TextFacts.

Import Text.

Lemma chars_str (l : list ascii) : chars (str l) = l.
Proof. apply list_ascii_of_string_of_list_ascii. Qed.

Lemma str_chars (s : string) : str (chars s) = s.
Proof. apply string_of_list_ascii_of_string. Qed.

Lemma chars_app (a b : string) : chars (a ++ b)%string = chars a ++ chars b.
Proof.
  unfold chars. induction a as [|c a IH]; simpl; [reflexivity|now rewrite IH].
Qed.

Lemma upper_inv (c : ascii) :
  isUpper (upperChar c) = true ->
  isSpace c = false /\ isDigit c = false /\ Ascii.eqb c "," = false.
Proof.
  destruct c as [[] [] [] [] [] [] [] []]; vm_compute; intros H;
    (discriminate H || (repeat split; reflexivity)).
Qed.

Lemma digit_inv (c : ascii) :
  isDigit c = true ->
  isSpace c = false /\ upperChar c = c /\ Ascii.eqb c "," = false.
Proof.
  destruct c as [[] [] [] [] [] [] [] []]; vm_compute; intros H;
    (discriminate H || (repeat split; reflexivity)).
Qed.

Lemma space_inv (c : ascii) :
  isSpace c = true ->
  isDigit c = false /\ upperChar c = c /\ Ascii.eqb c "," = false.
Proof.
  destruct c as [[] [] [] [] [] [] [] []]; vm_compute; intros H;
    (discriminate H || (repeat split; reflexivity)).
Qed.

Lemma takeWhile_app (p : ascii -> bool) (l1 l2 : list ascii) :
  forallb p l1 = true -> hd_error (map p l2) <> Some true ->
  takeWhile p (l1 ++ l2) = l1.
Proof.
  intros H1 H2. induction l1 as [|c l1 IH]; simpl in *.
  - destruct l2 as [|c l2]; [reflexivity|]. simpl in *.
    destruct (p c); [now contradiction H2|reflexivity].
  - apply andb_true_iff in H1 as [Hc H1]. rewrite Hc. now rewrite IH.
Qed.

Lemma dropWhile_app (p : ascii -> bool) (l1 l2 : list ascii) :
  forallb p l1 = true -> hd_error (map p l2) <> Some true ->
  dropWhile p (l1 ++ l2) = l2.
Proof.
  intros H1 H2. induction l1 as [|c l1 IH]; simpl in *.
  - destruct l2 as [|c l2]; [reflexivity|]. simpl in *.
    destruct (p c); [now contradiction H2|reflexivity].
  - apply andb_true_iff in H1 as [Hc H1]. rewrite Hc. now apply IH.
Qed.

Lemma trimChars_fixed (a z : ascii) (m : list ascii) :
  isSpace a = false -> isSpace z = false ->
  trimChars (a :: m ++ [z]) = a :: m ++ [z].
Proof.
  intros Ha Hz. unfold trimChars. cbn [dropWhile]. rewrite Ha.
  replace (rev (a :: m ++ [z])) with (z :: rev m ++ [a])
    by (simpl; now rewrite rev_app_distr).
  cbn [dropWhile]. rewrite Hz.
  simpl. rewrite rev_app_distr, rev_involutive. reflexivity.
Qed.

Lemma filter_all (p : ascii -> bool) (l : list ascii) :
  forallb p l = true -> filter p l = l.
Proof.
  induction l as [|c l IH]; simpl; [reflexivity|].
  intros H. apply andb_true_iff in H as [Hc H]. rewrite Hc. now rewrite IH.
Qed.

Lemma forallb_imp (p q : ascii -> bool) (l : list ascii) :
  (forall c, p c = true -> q c = true) ->
  forallb p l = true -> forallb q l = true.
Proof.
  intros Hpq. induction l as [|c l IH]; simpl; [reflexivity|].
  intros H. apply andb_true_iff in H as [Hc H].
  now rewrite (Hpq c Hc), IH.
Qed.

Lemma map_fixed (f : ascii -> ascii) (p : ascii -> bool) (l : list ascii) :
  (forall c, p c = true -> f c = c) -> forallb p l = true -> map f l = l.
Proof.
  intros Hf. induction l as [|c l IH]; simpl; [reflexivity|].
  intros H. apply andb_true_iff in H as [Hc H]. now rewrite (Hf c Hc), IH.
Qed.

Lemma upper_digits (l : list ascii) :
  forallb isDigit l = true -> map upperChar l = l.
Proof.
  apply map_fixed. intros c Hc. now apply digit_inv in Hc as [_ [-> _]].
Qed.

Lemma upper_spaces (l : list ascii) :
  forallb isSpace l = true -> map upperChar l = l.
Proof.
  apply map_fixed. intros c Hc. now apply space_inv in Hc as [_ [-> _]].
Qed.

Lemma forallb_upper_map (l : list ascii) :
  forallb isUpper (map upperChar l) = true ->
  forallb (fun c => isUpper (upperChar c)) l = true.
Proof.
  induction l as [|c l IH]; simpl; [reflexivity|].
  intros H. apply andb_true_iff in H as [Hc H]. now rewrite Hc, IH.
Qed.

End TextFacts.

(** ** Dates *)

Section DateFacts.

Import JSDate.
Local Open Scope Z_scope.

Lemma Day_unique (d t : Z) :
  d * msPerDay <= t < (d + 1) * msPerDay -> Day t = d.
Proof.
  unfold Day, msPerDay. intros H. symmetry.
  apply Z.div_unique with (r := t - d * 86400000); lia.
Qed.

(** [YearFromDay] is the year ECMA-262 defines: the one whose first day is
    the last first-of-year not after [d]. *)
Lemma YearFromDay_spec (d : Z) :
  DayFromYear (YearFromDay d) <= d < DayFromYear (YearFromDay d + 1).
Proof.
  unfold YearFromDay.
  destruct (d <? DayFromYear (1970 + 400 * d / 146097)) eqn:E1;
    [apply Z.ltb_lt in E1|apply Z.ltb_ge in E1].
  - unfold DayFromYear in *. Z.div_mod_to_equations. lia.
  - destruct (DayFromYear (1970 + 400 * d / 146097 + 1) <=? d) eqn:E2;
      [apply Z.leb_le in E2|apply Z.leb_gt in E2].
    + unfold DayFromYear in *. Z.div_mod_to_equations. lia.
    + lia.
Qed.

Lemma year_length (y : Z) : DayFromYear (y + 1) = DayFromYear y + DaysInYear y.
Proof.
  unfold DayFromYear, DaysInYear, isLeap.
  destruct (y mod 4 =? 0) eqn:E4; destruct (y mod 100 =? 0) eqn:E100;
    destruct (y mod 400 =? 0) eqn:E400; cbn [andb orb negb];
    rewrite ?Z.eqb_eq, ?Z.eqb_neq in *;
    Z.div_mod_to_equations; lia.
Qed.

Lemma monthStart_range (leap : bool) (m : Z) : 0 <= monthStart leap m <= 335.
Proof.
  unfold monthStart. destruct leap;
    repeat match goal with
           | |- context [if ?c then _ else _] => destruct c
           end; lia.
Qed.

Lemma monthStart_le (leap : bool) (m : Z) :
  monthStart leap m <= 334 + (if leap then 1 else 0).
Proof.
  unfold monthStart. destruct leap;
    repeat match goal with
           | |- context [if ?c then _ else _] => destruct c
           end; lia.
Qed.

Lemma TimeClip_Some (x t : Z) : TimeClip x = Some t -> t = x.
Proof.
  unfold TimeClip. destruct (Z.abs x <=? 8640000000000000); [|discriminate].
  now intros [= <-].
Qed.

Lemma MonthFromDay_range (d : Z) : 0 <= MonthFromDay d <= 11.
Proof.
  unfold MonthFromDay, monthOfYearDay.
  repeat match goal with
         | |- context [if ?c then _ else _] => destruct c
         end; lia.
Qed.

Lemma MakeDay_fields (d : Z) :
  MakeDay (YearFromDay d) (MonthFromDay d) (DateFromDay d) = d.
Proof.
  pose proof (MonthFromDay_range d) as Hm. unfold MakeDay.
  rewrite Z.div_small, Z.mod_small by lia. rewrite Z.add_0_r.
  unfold DateFromDay, dayWithinYear, leapOfDay. lia.
Qed.

Lemma MakeDay_shift (y m d n : Z) : MakeDay y m (d - n) = MakeDay y m d - n.
Proof. unfold MakeDay. lia. Qed.

Lemma MakeDate_Day (t : Z) : MakeDate (Day t) (TimeWithinDay t) = t.
Proof.
  unfold MakeDate, Day, TimeWithinDay, msPerDay.
  Z.div_mod_to_equations. lia.
Qed.

Lemma MakeTime_fields (t : Z) :
  MakeDate (Day t)
    (MakeTime (HourFromTime t) (MinFromTime t) (SecFromTime t) (msFromTime t))
  = t.
Proof.
  unfold MakeDate, MakeTime, Day, HourFromTime, MinFromTime, SecFromTime,
    msFromTime, msPerDay, msPerHour, msPerMinute, msPerSecond.
  Z.div_mod_to_equations. lia.
Qed.

Example isoString_epoch : isoString 0 = "1970-01-01T00:00:00.000Z"%string.
Proof. vm_compute. reflexivity. Qed.

Example isoString_before_epoch :
  isoString (-1) = "1969-12-31T23:59:59.999Z"%string.
Proof. vm_compute. reflexivity. Qed.

Example isoString_leap_day :
  isoString (MakeDate (MakeDay 2024 1 29) (MakeTime 12 30 15 7))
  = "2024-02-29T12:30:15.007Z"%string.
Proof. vm_compute. reflexivity. Qed.

Example isoString_expanded_year :
  isoString (MakeDate (MakeDay (-1) 11 31) 0) = "-000001-12-31T00:00:00.000Z"%string.
Proof. vm_compute. reflexivity. Qed.

Example longDate_example :
  longDate (MakeDate (MakeDay 2024 10 14) 0) = "14 November 2024"%string.
Proof. vm_compute. reflexivity. Qed.

Example newDate_two_digit_year :
  newDate 0 24 10 14 = Some (MakeDate (MakeDay 1924 10 14) 0).
Proof. vm_compute. reflexivity. Qed.

End DateFacts.

(** ** The collector *)

Section CollectorFacts.

Import Collector.

Lemma lastTitle_snoc (rs : list Episode) (e : Episode) :
  lastTitle (rs ++ [e]) = Some (title e).
Proof.
  unfold lastTitle. rewrite List.length_app. simpl.
  replace (List.length rs + 1 - 1) with (List.length rs) by lia.
  rewrite nth_error_app2 by lia. now rewrite Nat.sub_diag.
Qed.

Lemma lastTitle_cons (a b : Episode) (rs : list Episode) :
  lastTitle (a :: b :: rs) = lastTitle (b :: rs).
Proof.
  unfold lastTitle. simpl. now rewrite Nat.sub_0_r.
Qed.

Lemma noAdjacentRepeat_snoc (rs : list Episode) (e : Episode) :
  noAdjacentRepeat (map title rs) ->
  lastTitle rs <> Some (title e) ->
  noAdjacentRepeat (map title (rs ++ [e])).
Proof.
  induction rs as [|a [|b rs] IH]; intros Hinv Hlast.
  - exact I.
  - simpl. split; [|exact I]. intros Heq. apply Hlast. unfold lastTitle. simpl.
    now rewrite Heq.
  - destruct Hinv as [Hab Hrest]. split; [exact Hab|].
    apply IH; [exact Hrest|]. now rewrite <- lastTitle_cons with (a := a).
Qed.

Lemma noAdjacentRepeat_firstn (n : nat) (ts : list string) :
  noAdjacentRepeat ts -> noAdjacentRepeat (firstn n ts).
Proof.
  revert ts. induction n as [|n IH]; intros ts H; [exact I|].
  destruct ts as [|a [|b ts]]; [exact I| destruct n; exact I |].
  destruct H as [Hab H]. specialize (IH _ H).
  destruct n as [|n]; [exact I|]. split; [exact Hab|exact IH].
Qed.

Lemma sameTitle_false (t : string) (last : option string) :
  sameTitle t last = false -> last <> Some t.
Proof.
  destruct last as [l|]; simpl; [|discriminate].
  intros H Heq. injection Heq as ->. now rewrite String.eqb_refl in H.
Qed.

Lemma sameTitle_true (t : string) (last : option string) :
  sameTitle t last = true <-> last = Some t.
Proof.
  destruct last as [l|]; simpl; [|split; discriminate].
  rewrite String.eqb_eq. split; [now intros ->|now intros [= ->]].
Qed.

Lemma visit_noAdjacentRepeat (rs : list Episode) (row : Row) :
  noAdjacentRepeat (map title rs) -> noAdjacentRepeat (map title (visit rs row)).
Proof.
  intros H. destruct row as [els|]; [|exact H]. unfold visit.
  destruct (option_map Text.trim (titleEl els)) as [[|c t]|]; try exact H.
  destruct (sameTitle _ _) eqn:E; [exact H|].
  apply noAdjacentRepeat_snoc; [exact H|]. now apply sameTitle_false.
Qed.

Lemma scanRows_noAdjacentRepeat (limit : nat) (rows : list Row) :
  forall rs, noAdjacentRepeat (map title rs) ->
    noAdjacentRepeat (map title (scanRows limit rows rs)).
Proof.
  induction rows as [|row rows IH]; intros rs H; simpl; [exact H|].
  destruct (limit <=? List.length rs); [exact H|].
  apply IH. now apply visit_noAdjacentRepeat.
Qed.

Lemma visit_length (rs : list Episode) (row : Row) :
  List.length (visit rs row) <= S (List.length rs).
Proof.
  destruct row as [els|]; simpl; [|lia].
  destruct (option_map Text.trim (titleEl els)) as [[|c t]|]; try lia.
  destruct (sameTitle _ _); [lia|]. rewrite List.length_app. simpl. lia.
Qed.

Lemma scanRows_length (limit : nat) (rows : list Row) :
  forall rs, List.length rs <= limit ->
    List.length (scanRows limit rows rs) <= limit.
Proof.
  induction rows as [|row rows IH]; intros rs H; simpl; [exact H|].
  destruct (limit <=? List.length rs) eqn:E; [exact H|].
  apply Nat.leb_gt in E. apply IH. pose proof (visit_length rs row). lia.
Qed.

Lemma results_scanAndCount (limit : nat) (src : RowSource) (st : State) :
  results (scanAndCount limit src st)
  = scanRows limit (src (iterations st)) (results st).
Proof.
  unfold scanAndCount. now destruct (prevCount st <? _).
Qed.

Lemma iterations_scanAndCount (limit : nat) (src : RowSource) (st : State) :
  iterations (scanAndCount limit src st) = S (iterations st).
Proof.
  unfold scanAndCount. now destruct (prevCount st <? _).
Qed.

(** A property of [results] kept by a scan is kept by the whole loop. *)
Lemma loop_results_invariant (P : list Episode -> Prop) (limit : nat)
    (src : RowSource) :
  (forall rows rs, P rs -> P (scanRows limit rows rs)) ->
  forall fuel st st', P (results st) ->
    loop fuel limit src st = Some st' -> P (results st').
Proof.
  intros Hscan. induction fuel as [|fuel IH]; intros st st' HP; simpl.
  - destruct (continues limit st); [discriminate|]. now intros [= <-].
  - destruct (continues limit st); [|now intros [= <-]].
    assert (HP' : P (results (scanAndCount limit src st))).
    { rewrite results_scanAndCount. now apply Hscan. }
    destruct (limit <=? _); [now intros [= <-]|].
    apply IH. exact HP'.
Qed.

Lemma loop_fuel_mono (limit : nat) (src : RowSource) :
  forall fuel st st', loop fuel limit src st = Some st' ->
    forall fuel', fuel <= fuel' -> loop fuel' limit src st = Some st'.
Proof.
  induction fuel as [|fuel IH]; intros st st' H fuel' Hle.
  - simpl in H. destruct (continues limit st) eqn:E; [discriminate|].
    destruct fuel'; simpl; now rewrite E.
  - destruct fuel' as [|fuel']; [lia|]. simpl in *.
    destruct (continues limit st); [|exact H].
    destruct (limit <=? _); [exact H|]. apply IH with (fuel' := fuel') in H;
      [exact H|lia].
Qed.

(** Once the row count has stopped exceeding [prevCount], the loop ends after
    the attempts that are left. *)
Lemma loop_plateau (limit : nat) (src : RowSource) :
  forall k st,
    (forall i, iterations st <= i -> List.length (src i) <= prevCount st) ->
    maxStableAttempts <= stableAttempts st + k ->
    forall fuel, k <= fuel ->
      exists st', loop fuel limit src st = Some st'
                  /\ iterations st' <= iterations st + k.
Proof.
  induction k as [|k IH]; intros st Hsrc Hk fuel Hfuel.
  - exists st. split; [|lia].
    assert (E : continues limit st = false).
    { unfold continues. apply andb_false_iff. right. apply Nat.ltb_ge. lia. }
    destruct fuel; simpl; now rewrite E.
  - destruct (continues limit st) eqn:E.
    2:{ exists st. split; [|lia]. destruct fuel; simpl; now rewrite E. }
    destruct fuel as [|fuel]; [lia|]. simpl. rewrite E.
    assert (Hst : scanAndCount limit src st
                  = {| results := scanRows limit (src (iterations st)) (results st);
                       prevCount := prevCount st;
                       stableAttempts := S (stableAttempts st);
                       iterations := S (iterations st);
                       scrolls := scrolls st |}).
    { unfold scanAndCount.
      destruct (prevCount st <? _) eqn:E'; [|reflexivity].
      apply Nat.ltb_lt in E'. specialize (Hsrc (iterations st) (le_n _)). lia. }
    rewrite Hst. cbn [results].
    destruct (limit <=? _).
    + eexists. split; [reflexivity|]. simpl. lia.
    + destruct (IH (scrollOn src
        {| results := scanRows limit (src (iterations st)) (results st);
           prevCount := prevCount st;
           stableAttempts := S (stableAttempts st);
           iterations := S (iterations st);
           scrolls := scrolls st |})) with (fuel := fuel)
        as [st' [Hrun Hit]].
      * simpl. intros i Hi. apply Hsrc. lia.
      * simpl. lia.
      * lia.
      * exists st'. split; [exact Hrun|]. simpl in Hit. lia.
Qed.

Lemma prevCount_scanAndCount (limit : nat) (src : RowSource) (st : State) :
  List.length (src (iterations st)) <= prevCount (scanAndCount limit src st).
Proof.
  unfold scanAndCount. destruct (prevCount st <? _) eqn:E; simpl; [lia|].
  apply Nat.ltb_ge in E. exact E.
Qed.

(** A source whose row count stops growing at index [n] ends the loop within
    [n + 1 + maxStableAttempts] iterations. *)
Lemma loop_terminates (limit n : nat) (src : RowSource) :
  stableFrom n src ->
  forall k st,
    iterations st + k = S n ->
    (k = 0 -> List.length (src n) <= prevCount st) ->
    forall fuel, k + maxStableAttempts <= fuel ->
      exists st', loop fuel limit src st = Some st'
                  /\ iterations st' <= S n + maxStableAttempts.
Proof.
  intros Hstable. induction k as [|k IH]; intros st Hit Hprev fuel Hfuel.
  - destruct (loop_plateau limit src maxStableAttempts st) with (fuel := fuel)
      as [st' [Hrun Hb]].
    + intros i Hi. specialize (Hstable i). specialize (Hprev eq_refl). lia.
    + lia.
    + lia.
    + exists st'. split; [exact Hrun|lia].
  - destruct (continues limit st) eqn:E.
    2:{ exists st. split; [|lia]. destruct fuel; simpl; now rewrite E. }
    destruct fuel as [|fuel]; [unfold maxStableAttempts in Hfuel; lia|].
    simpl. rewrite E.
    destruct (limit <=? _).
    + eexists. split; [reflexivity|]. rewrite iterations_scanAndCount. lia.
    + apply IH.
      * simpl. rewrite iterations_scanAndCount. lia.
      * intros ->. simpl.
        assert (iterations st = n) as <- by lia.
        apply prevCount_scanAndCount.
      * lia.
Qed.

Lemma collect_length_le (fuel limit : nat) (src : RowSource) (out : list Episode) :
  collect fuel limit src = Some out -> List.length out <= limit.
Proof.
  unfold collect. destruct (loop fuel limit src init); [|discriminate].
  intros [= <-]. rewrite List.length_firstn. lia.
Qed.

Lemma collect_returns (limit n : nat) (src : RowSource) :
  stableFrom n src ->
  forall fuel, S n + maxStableAttempts <= fuel ->
    exists out, collect fuel limit src = Some out.
Proof.
  intros Hstable fuel Hfuel.
  destruct (loop_terminates limit n src Hstable (S n) init) with (fuel := fuel)
    as [st [Hrun _]]; [reflexivity|discriminate|lia|].
  exists (firstn limit (results st)). unfold collect. now rewrite Hrun.
Qed.

Lemma scanRows_run (limit : nat) (t : string) (rows : list Row) :
  Forall (fun r => rowTitle r = Some t) rows -> t <> "" ->
  forall rs, lastTitle rs = Some t -> scanRows limit rows rs = rs.
Proof.
  intros Hrows Ht. induction Hrows as [|row rows Hrow _ IH]; intros rs Hlast;
    simpl; [reflexivity|].
  destruct (limit <=? List.length rs); [reflexivity|].
  assert (Hv : visit rs row = rs).
  { destruct row as [els|]; [|reflexivity]. unfold visit. simpl in Hrow.
    rewrite Hrow. destruct t as [|c t]; [contradiction|].
    now rewrite (proj2 (sameTitle_true _ _) Hlast). }
  rewrite Hv. now apply IH.
Qed.

End CollectorFacts.

Section CollectorClaims.

Import Collector.

(** C1.  On every source whose row count stops growing the collector returns,
    and what it returns has at most [limit] records; [results] never exceeds
    [limit], so the final [slice] removes nothing.  Its length is not
    [min limit (number of distinct-adjacent rows)]: every iteration scans the
    list from its first row again, so on a list of three rows with distinct
    titles that never grows, and a limit of 50, it returns the three records
    thirteen times over, 39 records where the minimum is 3. *)
Theorem collect_length_not_min :
  (forall limit n src fuel, stableFrom n src ->
     S n + maxStableAttempts <= fuel ->
     exists out, collect fuel limit src = Some out /\ List.length out <= limit)
  /\ (forall fuel limit src st, loop fuel limit src init = Some st ->
        List.length (results st) <= limit
        /\ collect fuel limit src = Some (results st))
  /\ (let src := fun _ : nat => [titled "a"; titled "b"; titled "c"] in
      stableFrom 0 src
      /\ Nat.min 50 (distinctAdjacent (src 0)) = 3
      /\ exists out, collect 13 50 src = Some out
                     /\ List.length out = 39
                     /\ map title (firstn 6 out) = ["a"; "b"; "c"; "a"; "b"; "c"]).
Proof.
  split; [|split].
  - intros limit n src fuel Hstable Hfuel.
    destruct (collect_returns limit n src Hstable fuel Hfuel) as [out Hout].
    exists out. split; [exact Hout|]. now apply collect_length_le in Hout.
  - intros fuel limit src st Hrun.
    assert (Hlen : List.length (results st) <= limit).
    { apply (loop_results_invariant (fun rs => List.length rs <= limit)
               limit src (fun rows rs => scanRows_length limit rows rs)
               fuel init st (Nat.le_0_l limit) Hrun). }
    split; [exact Hlen|]. unfold collect. rewrite Hrun. simpl.
    now rewrite firstn_all2.
  - cbv zeta. split; [intros i _; apply le_n|]. split; [reflexivity|].
    eexists. split; [vm_compute; reflexivity|]. split; reflexivity.
Qed.

(** C2.  The records the collector returns never repeat the title of the
    record right before them, and a row with a title is dropped exactly when
    the last appended record has that title and appended otherwise, so that
    a title that comes back after another one is appended again.  A run of
    rows with one title appends one record in one scan of the list, but not
    in what the collector returns: every iteration scans the list from its
    first row again, so on the rows x, x, y, never changing, and a limit of
    50, it returns x, y thirteen times over, and the run has given thirteen
    records where the claim has one. *)
Theorem collect_adjacent_dedup :
  (forall fuel limit src out, collect fuel limit src = Some out ->
     noAdjacentRepeat (map title out))
  /\ (forall rs els t, rowTitle (Li els) = Some t -> t <> "" ->
        (lastTitle rs = Some t -> visit rs (Li els) = rs)
        /\ (lastTitle rs <> Some t -> visit rs (Li els) = rs ++ [rowEpisode els t]))
  /\ (forall limit rs els t rest, rowTitle (Li els) = Some t -> t <> "" ->
        Forall (fun r => rowTitle r = Some t) rest ->
        lastTitle rs <> Some t -> List.length rs < limit ->
        scanRows limit (Li els :: rest) rs = rs ++ [rowEpisode els t])
  /\ (exists out,
        collect 13 3 (fun _ => [titled "a"; titled "b"; titled "a"]) = Some out
        /\ map title out = ["a"; "b"; "a"])
  /\ (let src := fun _ : nat => [titled "x"; titled "x"; titled "y"] in
      stableFrom 0 src
      /\ dedupAdjacent (rowTitles (src 0)) = ["x"; "y"]
      /\ exists out,
           collect 13 50 src = Some out
           /\ map title out = List.concat (repeat ["x"; "y"] 13)
           /\ List.length out = 26
           /\ count_occ string_dec (map title out) "x" = 13).
Proof.
  assert (Hvisit : forall rs els t, rowTitle (Li els) = Some t -> t <> "" ->
        (lastTitle rs = Some t -> visit rs (Li els) = rs)
        /\ (lastTitle rs <> Some t -> visit rs (Li els) = rs ++ [rowEpisode els t])).
  { intros rs els t Hrow Ht. unfold visit. simpl in Hrow. rewrite Hrow.
    destruct t as [|c t]; [contradiction|]. split; intros Hlast.
    - now rewrite (proj2 (sameTitle_true _ _) Hlast).
    - destruct (sameTitle _ _) eqn:E; [|reflexivity].
      apply sameTitle_true in E. contradiction. }
  split; [|split; [exact Hvisit|split; [|split]]].
  - intros fuel limit src out. unfold collect.
    destruct (loop fuel limit src init) as [st|] eqn:Hrun; [|discriminate].
    intros [= <-]. rewrite <- firstn_map. apply noAdjacentRepeat_firstn.
    apply (loop_results_invariant
             (fun rs => noAdjacentRepeat (map title rs)) limit src
             (fun rows rs => scanRows_noAdjacentRepeat limit rows rs)
             fuel init st I Hrun).
  - intros limit rs els t rest Hrow Ht Hrest Hlast Hlen. cbn [scanRows].
    destruct (limit <=? List.length rs) eqn:E; [apply Nat.leb_le in E; lia|].
    rewrite (proj2 (Hvisit rs els t Hrow Ht) Hlast).
    apply (scanRows_run limit t rest Hrest Ht).
    apply lastTitle_snoc.
  - eexists. split; [vm_compute; reflexivity|reflexivity].
  - cbv zeta. split; [intros i _; apply le_n|]. split; [reflexivity|].
    eexists. split; [vm_compute; reflexivity|].
    split; [reflexivity|]. split; [reflexivity|]. vm_compute. reflexivity.
Qed.

Lemma collect_length_not_min_witness :
  exists out, collect 13 2 (fun _ => [titled "a"]) = Some out
              /\ List.length out <= 2.
Proof.
  apply (proj1 collect_length_not_min 2 0 (fun _ => [titled "a"]) 13).
  - intros i _. apply le_n.
  - apply le_n.
Defined.

Lemma collect_adjacent_dedup_witness :
  exists out,
    collect 13 50 (fun _ => [titled "x"; titled "x"; titled "y"]) = Some out
    /\ List.length out = 26
    /\ noAdjacentRepeat (map title out).
Proof.
  assert (H : exists out,
    collect 13 50 (fun _ => [titled "x"; titled "x"; titled "y"]) = Some out
    /\ List.length out = 26).
  { eexists. split; [vm_compute; reflexivity|reflexivity]. }
  destruct H as [out [H Hlen]]. exists out.
  split; [exact H|]. split; [exact Hlen|].
  exact (proj1 collect_adjacent_dedup 13 50 _ _ H).
Defined.

(** C3 as stated fails: one titled row that never changes, limit 2, takes
    thirteen iterations, the first one observing the growth from 0 to 1. *)
Lemma plateau_not_within_max : ~ plateauWithin maxStableAttempts.
Proof.
  intros H.
  destruct (H 2 (fun _ => [titled "a"])) as [fuel [st [Hrun Hit]]].
  { intros i _. apply le_n. }
  assert (H13 : exists st13, loop 13 2 (fun _ => [titled "a"]) init = Some st13
                             /\ iterations st13 = 13).
  { eexists. split; [vm_compute; reflexivity|reflexivity]. }
  destruct H13 as [st13 [Hrun13 Hit13]].
  apply loop_fuel_mono with (fuel' := fuel + 13) in Hrun; [|lia].
  apply loop_fuel_mono with (fuel' := fuel + 13) in Hrun13; [|lia].
  rewrite Hrun in Hrun13. injection Hrun13 as ->.
  unfold maxStableAttempts in Hit. lia.
Qed.

(** C3, amended.  A source that never grows beyond its initial row count ends
    the loop within [maxStableAttempts + 1] iterations whatever the limit,
    and within [maxStableAttempts] when it has no rows at all; from any state
    after which the row count no longer exceeds [prevCount], the loop runs at
    most the [maxStableAttempts - stableAttempts] iterations that are left. *)
Theorem plateau_termination :
  plateauWithin (maxStableAttempts + 1)
  /\ (forall limit src, (forall i, src i = []) ->
        forall fuel, maxStableAttempts <= fuel ->
          exists st, loop fuel limit src init = Some st
                     /\ iterations st <= maxStableAttempts)
  /\ (forall limit src st,
        (forall i, iterations st <= i -> List.length (src i) <= prevCount st) ->
        forall fuel, maxStableAttempts - stableAttempts st <= fuel ->
          exists st', loop fuel limit src st = Some st'
                      /\ iterations st' <= iterations st
                           + (maxStableAttempts - stableAttempts st)).
Proof.
  split; [|split].
  - intros limit src Hstable. exists (1 + maxStableAttempts).
    destruct (loop_terminates limit 0 src Hstable 1 init)
      with (fuel := 1 + maxStableAttempts) as [st [Hrun Hit]];
      [reflexivity|discriminate|lia|].
    exists st. split; [exact Hrun|lia].
  - intros limit src Hempty fuel Hfuel.
    apply (loop_plateau limit src maxStableAttempts init); [|simpl; lia|exact Hfuel].
    intros i _. now rewrite Hempty.
  - intros limit src st Hsrc fuel Hfuel.
    apply loop_plateau; [exact Hsrc|lia|exact Hfuel].
Qed.

Lemma plateau_termination_witness :
  exists st, loop 12 5 (fun _ => []) init = Some st /\ iterations st <= maxStableAttempts.
Proof.
  apply (proj1 (proj2 plateau_termination) 5 (fun _ => [])).
  - intros i. reflexivity.
  - apply le_n.
Defined.

End CollectorClaims.

(** ** The normalizer *)

Section NormalizerFacts.

Import Text JSDate Normalizer.
Local Open Scope Z_scope.

Variables (tz now : Z) (dateParse : string -> option Z).

Lemma normalizeDate_relative (r : string) (amount : Z) (u : Unit) :
  r <> "" -> relativeMatch (clean r) = Some (amount, u) ->
  normalizeDate tz now dateParse (VString r)
  = finishRelative tz (subtract tz now u amount).
Proof.
  intros Hr Hm. destruct r as [|c r]; [contradiction|].
  unfold normalizeDate. cbv zeta. now rewrite Hm.
Qed.

Lemma normalizeDate_absolute (r : string) (f : Fields) :
  r <> "" -> relativeMatch (clean r) = None -> fields (split (clean r)) = f ->
  normalizeDate tz now dateParse (VString r)
  = finishAbsolute tz (VString r) (resolve tz now dateParse f (clean r)).
Proof.
  intros Hr Hm <-. destruct r as [|c r]; [contradiction|].
  unfold normalizeDate. cbv zeta. now rewrite Hm.
Qed.

Lemma newDate_midnight (y m d : Z) :
  (0 <=? y) && (y <=? 99) = false ->
  newDate tz y m d = TimeClip (MakeDay y m d * msPerDay - tz * msPerMinute).
Proof.
  intros Hy. unfold newDate. rewrite Hy. unfold UTC, MakeDate, MakeTime.
  fixed_offset. f_equal. lia.
Qed.

Lemma slice0_app (n : nat) (a b : string) :
  String.length a = n -> slice0 n (a ++ b)%string = a.
Proof.
  intros <-. unfold slice0, str, chars. revert b.
  induction a as [|c a IH]; intros b; simpl.
  - reflexivity.
  - now rewrite IH.
Qed.

Lemma isoDate_slice (t d : Z) :
  Day t = d -> String.length (isoDateOfDay d) = 10%nat ->
  slice0 10 (isoString t) = isoDateOfDay d.
Proof.
  intros Hd Hlen. unfold isoString. rewrite Hd. now apply slice0_app.
Qed.

(** What lines 285-291 make of local midnight of day number [d]: the long
    form of that day, and the ISO date of the same day at or west of UTC, of
    the day before east of it. *)
Lemma finishAbsolute_midnight (raw : Value) (d : Z) :
  zoneOffset tz -> -99999999 <= d <= 99999999 ->
  String.length (isoDateOfDay (if 0 <? tz then d - 1 else d)) = 10%nat ->
  finishAbsolute tz raw (Some (TimeClip (d * msPerDay - tz * msPerMinute)))
  = Returns {| full := VString (longDateOfDay d);
               iso := Some (isoDateOfDay (if 0 <? tz then d - 1 else d)) |}.
Proof.
  intros Htz Hd Hlen. unfold zoneOffset in Htz. unfold TimeClip.
  replace (Z.abs (d * msPerDay - tz * msPerMinute) <=? 8640000000000000)
    with true
    by (symmetry; apply Z.leb_le; unfold msPerDay, msPerMinute; lia).
  unfold finishAbsolute, toLocaleDateString, longDate.
  replace (LocalTime tz (d * msPerDay - tz * msPerMinute)) with (d * msPerDay)
    by (unfold LocalTime; fixed_offset; lia).
  rewrite (Day_unique d (d * msPerDay)) by (unfold msPerDay; lia).
  rewrite (isoDate_slice _ (if 0 <? tz then d - 1 else d)); [reflexivity| |exact Hlen].
  destruct (0 <? tz) eqn:E; [apply Z.ltb_lt in E|apply Z.ltb_ge in E];
    apply Day_unique; unfold msPerDay, msPerMinute; lia.
Qed.

Lemma Day_shift (t n : Z) : Day (t - n * msPerDay) = Day t - n.
Proof.
  unfold Day. replace (t - n * msPerDay) with (t + (- n) * msPerDay) by lia.
  rewrite Z.div_add by (unfold msPerDay; lia). lia.
Qed.

(** Second, minute, hour, day and week: [amount] units of fixed length are
    taken off the local time, on every host. *)
Lemma subtract_wall (zone : Zone) (t : Z) (u : Unit) (ms amount : Z) :
  fixedMillis u = Some ms ->
  subtract zone t u amount
  = TimeClip (UTC zone (LocalTime zone t - amount * ms)).
Proof.
  intros Hu.
  pose proof (MakeTime_fields (LocalTime zone t)) as Ht.
  pose proof (MakeDate_Day (LocalTime zone t)) as Hd.
  pose proof (MakeDay_fields (Day (LocalTime zone t))) as Hf.
  destruct u; simpl in Hu; try discriminate Hu; injection Hu as <-;
    unfold subtract;
    unfold setSeconds, setMinutes, setHours, setDate, getSeconds, getMinutes,
      getHours, getDate, YearFromTime, MonthFromTime, DateFromTime;
    rewrite ?MakeDay_shift, ?Hf; do 2 f_equal;
    set (l := LocalTime zone t) in *; clearbody l;
    unfold MakeDate, MakeTime, msPerDay, msPerHour, msPerMinute,
      msPerSecond in *; lia.
Qed.

Lemma relative_outcome (zone : Zone) (t : Z) (parse : string -> option Z)
    (r : string) (amount : Z) (u : Unit) :
  r <> "" -> relativeMatch (clean r) = Some (amount, u) ->
  normalizeDate zone t parse (VString r)
  = finishRelative zone (subtract zone t u amount).
Proof.
  intros Hr Hm. destruct r as [|c r]; [contradiction|].
  unfold normalizeDate. cbv zeta. now rewrite Hm.
Qed.

(** On a host with a fixed offset that takes them off the instant. *)
Lemma subtract_fixed (u : Unit) (ms amount : Z) :
  fixedMillis u = Some ms ->
  subtract tz now u amount = TimeClip (now - amount * ms).
Proof.
  intros Hu. rewrite (subtract_wall tz now u ms amount Hu).
  unfold UTC, LocalTime. fixed_offset. f_equal. lia.
Qed.

(** Month and year: the field is lowered and [MakeDay] counts the day of the
    month from the first day of the month the lowered fields name. *)
Lemma subtract_month (amount : Z) :
  let l := LocalTime tz now in
  let m := MonthFromTime l - amount in
  let y := YearFromTime l + m / 12 in
  subtract tz now MONTH amount
  = TimeClip (UTC tz (MakeDate
      (DayFromYear y + monthStart (isLeap y) (m mod 12) + DateFromTime l - 1)
      (TimeWithinDay l))).
Proof. reflexivity. Qed.

Lemma subtract_year (amount : Z) :
  let l := LocalTime tz now in
  let y := YearFromTime l - amount in
  subtract tz now YEAR amount
  = TimeClip (UTC tz (MakeDate
      (DayFromYear y + monthStart (isLeap y) (MonthFromTime l)
       + DateFromTime l - 1)
      (TimeWithinDay l))).
Proof.
  cbv zeta. unfold subtract, setFullYear, getFullYear, MakeDay.
  pose proof (MonthFromDay_range (Day (LocalTime tz now))) as Hm.
  unfold MonthFromTime.
  rewrite Z.div_small, Z.mod_small by lia. now rewrite Z.add_0_r.
Qed.

Lemma yearless_resolve (r : string) (m d : Z) :
  r <> "" -> relativeMatch (clean r) = None ->
  fields (split (clean r)) = {| day := Some d; month := Some m; year := None |} ->
  normalizeDate tz now dateParse (VString r)
  = finishAbsolute tz (VString r) (Some (inferYear tz now m d)).
Proof.
  intros Hr Hrel Hf. rewrite (normalizeDate_absolute r _ Hr Hrel Hf).
  unfold resolve, inferYear. cbn [month day year noYear andb].
  now destruct (isAfter now (newDate tz (getFullYear tz now) m d)).
Qed.

Lemma explicit_year_outcome (r : string) (y m d : Z) :
  r <> "" -> relativeMatch (clean r) = None ->
  fields (split (clean r)) = {| day := Some d; month := Some m; year := Some y |} ->
  noYear (Some y) = false ->
  normalizeDate tz now dateParse (VString r)
  = finishAbsolute tz (VString r) (Some (newDate tz y m d)).
Proof.
  intros Hr Hrel Hf Hy. rewrite (normalizeDate_absolute r _ Hr Hrel Hf).
  unfold resolve. cbn [month day year]. now rewrite Hy.
Qed.

(** From 1970 on, the year inferred for a month and a day of the month up to
    31 never gives a date after the current moment. *)
Lemma inferYear_not_after (m d t : Z) :
  zoneOffset tz -> 0 <= now -> 0 <= m <= 11 -> d <= 31 ->
  inferYear tz now m d = Some t -> t <= now.
Proof.
  intros Htz Hnow Hm Hd. unfold zoneOffset in Htz. unfold inferYear.
  destruct (isAfter now (newDate tz (getFullYear tz now) m d)) eqn:E.
  - unfold getFullYear, YearFromTime.
    set (l := LocalTime tz now).
    assert (Hl : l = now + tz * 60000) by reflexivity.
    pose proof (YearFromDay_spec (Day l)) as [HY1 HY2].
    set (Y := YearFromDay (Day l)) in *.
    assert (HDl : Day l * 86400000 <= l).
    { unfold Day, msPerDay. Z.div_mod_to_equations. lia. }
    assert (HY : 1969 <= Y).
    { assert (-1 <= Day l)
        by (unfold Day, msPerDay; Z.div_mod_to_equations; lia).
      clearbody Y. unfold DayFromYear in HY2. Z.div_mod_to_equations. lia. }
    rewrite newDate_midnight
      by (apply andb_false_iff; right; apply Z.leb_gt; lia).
    intros Ht. apply TimeClip_Some in Ht.
    pose proof (year_length (Y - 1)) as Hlen.
    replace (Y - 1 + 1) with Y in Hlen by lia.
    pose proof (monthStart_le (isLeap (Y - 1)) m) as Hms.
    unfold MakeDay in Ht. rewrite Z.div_small, Z.mod_small in Ht by lia.
    rewrite Z.add_0_r in Ht. unfold DaysInYear in Hlen.
    unfold msPerDay, msPerMinute in Ht. clearbody l Y.
    destruct (isLeap (Y - 1)); lia.
  - intros Ht. rewrite Ht in E. simpl in E. apply Z.ltb_ge in E. exact E.
Qed.

End NormalizerFacts.


Section RelativeInputs.

Import Text JSDate Normalizer.

Lemma agoTail_blank (sp : list ascii) :
  sp <> [] -> forallb isSpace sp = true -> agoTail (sp ++ chars "AGO") = true.
Proof.
  intros Hne Hsp. unfold agoTail, spaces.
  destruct sp as [|c sp]; [contradiction|].
  pose proof Hsp as Hsp'. simpl in Hsp'. apply andb_true_iff in Hsp' as [Hc _].
  cbn [app]. rewrite Hc.
  change (c :: sp ++ chars "AGO") with ((c :: sp) ++ chars "AGO").
  rewrite dropWhile_app; [reflexivity|exact Hsp|vm_compute; discriminate].
Qed.

Lemma pluralTail_blank (sp : list ascii) :
  sp <> [] -> forallb isSpace sp = true ->
  pluralTail (sp ++ chars "AGO") = true.
Proof.
  intros Hne Hsp. pose proof (agoTail_blank sp Hne Hsp) as H.
  destruct sp as [|c sp]; [contradiction|]. unfold pluralTail. cbn [app] in *.
  rewrite H. apply orb_true_r.
Qed.

Lemma pluralTail_plural (sp : list ascii) :
  sp <> [] -> forallb isSpace sp = true ->
  pluralTail ("S"%char :: sp ++ chars "AGO") = true.
Proof.
  intros Hne Hsp. unfold pluralTail.
  rewrite (agoTail_blank sp Hne Hsp). reflexivity.
Qed.

Lemma unitTail_unit (u : Unit) (rest : list ascii) :
  pluralTail rest = true ->
  unitTail units (chars (unitName u) ++ rest) = Some u.
Proof.
  intros H. destruct u; cbv -[pluralTail]; now rewrite H.
Qed.

Lemma unitName_upper (u : Unit) (plural : bool) :
  let W := chars (if plural then (unitName u ++ "S")%string else unitName u) in
  forallb isUpper W = true
  /\ exists x W', W = x :: W' /\ isSpace x = false.
Proof.
  destruct u, plural; (split; [reflexivity|]); eexists; eexists;
    (split; [vm_compute; reflexivity|reflexivity]).
Qed.

Lemma isNumber_chars (s : string) :
  isNumber s = true ->
  exists d l, chars s = d :: l /\ forallb isDigit (d :: l) = true.
Proof.
  unfold isNumber, allDigits. destruct (chars s) as [|d l]; [discriminate|].
  intros H. now exists d, l.
Qed.

Lemma isBlank_chars (s : string) :
  isBlank s = true ->
  exists c l, chars s = c :: l /\ forallb isSpace (c :: l) = true.
Proof.
  unfold isBlank. destruct (chars s) as [|c l]; [discriminate|].
  intros H. now exists c, l.
Qed.

Lemma upper_chars (w W : string) :
  toUpperCase w = W -> map upperChar (chars w) = chars W.
Proof.
  intros <-. unfold toUpperCase. now rewrite chars_str.
Qed.

(** The text a relative input is cleaned to, and what the pattern finds. *)
Lemma relativeMatch_input (ds sp1 w sp2 ago : string) (u : Unit) :
  isNumber ds = true -> isBlank sp1 = true -> isBlank sp2 = true ->
  namesUnit w u -> toUpperCase ago = "AGO" ->
  relativeMatch (clean (ds ++ sp1 ++ w ++ sp2 ++ ago)%string)
  = Some (parseInt ds, u).
Proof.
  intros Hds Hsp1 Hsp2 Hw Hago.
  destruct (isNumber_chars ds Hds) as [d [D [ED HD]]].
  destruct (isBlank_chars sp1 Hsp1) as [c1 [S1 [E1 H1]]].
  destruct (isBlank_chars sp2 Hsp2) as [c2 [S2 [E2 H2]]].
  assert (HW : exists plural : bool,
    map upperChar (chars w)
    = chars (if plural then (unitName u ++ "S")%string else unitName u)).
  { destruct Hw as [Hw|Hw]; [exists false|exists true]; now apply upper_chars. }
  destruct HW as [plural HW].
  destruct (unitName_upper u plural) as [HWup HWhd]. cbv zeta in HWup, HWhd.
  set (W := chars (if plural then (unitName u ++ "S")%string else unitName u)) in *.
  apply upper_chars in Hago.
  assert (HA : exists a1 a2 a3, chars ago = [a1; a2; a3]).
  { destruct (chars ago) as [|a1 [|a2 [|a3 [|a4 r]]]]; try discriminate Hago.
    now exists a1, a2, a3. }
  destruct HA as [a1 [a2 [a3 EA]]].
  assert (HAup : forallb (fun c => isUpper (upperChar c)) (chars ago) = true).
  { apply forallb_upper_map. now rewrite Hago. }
  assert (HWl : forallb (fun c => isUpper (upperChar c)) (chars w) = true).
  { apply forallb_upper_map. now rewrite HW. }
  (* the characters of the input *)
  assert (Eraw : chars (ds ++ sp1 ++ w ++ sp2 ++ ago)%string
                 = chars ds ++ chars sp1 ++ chars w ++ chars sp2 ++ chars ago).
  { now rewrite !chars_app. }
  (* no comma is removed *)
  assert (Hnc : forallb (fun c => negb (Ascii.eqb c ","))
                  (chars ds ++ chars sp1 ++ chars w ++ chars sp2 ++ chars ago)
                = true).
  { rewrite !forallb_app. rewrite ED, E1, E2.
    rewrite (forallb_imp isDigit _ (d :: D)), (forallb_imp isSpace _ (c1 :: S1)),
      (forallb_imp isSpace _ (c2 :: S2)),
      (forallb_imp (fun c => isUpper (upperChar c)) _ (chars w)),
      (forallb_imp (fun c => isUpper (upperChar c)) _ (chars ago));
      try assumption; try reflexivity.
    - intros c Hc. apply upper_inv in Hc as [_ [_ ->]]. reflexivity.
    - intros c Hc. apply upper_inv in Hc as [_ [_ ->]]. reflexivity.
    - intros c Hc. apply space_inv in Hc as [_ [_ ->]]. reflexivity.
    - intros c Hc. apply space_inv in Hc as [_ [_ ->]]. reflexivity.
    - intros c Hc. apply digit_inv in Hc as [_ [_ ->]]. reflexivity. }
  (* nothing is trimmed *)
  assert (Htrim : trimChars
                    (chars ds ++ chars sp1 ++ chars w ++ chars sp2 ++ chars ago)
                  = chars ds ++ chars sp1 ++ chars w ++ chars sp2 ++ chars ago).
  { rewrite ED, EA.
    replace ((d :: D) ++ chars sp1 ++ chars w ++ chars sp2 ++ [a1; a2; a3])
      with (d :: (D ++ chars sp1 ++ chars w ++ chars sp2 ++ [a1; a2]) ++ [a3])
      by (simpl; rewrite <- !app_assoc; reflexivity).
    apply trimChars_fixed.
    - simpl in HD. apply andb_true_iff in HD as [Hd _].
      now apply digit_inv in Hd as [-> _].
    - rewrite EA in HAup. simpl in HAup.
      apply andb_true_iff in HAup as [_ HAup].
      apply andb_true_iff in HAup as [_ HAup].
      apply andb_true_iff in HAup as [Ha3 _].
      now apply upper_inv in Ha3 as [-> _]. }
  (* the upper-case text *)
  assert (Hclean : chars (clean (ds ++ sp1 ++ w ++ sp2 ++ ago)%string)
                   = chars ds ++ chars sp1 ++ W ++ chars sp2 ++ chars "AGO").
  { unfold clean, toUpperCase, trim, removeCommas.
    rewrite !chars_str, Eraw, (filter_all _ _ Hnc), Htrim, !map_app.
    rewrite HW, Hago.
    rewrite (upper_digits (chars ds)) by (rewrite ED; exact HD).
    rewrite (upper_spaces (chars sp1)) by (rewrite E1; exact H1).
    rewrite (upper_spaces (chars sp2)) by (rewrite E2; exact H2).
    reflexivity. }
  unfold relativeMatch. rewrite Hclean.
  assert (Hc1 : isDigit c1 = false).
  { simpl in H1. apply andb_true_iff in H1 as [Hc _].
    now apply space_inv in Hc as [-> _]. }
  rewrite takeWhile_app, dropWhile_app;
    try (rewrite ED; exact HD); try (rewrite E1; simpl; rewrite Hc1; discriminate).
  rewrite ED at 1.
  assert (Hsp : spaces (chars sp1 ++ W ++ chars sp2 ++ chars "AGO")
                = Some (W ++ chars sp2 ++ chars "AGO")).
  { unfold spaces. rewrite E1 at 1. cbn [app].
    pose proof H1 as H1'. simpl in H1'. apply andb_true_iff in H1' as [-> _].
    rewrite dropWhile_app; [reflexivity|now rewrite E1|].
    destruct HWhd as [x [W' [-> Hx]]]. simpl. rewrite Hx. discriminate. }
  rewrite Hsp.
  assert (Hu : unitTail units (W ++ chars sp2 ++ chars "AGO") = Some u).
  { unfold W. destruct plural.
    - rewrite chars_app, <- app_assoc.
      apply unitTail_unit. change (chars "S" ++ chars sp2 ++ chars "AGO")
        with ("S"%char :: chars sp2 ++ chars "AGO").
      apply pluralTail_plural; [rewrite E2; discriminate|now rewrite E2].
    - apply unitTail_unit.
      apply pluralTail_blank; [rewrite E2; discriminate|now rewrite E2]. }
  rewrite Hu. unfold parseInt. now rewrite ED.
Qed.

Lemma plain_inv (c : ascii) :
  plainChar c = true ->
  isSpace c = false /\ Ascii.eqb c "," = false /\ isSpace (upperChar c) = false.
Proof.
  destruct c as [[] [] [] [] [] [] [] []]; vm_compute; intros H;
    (discriminate H || (repeat split; reflexivity)).
Qed.

Lemma isToken_chars (s : string) :
  isToken s = true ->
  exists c l, chars s = c :: l /\ forallb plainChar (c :: l) = true.
Proof.
  unfold isToken. destruct (chars s) as [|c l]; [discriminate|].
  intros H. now exists c, l.
Qed.

Lemma isDay_chars (s : string) :
  isDay s = true ->
  exists c l, chars s = c :: l /\ forallb isDigit (c :: l) = true.
Proof.
  unfold isDay, allDigits. destruct (chars s) as [|c l]; [intros H; discriminate H|].
  intros H. apply andb_true_iff in H as [H _].
  apply andb_true_iff in H as [H _]. now exists c, l.
Qed.

Lemma forallb_last (p : ascii -> bool) (c : ascii) (l : list ascii) :
  forallb p (c :: l) = true ->
  exists m z, c :: l = m ++ [z] /\ p z = true.
Proof.
  intros H. destruct (exists_last (l := c :: l)) as [m [z E]]; [discriminate|].
  exists m, z. split; [exact E|]. rewrite E in H. rewrite forallb_app in H.
  apply andb_true_iff in H as [_ H]. simpl in H. now rewrite andb_true_r in H.
Qed.

(** Text that starts and ends outside white space and has no comma is only
    put in upper case. *)
Lemma clean_chars (r : string) (a z : ascii) (m : list ascii) :
  chars r = a :: m ++ [z] ->
  forallb (fun c => negb (Ascii.eqb c ",")) (chars r) = true ->
  isSpace a = false -> isSpace z = false ->
  chars (clean r) = map upperChar (chars r).
Proof.
  intros E Hnc Ha Hz. unfold clean, toUpperCase, trim, removeCommas.
  rewrite !chars_str, (filter_all _ _ Hnc), E.
  now rewrite (trimChars_fixed a z m Ha Hz).
Qed.

Lemma literal_suffix (q : ascii -> bool) (p : list ascii) :
  forall l r, literal p l = Some r -> forallb q l = true -> forallb q r = true.
Proof.
  induction p as [|pc p IH]; intros l r H Hq; simpl in H.
  - now injection H as <-.
  - destruct l as [|c l]; [discriminate|]. destruct (ci c pc); [|discriminate].
    simpl in Hq. apply andb_true_iff in Hq as [_ Hq]. now apply (IH l r).
Qed.

Lemma agoTail_no_space (l : list ascii) :
  forallb (fun c => negb (isSpace c)) l = true -> agoTail l = false.
Proof.
  unfold agoTail, spaces. destruct l as [|c l]; [reflexivity|]. simpl.
  intros H. apply andb_true_iff in H as [Hc _].
  apply negb_true_iff in Hc. now rewrite Hc.
Qed.

Lemma pluralTail_no_space (l : list ascii) :
  forallb (fun c => negb (isSpace c)) l = true -> pluralTail l = false.
Proof.
  intros H. unfold pluralTail. destruct l as [|c l].
  - now apply agoTail_no_space.
  - rewrite (agoTail_no_space (c :: l) H). simpl in H.
    apply andb_true_iff in H as [_ H]. rewrite (agoTail_no_space l H).
    now rewrite andb_false_r.
Qed.

Lemma unitTail_no_space (us : list Unit) (l : list ascii) :
  forallb (fun c => negb (isSpace c)) l = true -> unitTail us l = None.
Proof.
  intros H. induction us as [|u us IH]; simpl; [reflexivity|].
  destruct (literal (chars (unitName u)) l) as [r|] eqn:E; [|exact IH].
  rewrite (pluralTail_no_space r); [exact IH|].
  exact (literal_suffix _ _ _ _ E H).
Qed.

Lemma splitSpaces_token (tok : list ascii) :
  forallb (fun c => negb (isSpace c)) tok = true ->
  forall cur rest,
    splitSpaces false cur (tok ++ rest) = splitSpaces false (rev tok ++ cur) rest.
Proof.
  induction tok as [|c tok IH]; intros H cur rest; [reflexivity|].
  simpl in H. apply andb_true_iff in H as [Hc H]. apply negb_true_iff in Hc.
  cbn [app splitSpaces]. rewrite Hc, (IH H). simpl. now rewrite <- app_assoc.
Qed.

Lemma splitSpaces_blank (sp : list ascii) :
  forallb isSpace sp = true ->
  forall rest, splitSpaces true [] (sp ++ rest) = splitSpaces true [] rest.
Proof.
  induction sp as [|c sp IH]; intros H rest; [reflexivity|].
  simpl in H. apply andb_true_iff in H as [Hc H].
  cbn [app splitSpaces]. rewrite Hc. now apply IH.
Qed.

(** A token, white space, and more text: the token is the first part. *)
Lemma splitSpaces_first (tok sp rest : list ascii) :
  forallb (fun c => negb (isSpace c)) tok = true ->
  sp <> [] -> forallb isSpace sp = true ->
  splitSpaces false [] (tok ++ sp ++ rest)
  = str tok :: splitSpaces true [] rest.
Proof.
  intros Htok Hne Hsp. rewrite (splitSpaces_token tok Htok).
  destruct sp as [|c sp]; [contradiction|].
  simpl in Hsp. apply andb_true_iff in Hsp as [Hc Hsp].
  cbn [app splitSpaces]. rewrite Hc, app_nil_r, rev_involutive.
  now rewrite (splitSpaces_blank sp Hsp).
Qed.

Lemma splitSpaces_last (b : bool) (c : ascii) (tok : list ascii) :
  forallb (fun c => negb (isSpace c)) (c :: tok) = true ->
  splitSpaces b [] (c :: tok) = [str (c :: tok)].
Proof.
  intros H. pose proof H as H'. simpl in H'.
  apply andb_true_iff in H' as [Hc Htok]. apply negb_true_iff in Hc.
  assert (E : splitSpaces b [] (c :: tok) = splitSpaces false [] (c :: tok)).
  { destruct b; cbn [splitSpaces]; now rewrite Hc. }
  rewrite E. rewrite <- (app_nil_r (c :: tok)) at 1.
  rewrite (splitSpaces_token (c :: tok) H). cbn [splitSpaces].
  now rewrite app_nil_r, rev_involutive.
Qed.

Lemma lookup_In (k : string) (tbl : list (string * Z)) (v : Z) :
  lookup k tbl = Some v -> In (k, v) tbl.
Proof.
  induction tbl as [|[k' v'] tbl IH]; simpl; [discriminate|].
  destruct (String.eqb k k') eqn:E.
  - apply String.eqb_eq in E. intros [= <-]. left. now rewrite E.
  - intros H. right. now apply IH.
Qed.

(** A token a month is found in starts with a letter, and the month is
    between 0 and 11. *)
Lemma monthOf_inv (p : string) (m : Z) :
  monthOf p = Some m ->
  (0 <= m <= 11)%Z
  /\ exists x l, chars p = x :: l /\ isDigit x = false.
Proof.
  unfold monthOf. intros H. apply lookup_In in H. unfold slice0 in H.
  set (k := str (firstn 3 (chars p))) in *.
  assert (Hk : firstn 3 (chars p) = chars k) by (subst k; now rewrite chars_str).
  clearbody k. unfold months in H. cbn [In] in H.
  repeat (destruct H as [H|H];
    [injection H as Hkey Hm; rewrite <- Hkey in Hk; subst m; split; [lia|];
     destruct (chars p) as [|x l]; [discriminate Hk|];
     exists x, l; split; [reflexivity|];
     cbn in Hk; injection Hk as -> _; reflexivity|]).
  contradiction.
Qed.

Lemma no_comma_digits (l : list ascii) :
  forallb isDigit l = true ->
  forallb (fun c => negb (Ascii.eqb c ",")) l = true.
Proof.
  apply forallb_imp. intros c Hc. now apply digit_inv in Hc as [_ [_ ->]].
Qed.

Lemma no_comma_spaces (l : list ascii) :
  forallb isSpace l = true ->
  forallb (fun c => negb (Ascii.eqb c ",")) l = true.
Proof.
  apply forallb_imp. intros c Hc. now apply space_inv in Hc as [_ [_ ->]].
Qed.

Lemma no_comma_plain (l : list ascii) :
  forallb plainChar l = true ->
  forallb (fun c => negb (Ascii.eqb c ",")) l = true.
Proof.
  apply forallb_imp. intros c Hc. now apply plain_inv in Hc as [_ [-> _]].
Qed.

Lemma no_space_digits (l : list ascii) :
  forallb isDigit l = true ->
  forallb (fun c => negb (isSpace c)) l = true.
Proof.
  apply forallb_imp. intros c Hc. now apply digit_inv in Hc as [-> _].
Qed.

Lemma no_space_upper_plain (l : list ascii) :
  forallb plainChar l = true ->
  forallb (fun c => negb (isSpace c)) (map upperChar l) = true.
Proof.
  induction l as [|c l IH]; simpl; [reflexivity|].
  intros H. apply andb_true_iff in H as [Hc H].
  apply plain_inv in Hc as [_ [_ ->]]. now rewrite IH.
Qed.

(** A day, white space and a month token: the relative pattern does not
    match, and the first token pattern finds the day and the month and no
    year. *)
Lemma day_month_input (ds sp w : string) (m : Z) :
  isDay ds = true -> isBlank sp = true -> isToken w = true ->
  monthOf (toUpperCase w) = Some m ->
  (ds ++ sp ++ w)%string <> ""
  /\ relativeMatch (clean (ds ++ sp ++ w)%string) = None
  /\ fields (split (clean (ds ++ sp ++ w)%string))
     = {| day := Some (parseInt ds); month := Some m; year := None |}.
Proof.
  intros Hds Hsp Hw Hm.
  destruct (isDay_chars ds Hds) as [d [D [ED HD]]].
  destruct (isBlank_chars sp Hsp) as [c [S [ES HS]]].
  destruct (isToken_chars w Hw) as [x [W [EW HW]]].
  destruct (forallb_last plainChar x W HW) as [M [z [EM Hz]]].
  assert (Eraw : chars (ds ++ sp ++ w)%string = chars ds ++ chars sp ++ chars w)
    by now rewrite !chars_app.
  assert (Hclean : chars (clean (ds ++ sp ++ w)%string)
                   = chars ds ++ chars sp ++ map upperChar (chars w)).
  { rewrite (clean_chars _ d z (D ++ chars sp ++ M)).
    - rewrite Eraw, !map_app.
      rewrite (upper_digits (chars ds)) by (rewrite ED; exact HD).
      now rewrite (upper_spaces (chars sp)) by (rewrite ES; exact HS).
    - rewrite Eraw, ED, EW, EM. simpl. now rewrite <- !app_assoc.
    - rewrite Eraw, !forallb_app.
      rewrite (no_comma_digits (chars ds)) by (rewrite ED; exact HD).
      rewrite (no_comma_spaces (chars sp)) by (rewrite ES; exact HS).
      now rewrite (no_comma_plain (chars w)) by (rewrite EW; exact HW).
    - simpl in HD. apply andb_true_iff in HD as [Hd _].
      now apply digit_inv in Hd as [-> _].
    - now apply plain_inv in Hz as [-> _]. }
  assert (HWu : forallb (fun c => negb (isSpace c)) (map upperChar (chars w))
                = true).
  { apply no_space_upper_plain. now rewrite EW. }
  assert (Hhd : hd_error (map isSpace (map upperChar (chars w))) <> Some true).
  { rewrite EW in *. simpl in *. apply andb_true_iff in HWu as [Hx _].
    apply negb_true_iff in Hx. rewrite Hx. discriminate. }
  assert (Hc : isDigit c = false).
  { simpl in HS. apply andb_true_iff in HS as [Hc _].
    now apply space_inv in Hc as [-> _]. }
  split; [|split].
  - unfold chars in ED. destruct ds; discriminate.
  - unfold relativeMatch. rewrite Hclean.
    rewrite takeWhile_app, dropWhile_app;
      try (rewrite ED; exact HD);
      try (rewrite ES; simpl; rewrite Hc; discriminate).
    rewrite ED at 1.
    assert (Hspaces : spaces (chars sp ++ map upperChar (chars w))
                      = Some (map upperChar (chars w))).
    { unfold spaces. rewrite ES at 1. cbn [app].
      pose proof HS as HS'. simpl in HS'. apply andb_true_iff in HS' as [-> _].
      rewrite dropWhile_app; [reflexivity|now rewrite ES|exact Hhd]. }
    rewrite Hspaces. now rewrite (unitTail_no_space units _ HWu).
  - unfold split. rewrite Hclean.
    rewrite splitSpaces_first;
      [|apply no_space_digits; rewrite ED; exact HD
       |rewrite ES; discriminate|rewrite ES; exact HS].
    destruct (map upperChar (chars w)) as [|ux Wu] eqn:EWu;
      [rewrite EW in EWu; discriminate|].
    rewrite (splitSpaces_last true ux Wu HWu).
    assert (Eup : str (ux :: Wu) = toUpperCase w).
    { unfold toUpperCase. now rewrite EWu. }
    rewrite str_chars, Eup. unfold fields. rewrite Hds. cbn [yearOf].
    now rewrite Hm.
Qed.

(** A month token, white space and a day: the second token pattern. *)
Lemma month_day_input (w sp ds : string) (m : Z) :
  isDay ds = true -> isBlank sp = true -> isToken w = true ->
  monthOf (toUpperCase w) = Some m ->
  (w ++ sp ++ ds)%string <> ""
  /\ relativeMatch (clean (w ++ sp ++ ds)%string) = None
  /\ fields (split (clean (w ++ sp ++ ds)%string))
     = {| day := Some (parseInt ds); month := Some m; year := None |}.
Proof.
  intros Hds Hsp Hw Hm.
  destruct (isDay_chars ds Hds) as [d [D [ED HD]]].
  destruct (isBlank_chars sp Hsp) as [c [S [ES HS]]].
  destruct (isToken_chars w Hw) as [x [W [EW HW]]].
  destruct (forallb_last isDigit d D HD) as [M [z [EM Hz]]].
  destruct (monthOf_inv _ _ Hm) as [_ [ux [Wu [EWu Hux]]]].
  assert (EWu' : map upperChar (chars w) = ux :: Wu).
  { rewrite <- EWu. unfold toUpperCase. now rewrite chars_str. }
  assert (Eraw : chars (w ++ sp ++ ds)%string = chars w ++ chars sp ++ chars ds)
    by now rewrite !chars_app.
  assert (Hclean : chars (clean (w ++ sp ++ ds)%string)
                   = (ux :: Wu) ++ chars sp ++ chars ds).
  { rewrite (clean_chars _ x z (W ++ chars sp ++ M)).
    - rewrite Eraw, !map_app, EWu'.
      rewrite (upper_digits (chars ds)) by (rewrite ED; exact HD).
      now rewrite (upper_spaces (chars sp)) by (rewrite ES; exact HS).
    - rewrite Eraw, ED, EW, EM. simpl. now rewrite <- !app_assoc.
    - rewrite Eraw, !forallb_app.
      rewrite (no_comma_digits (chars ds)) by (rewrite ED; exact HD).
      rewrite (no_comma_spaces (chars sp)) by (rewrite ES; exact HS).
      now rewrite (no_comma_plain (chars w)) by (rewrite EW; exact HW).
    - simpl in HW. apply andb_true_iff in HW as [Hx _].
      now apply plain_inv in Hx as [-> _].
    - now apply digit_inv in Hz as [-> _]. }
  assert (HWu : forallb (fun c => negb (isSpace c)) (ux :: Wu) = true).
  { rewrite <- EWu'. apply no_space_upper_plain. now rewrite EW. }
  split; [|split].
  - unfold chars in EW. destruct w; discriminate.
  - unfold relativeMatch. rewrite Hclean. cbn [app takeWhile].
    now rewrite Hux.
  - unfold split. rewrite Hclean.
    rewrite splitSpaces_first;
      [|exact HWu|rewrite ES; discriminate|rewrite ES; exact HS].
    rewrite ED.
    rewrite (splitSpaces_last true d D (no_space_digits _ HD)).
    rewrite <- ED, str_chars.
    assert (Eup : str (ux :: Wu) = toUpperCase w).
    { unfold toUpperCase. now rewrite EWu'. }
    rewrite Eup. unfold fields.
    assert (Hnd : isDay (toUpperCase w) = false).
    { unfold isDay, allDigits. rewrite EWu. simpl. now rewrite Hux. }
    rewrite Hnd, Hds. cbn [yearOf]. now rewrite Hm.
Qed.

Example split_examples :
  split "14 NOV 2024" = ["14"; "NOV"; "2024"]
  /\ split "NOV  14" = ["NOV"; "14"]
  /\ split "" = [""]
  /\ split " A " = [""; "A"; ""].
Proof. repeat split; vm_compute; reflexivity. Qed.

Example relativeMatch_examples :
  relativeMatch "2 DAYS AGO" = Some (2%Z, DAY)
  /\ relativeMatch "1 day ago" = Some (1%Z, DAY)
  /\ relativeMatch "10  MONTHS   AGO" = Some (10%Z, MONTH)
  /\ relativeMatch "3 WEEKS  AGO" = Some (3%Z, WEEK)
  /\ relativeMatch "2 DAYSS AGO" = None
  /\ relativeMatch "2 DAYS AGO " = None
  /\ relativeMatch "DAYS AGO" = None.
Proof. repeat split; vm_compute; reflexivity. Qed.

Example clean_example : clean "  Nov 14, 2024 " = "NOV 14 2024".
Proof. vm_compute. reflexivity. Qed.

End RelativeInputs.

Section NormalizerClaims.

Import Text JSDate Normalizer.
Local Open Scope Z_scope.

Ltac absolute_input f :=
  rewrite (normalizeDate_absolute _ _ _ _ f)
    by (discriminate || (vm_compute; reflexivity)).

(** C4 as stated fails: on a host at UTC+05:30 the ISO date of
    ["14 NOV 2024"] is the day before, so the result depends on the zone. *)
Lemma nov14_depends_on_zone :
  normalizeDate 330 1704844800000 (fun _ => None) (VString "14 NOV 2024")
  = Returns {| full := VString "14 November 2024"; iso := Some "2024-11-13" |}
  /\ ~ zoneFree (VString "14 NOV 2024").
Proof.
  split; [vm_compute; reflexivity|].
  intros H. specialize (H 1704844800000 (fun _ => None) 0 330).
  vm_compute in H. discriminate.
Qed.

(** C4, amended.  On a host whose zone is UTC or west of it,
    [normalizeDate "14 NOV 2024"] is [{ full: "14 November 2024",
    iso: "2024-11-14" }] at every moment; [iso] is the UTC date of local
    midnight of the resolved day. *)
Theorem nov14_at_or_west_of_utc (tz now : Z) (dateParse : string -> option Z) :
  -1440 < tz <= 0 ->
  normalizeDate tz now dateParse (VString "14 NOV 2024")
  = Returns {| full := VString "14 November 2024"; iso := Some "2024-11-14" |}.
Proof.
  intros Htz.
  absolute_input {| day := Some 14; month := Some 10; year := Some 2024 |}.
  unfold resolve. cbn [month day year noYear]. cbn [Z.eqb andb].
  rewrite newDate_midnight by reflexivity.
  change (MakeDay 2024 10 14) with 20041.
  rewrite finishAbsolute_midnight.
  - replace (0 <? tz) with false by (symmetry; apply Z.ltb_ge; lia).
    reflexivity.
  - unfold zoneOffset. lia.
  - lia.
  - destruct (0 <? tz); reflexivity.
Qed.

Lemma nov14_at_or_west_of_utc_witness :
  normalizeDate (-300) 1704844800000 (fun _ => None) (VString "14 NOV 2024")
  = Returns {| full := VString "14 November 2024"; iso := Some "2024-11-14" |}.
Proof.
  apply (nov14_at_or_west_of_utc (-300) 1704844800000 (fun _ => None)). lia.
Defined.

(** C5.  A day and a month token without a year, in either order, resolve to
    that day of the current year, or of the year before when that date is
    strictly after the current moment; from 1970 on, for a day of the month
    up to 31, the resolved date is never after the current moment.  With the
    current moment on 10 January 2024 on the host, ["15 DEC"] resolves to
    15 December 2023, whose ISO date is 2023-12-15 at or west of UTC. *)
Theorem yearless_date_inference (tz now : Z) (dateParse : string -> option Z) :
  (forall ds sp w m,
     isDay ds = true -> isBlank sp = true -> isToken w = true ->
     monthOf (toUpperCase w) = Some m ->
     let thisYear := getFullYear tz now in
     let d := parseInt ds in
     let resolved :=
       if isAfter now (newDate tz thisYear m d)
       then newDate tz (thisYear - 1) m d
       else newDate tz thisYear m d in
     normalizeDate tz now dateParse (VString (ds ++ sp ++ w)%string)
     = finishAbsolute tz (VString (ds ++ sp ++ w)%string) (Some resolved)
     /\ normalizeDate tz now dateParse (VString (w ++ sp ++ ds)%string)
        = finishAbsolute tz (VString (w ++ sp ++ ds)%string) (Some resolved))
  /\ (zoneOffset tz -> 0 <= now ->
      forall m d t, 0 <= m <= 11 -> d <= 31 ->
        inferYear tz now m d = Some t -> t <= now)
  /\ (zoneOffset tz -> Day (LocalTime tz now) = 19732 ->
      normalizeDate tz now dateParse (VString "15 DEC")
      = Returns {| full := VString "15 December 2023";
                   iso := Some (if 0 <? tz then "2023-12-14"
                                else "2023-12-15") |}).
Proof.
  split; [|split].
  - intros ds sp w m Hds Hsp Hw Hm. cbv zeta. split.
    + destruct (day_month_input ds sp w m Hds Hsp Hw Hm) as [Hne [Hrel Hf]].
      rewrite (yearless_resolve tz now dateParse _ m (parseInt ds) Hne Hrel Hf).
      unfold inferYear. reflexivity.
    + destruct (month_day_input w sp ds m Hds Hsp Hw Hm) as [Hne [Hrel Hf]].
      rewrite (yearless_resolve tz now dateParse _ m (parseInt ds) Hne Hrel Hf).
      unfold inferYear. reflexivity.
  - intros Htz Hnow m d t Hm Hd. now apply inferYear_not_after.
  - intros Htz Hloc. pose proof Htz as Htz'. unfold zoneOffset in Htz'.
    rewrite (yearless_resolve tz now dateParse "15 DEC" 11 15)
      by (discriminate || (vm_compute; reflexivity)).
    assert (Hl : 19732 * msPerDay <= LocalTime tz now < 19733 * msPerDay).
    { unfold Day, msPerDay in *. Z.div_mod_to_equations. lia. }
    unfold inferYear, getFullYear, YearFromTime. rewrite Hloc.
    change (YearFromDay 19732) with 2024. change (2024 - 1) with 2023.
    rewrite !newDate_midnight by reflexivity.
    change (MakeDay 2024 11 15) with 20072.
    change (MakeDay 2023 11 15) with 19706.
    assert (Hafter : isAfter now (TimeClip (20072 * msPerDay - tz * msPerMinute))
                     = true).
    { unfold TimeClip.
      replace (Z.abs (20072 * msPerDay - tz * msPerMinute) <=? 8640000000000000)
        with true
        by (symmetry; apply Z.leb_le; unfold msPerDay, msPerMinute; lia).
      unfold isAfter. apply Z.ltb_lt.
      unfold LocalTime, msPerDay, msPerMinute in *. fixed_offset. lia. }
    rewrite Hafter.
    rewrite finishAbsolute_midnight;
      [|exact Htz|lia|destruct (0 <? tz); vm_compute; reflexivity].
    destruct (0 <? tz); vm_compute; reflexivity.
Qed.

Lemma yearless_date_inference_witness :
  normalizeDate 0 1704844800000 (fun _ => None)
    (VString ("Dec" ++ " " ++ "15")%string)
  = finishAbsolute 0 (VString ("Dec" ++ " " ++ "15")%string)
      (Some (if isAfter 1704844800000
                  (newDate 0 (getFullYear 0 1704844800000) 11 (parseInt "15"))
             then newDate 0 (getFullYear 0 1704844800000 - 1) 11 (parseInt "15")
             else newDate 0 (getFullYear 0 1704844800000) 11 (parseInt "15")))
  /\ normalizeDate 0 1704844800000 (fun _ => None) (VString "15 DEC")
     = Returns {| full := VString "15 December 2023";
                  iso := Some "2023-12-15" |}.
Proof.
  split.
  - exact (proj2 (proj1 (yearless_date_inference 0 1704844800000 (fun _ => None))
             "15" " " "Dec" 11
             ltac:(vm_compute; reflexivity) ltac:(vm_compute; reflexivity)
             ltac:(vm_compute; reflexivity) ltac:(vm_compute; reflexivity))).
  - apply (proj2 (proj2 (yearless_date_inference 0 1704844800000 (fun _ => None))));
      [unfold zoneOffset; lia|vm_compute; reflexivity].
Defined.

(** C6 as stated fails: "the current moment at 2024-01-10" does not fix the
    answer.  Half an hour after midnight of 10 January on a host at
    UTC+05:30 the ISO date of ["2 DAYS AGO"] is 2024-01-07, and at 03:00 UTC
    of 10 January on a host at UTC-05:00 the long form is 7 January. *)
Lemma two_days_ago_depends_on_zone :
  ~ (forall (tz now : Z) (dateParse : string -> option Z),
       zoneOffset tz -> Day (LocalTime tz now) = 19732 ->
       normalizeDate tz now dateParse (VString "2 DAYS AGO")
       = Returns {| full := VString "8 January 2024";
                    iso := Some "2024-01-08" |})
  /\ ~ (forall (tz now : Z) (dateParse : string -> option Z),
          zoneOffset tz -> Day now = 19732 ->
          normalizeDate tz now dateParse (VString "2 DAYS AGO")
          = Returns {| full := VString "8 January 2024";
                       iso := Some "2024-01-08" |})
  /\ normalizeDate 330 1704826800000 (fun _ => None) (VString "2 DAYS AGO")
     = Returns {| full := VString "8 January 2024"; iso := Some "2024-01-07" |}
  /\ normalizeDate (-300) 1704855600000 (fun _ => None) (VString "2 DAYS AGO")
     = Returns {| full := VString "7 January 2024"; iso := Some "2024-01-08" |}.
Proof.
  split; [|split; [|split]].
  - intros H.
    specialize (H 330 1704826800000 (fun _ => None)
                  ltac:(unfold zoneOffset; lia) eq_refl).
    vm_compute in H. discriminate.
  - intros H.
    specialize (H (-300) 1704855600000 (fun _ => None)
                  ltac:(unfold zoneOffset; lia) eq_refl).
    vm_compute in H. discriminate.
  - vm_compute. reflexivity.
  - vm_compute. reflexivity.
Qed.

(** C6, amended.  On every host, with or without daylight saving, a relative
    input (a number, a unit name in any case with or without its plural [s],
    and [ago], separated by ASCII white space) is resolved by lowering the unit's
    field of the local time of the current moment by the number and reading
    the local time so obtained back as an instant: for second, minute, hour,
    day and week the local time goes back by the number of units, a week
    being seven days on the day field, as a subtraction on the calendar and
    not of a fixed length of time (one day before noon of 10 March 2024 in
    New York is 23 hours earlier); the instant goes back by that length when
    the host reads the local time with the offset now in force.  For month
    and year the month or year field is lowered and the day of the month is
    counted from the first day of the month so named.  With the current
    moment on 10 January 2024 both in UTC and on the host, and the offset of
    the host the same two days earlier, ["2 DAYS AGO"] gives
    [{ full: "8 January 2024", iso: "2024-01-08" }]. *)
Theorem relative_subtracts (zone : Zone) (now : Z)
    (dateParse : string -> option Z) :
  (forall ds sp1 w sp2 ago u,
     isNumber ds = true -> isBlank sp1 = true -> isBlank sp2 = true ->
     namesUnit w u -> toUpperCase ago = "AGO" ->
     normalizeDate zone now dateParse
       (VString (ds ++ sp1 ++ w ++ sp2 ++ ago)%string)
     = finishRelative zone (subtract zone now u (parseInt ds)))
  /\ (forall u ms n, fixedMillis u = Some ms ->
        subtract zone now u n
        = TimeClip (UTC zone (LocalTime zone now - n * ms)))
  /\ (forall n, subtract zone now WEEK n = subtract zone now DAY (n * 7))
  /\ (forall n,
        let l := LocalTime zone now in
        let m := MonthFromTime l - n in
        let y := YearFromTime l + m / 12 in
        subtract zone now MONTH n
        = TimeClip (UTC zone (MakeDate
            (DayFromYear y + monthStart (isLeap y) (m mod 12)
             + DateFromTime l - 1)
            (TimeWithinDay l))))
  /\ (forall n,
        let l := LocalTime zone now in
        let y := YearFromTime l - n in
        subtract zone now YEAR n
        = TimeClip (UTC zone (MakeDate
            (DayFromYear y + monthStart (isLeap y) (MonthFromTime l)
             + DateFromTime l - 1)
            (TimeWithinDay l))))
  /\ (forall u ms n, fixedMillis u = Some ms ->
        offsetOfLocal zone (LocalTime zone now - n * ms) = offsetAt zone now ->
        subtract zone now u n = TimeClip (now - n * ms))
  /\ subtract (transition 1710054000000 (-18000000) (-14400000))
       1710086400000 DAY 1
     = Some (1710086400000 - 23 * msPerHour)
  /\ (Day now = 19732 -> Day (LocalTime zone now) = 19732 ->
      offsetOfLocal zone (LocalTime zone now - 2 * msPerDay)
      = offsetAt zone now ->
      offsetAt zone (now - 2 * msPerDay) = offsetAt zone now ->
      normalizeDate zone now dateParse (VString "2 DAYS AGO")
      = Returns {| full := VString "8 January 2024";
                   iso := Some "2024-01-08" |})
  /\ (Day now = 19813 -> Day (LocalTime zone now) = 19813 ->
      offsetOfLocal zone (LocalTime zone now - 29 * msPerDay)
      = offsetAt zone now ->
      offsetAt zone (now - 29 * msPerDay) = offsetAt zone now ->
      normalizeDate zone now dateParse (VString "1 month ago")
      = Returns {| full := VString "2 March 2024";
                   iso := Some "2024-03-02" |}).
Proof.
  assert (Hback : forall u ms n, fixedMillis u = Some ms ->
            offsetOfLocal zone (LocalTime zone now - n * ms)
            = offsetAt zone now ->
            subtract zone now u n = TimeClip (now - n * ms)).
  { intros u ms n Hu Hoff. rewrite (subtract_wall zone now u ms n Hu).
    unfold UTC. rewrite Hoff. unfold LocalTime. f_equal. lia. }
  split; [|split; [|split; [|split; [|split; [|split; [|split; [|split]]]]]]].
  - intros ds sp1 w sp2 ago u Hds Hsp1 Hsp2 Hw Hago.
    apply relative_outcome.
    + unfold isNumber, chars in Hds. destruct ds; [discriminate|]. discriminate.
    + now apply relativeMatch_input.
  - intros u ms n. apply subtract_wall.
  - intros n. unfold subtract. reflexivity.
  - intros n. reflexivity.
  - intros n. cbv zeta. unfold subtract, setFullYear, getFullYear, MakeDay.
    pose proof (MonthFromDay_range (Day (LocalTime zone now))) as Hm.
    unfold MonthFromTime.
    rewrite Z.div_small, Z.mod_small by lia. now rewrite Z.add_0_r.
  - exact Hback.
  - vm_compute. reflexivity.
  - intros Hutc Hloc Hoff Hthen.
    rewrite (relative_outcome zone now dateParse "2 DAYS AGO" 2 DAY)
      by (discriminate || (vm_compute; reflexivity)).
    rewrite (Hback DAY msPerDay 2 eq_refl Hoff).
    assert (Hnow : 19732 * msPerDay <= now < 19733 * msPerDay).
    { unfold Day, msPerDay in *. Z.div_mod_to_equations. lia. }
    unfold TimeClip.
    replace (Z.abs (now - 2 * msPerDay) <=? 8640000000000000) with true
      by (symmetry; apply Z.leb_le; unfold msPerDay in *; lia).
    unfold finishRelative, toLocaleDateString, longDate.
    replace (LocalTime zone (now - 2 * msPerDay))
      with (LocalTime zone now - 2 * msPerDay)
      by (unfold LocalTime; rewrite Hthen; lia).
    rewrite Day_shift, Hloc.
    rewrite (isoDate_slice _ 19730);
      [vm_compute; reflexivity|now rewrite Day_shift, Hutc
      |vm_compute; reflexivity].
  - intros Hutc Hloc Hoff Hthen.
    rewrite (relative_outcome zone now dateParse "1 month ago" 1 MONTH)
      by (discriminate || (vm_compute; reflexivity)).
    unfold subtract, setMonth, getMonth, YearFromTime, MonthFromTime,
      DateFromTime. rewrite Hloc.
    change (MakeDay (YearFromDay 19813) (MonthFromDay 19813 - 1)
              (DateFromDay 19813)) with 19784.
    assert (Hnow : 19813 * msPerDay <= now < 19814 * msPerDay).
    { unfold Day, msPerDay in *. Z.div_mod_to_equations. lia. }
    assert (Hl : MakeDate 19784 (TimeWithinDay (LocalTime zone now))
                 = LocalTime zone now - 29 * msPerDay).
    { pose proof (MakeDate_Day (LocalTime zone now)) as Hd.
      rewrite Hloc in Hd. unfold MakeDate in *. lia. }
    rewrite Hl.
    assert (Ht : UTC zone (LocalTime zone now - 29 * msPerDay)
                 = now - 29 * msPerDay).
    { unfold UTC. rewrite Hoff. unfold LocalTime. lia. }
    rewrite Ht. unfold TimeClip.
    replace (Z.abs (now - 29 * msPerDay) <=? 8640000000000000) with true
      by (symmetry; apply Z.leb_le; unfold msPerDay in *; lia).
    unfold finishRelative, toLocaleDateString, longDate.
    replace (LocalTime zone (now - 29 * msPerDay))
      with (LocalTime zone now - 29 * msPerDay)
      by (unfold LocalTime; rewrite Hthen; lia).
    rewrite Day_shift, Hloc.
    rewrite (isoDate_slice _ 19784);
      [vm_compute; reflexivity|now rewrite Day_shift, Hutc
      |vm_compute; reflexivity].
Qed.

Lemma relative_subtracts_witness :
  normalizeDate 0 1704844800000 (fun _ => None) (VString "3 weeks ago")
  = finishRelative 0 (subtract 0 1704844800000 WEEK 3)
  /\ subtract (transition 1710054000000 (-18000000) (-14400000))
       1710086400000 HOUR 2
     = TimeClip (1710086400000 - 2 * msPerHour)
  /\ normalizeDate 0 1704844800000 (fun _ => None) (VString "2 DAYS AGO")
     = Returns {| full := VString "8 January 2024"; iso := Some "2024-01-08" |}.
Proof.
  split; [|split].
  - apply (proj1 (relative_subtracts 0 1704844800000 (fun _ => None))
             "3" " " "weeks" " " "ago" WEEK);
      try (vm_compute; reflexivity). right. vm_compute. reflexivity.
  - apply (proj1 (proj2 (proj2 (proj2 (proj2 (proj2
             (relative_subtracts
                (transition 1710054000000 (-18000000) (-14400000))
                1710086400000 (fun _ => None)))))))
             HOUR msPerHour 2); vm_compute; reflexivity.
  - apply (proj1 (proj2 (proj2 (proj2 (proj2 (proj2 (proj2 (proj2
             (relative_subtracts 0 1704844800000 (fun _ => None))))))))));
      vm_compute; reflexivity.
Defined.

(** C7.  [normalizeDate] can raise: the relative branch formats its date
    without the validity test the absolute branch makes, so an amount that
    takes the date out of the range of [Date], here 300000 years at any
    moment from 1970 to 2100, ends in the [RangeError] of [toISOString].
    Inputs that are not strings, and strings the relative pattern does not
    match, return; unparsable text returns the input with a null ISO date. *)
Theorem relative_overflow_throws :
  (forall (tz : Z) now dateParse,
     zoneOffset tz -> 0 <= now <= 4102444800000 ->
     normalizeDate tz now dateParse (VString "300000 YEARS AGO")
     = ThrowsRangeError)
  /\ ~ neverThrows
  /\ (forall (tz : Z) now dateParse raw,
        (forall s, raw <> VString s) ->
        normalizeDate tz now dateParse raw = fallback raw)
  /\ (forall (tz : Z) now dateParse r,
        relativeMatch (clean r) = None ->
        exists out, normalizeDate tz now dateParse (VString r) = Returns out)
  /\ (forall (tz : Z) now dateParse,
        dateParse "GARBAGE TEXT" = None ->
        normalizeDate tz now dateParse (VString "garbage text")
        = fallback (VString "garbage text")).
Proof.
  assert (Hthrow : forall (tz : Z) now dateParse,
     zoneOffset tz -> 0 <= now <= 4102444800000 ->
     normalizeDate tz now dateParse (VString "300000 YEARS AGO")
     = ThrowsRangeError).
  { intros tz now dateParse Htz Hnow. unfold zoneOffset in Htz.
    rewrite (normalizeDate_relative _ _ _ "300000 YEARS AGO" 300000 YEAR)
      by (discriminate || (vm_compute; reflexivity)).
    rewrite subtract_year. cbv zeta.
    unfold YearFromTime, MonthFromTime, DateFromTime, DateFromDay,
      dayWithinYear.
    set (l := LocalTime tz now).
    assert (Hl : l = now + tz * 60000) by reflexivity. clearbody l.
    pose proof (YearFromDay_spec (Day l)) as HY.
    pose proof (monthStart_range (leapOfDay (Day l)) (MonthFromDay (Day l))) as H1.
    pose proof (monthStart_range (isLeap (YearFromDay (Day l) - 300000))
                  (MonthFromDay (Day l))) as H2.
    set (ms1 := monthStart (leapOfDay (Day l)) (MonthFromDay (Day l))) in *.
    set (ms2 := monthStart (isLeap (YearFromDay (Day l) - 300000))
                  (MonthFromDay (Day l))) in *.
    clearbody ms1 ms2.
    set (Y := YearFromDay (Day l)) in *. clearbody Y.
    assert (HT : TimeClip (UTC tz (MakeDate
                   (DayFromYear (Y - 300000) + ms2
                    + (Day l - DayFromYear Y - ms1 + 1) - 1)
                   (TimeWithinDay l))) = None).
    { unfold TimeClip.
      destruct (Z.abs _ <=? 8640000000000000) eqn:E; [|reflexivity].
      exfalso. apply Z.leb_le in E. revert E.
      unfold UTC, MakeDate, TimeWithinDay, Day, DayFromYear, msPerDay,
        msPerMinute in *. fixed_offset.
      Z.div_mod_to_equations. lia. }
    rewrite HT. reflexivity. }
  split; [exact Hthrow|split; [|split; [|split]]].
  - intros H.
    apply (H 0 1704844800000 (fun _ => None) (VString "300000 YEARS AGO")).
    apply Hthrow; [unfold zoneOffset|]; lia.
  - intros tz now dateParse raw Hraw.
    destruct raw as [| | | |s]; try reflexivity. now contradiction (Hraw s).
  - intros tz now dateParse r Hr. destruct r as [|c r].
    + eexists. reflexivity.
    + unfold normalizeDate. cbv zeta. rewrite Hr. unfold finishAbsolute.
      destruct (resolve _ _ _ _ _) as [[t|]|]; eexists; reflexivity.
  - intros tz now dateParse Hparse.
    absolute_input {| day := None; month := None; year := None |}.
    unfold resolve. cbn [month].
    change (clean "garbage text") with "GARBAGE TEXT". now rewrite Hparse.
Qed.

Lemma relative_overflow_throws_witness :
  normalizeDate 0 1704844800000 (fun _ => None) (VString "300000 YEARS AGO")
  = ThrowsRangeError.
Proof.
  apply (proj1 relative_overflow_throws 0 1704844800000 (fun _ => None));
    [unfold zoneOffset|]; lia.
Defined.

(** C8.  The month is looked up under the first three characters of its token
    only, so ["November"] and ["Nov"] are both November; the commas are
    removed before the text is split, so ["14,"] is the day 14; a third token
    is a year only when it is exactly four digits, and with any other third
    token the date goes through the inference of the year as if it had
    none. *)
Theorem token_rules :
  (forall p, monthOf p = monthOf (slice0 3 p))
  /\ (forall p q, slice0 3 p = slice0 3 q -> monthOf p = monthOf q)
  /\ monthOf "NOVEMBER" = Some 10 /\ monthOf "NOV" = Some 10
  /\ removeCommas "14," = "14"
  /\ (forall p, isYear p = true
                <-> List.length (chars p) = 4%nat /\ allDigits (chars p) = true)
  /\ (forall p0 p1 p2 rest, isYear p2 = false ->
        fields (p0 :: p1 :: p2 :: rest) = fields [p0; p1])
  /\ (forall (tz : Z) now dateParse, zoneOffset tz ->
        let out := Returns {| full := VString "14 November 2024";
                              iso := Some (if 0 <? tz then "2024-11-13"
                                           else "2024-11-14") |} in
        normalizeDate tz now dateParse (VString "14 November 2024") = out
        /\ normalizeDate tz now dateParse (VString "14 Nov 2024") = out
        /\ normalizeDate tz now dateParse (VString "14, Nov 2024") = out
        /\ normalizeDate tz now dateParse (VString "Nov 14, 2024") = out)
  /\ (forall (tz : Z) now dateParse,
        normalizeDate tz now dateParse (VString "14 NOV 24")
        = finishAbsolute tz (VString "14 NOV 24")
            (Some (inferYear tz now 10 14))
        /\ normalizeDate tz now dateParse (VString "14 NOV")
           = finishAbsolute tz (VString "14 NOV")
               (Some (inferYear tz now 10 14))).
Proof.
  assert (Hslice : forall p, slice0 3 (slice0 3 p) = slice0 3 p).
  { intros p. unfold slice0. rewrite chars_str, firstn_firstn. reflexivity. }
  split; [|split; [|split; [|split; [|split; [|split; [|split; [|split]]]]]]].
  - intros p. unfold monthOf. now rewrite Hslice.
  - intros p q H. unfold monthOf. now rewrite H.
  - reflexivity.
  - reflexivity.
  - reflexivity.
  - intros p. unfold isYear. rewrite andb_true_iff, Nat.eqb_eq. tauto.
  - intros p0 p1 p2 rest H. unfold fields, yearOf. now rewrite H.
  - intros tz now dateParse Htz. cbv zeta.
    assert (Hout : forall raw,
      finishAbsolute tz raw (Some (newDate tz 2024 10 14))
      = Returns {| full := VString "14 November 2024";
                   iso := Some (if 0 <? tz then "2024-11-13"
                                else "2024-11-14") |}).
    { intros raw. rewrite newDate_midnight by reflexivity.
      change (MakeDay 2024 10 14) with 20041.
      rewrite finishAbsolute_midnight;
        [|exact Htz|lia|destruct (0 <? tz); vm_compute; reflexivity].
      destruct (0 <? tz); vm_compute; reflexivity. }
    repeat split;
      (rewrite (explicit_year_outcome tz now dateParse _ 2024 10 14)
         by (discriminate || (vm_compute; reflexivity));
       apply Hout).
  - intros tz now dateParse. split;
      apply yearless_resolve; (discriminate || (vm_compute; reflexivity)).
Qed.

Lemma token_rules_witness :
  normalizeDate 330 1704844800000 (fun _ => None) (VString "Nov 14, 2024")
  = Returns {| full := VString "14 November 2024";
               iso := Some (if 0 <? 330 then "2024-11-13" else "2024-11-14") |}.
Proof.
  destruct (proj2 (proj2 (proj2 (proj2 (proj2 (proj2 (proj2 token_rules)))))))
    as [H _].
  destruct (H 330 1704844800000 (fun _ => None)
              ltac:(unfold zoneOffset; lia)) as [_ [_ [_ Hout]]].
  exact Hout.
Defined.

(** C9 as stated fails: the same relative input a day later gives another
    result. *)
Lemma normalizeDate_reads_clock : ~ clockFree.
Proof.
  intros H.
  specialize (H 0 (fun _ => None) (VString "2 DAYS AGO")
                1704844800000 1704931200000).
  vm_compute in H. discriminate.
Qed.

(** C9, amended.  On an input that is not relative and is not a day and month
    without a usable year, the result does not depend on the clock; a result
    is a function of the input, the clock, the zone and [Date.parse]. *)
Theorem normalizeDate_clock_free (raw : Value) :
  readsClock raw = false ->
  forall (tz : Z) dateParse now1 now2,
    normalizeDate tz now1 dateParse raw = normalizeDate tz now2 dateParse raw.
Proof.
  intros Hraw tz dateParse now1 now2.
  destruct raw as [| | | |r]; try reflexivity.
  destruct r as [|c r]; [reflexivity|].
  unfold readsClock in Hraw. unfold normalizeDate. cbv zeta in *.
  destruct (relativeMatch (clean (String c r))) as [[amount u]|];
    [discriminate|].
  unfold resolve.
  destruct (month (fields (split (clean (String c r))))) as [m|];
    [|reflexivity].
  destruct (day (fields (split (clean (String c r))))) as [d|];
    [|reflexivity].
  rewrite Hraw. reflexivity.
Qed.

Lemma normalizeDate_clock_free_witness :
  readsClock (VString "14 NOV 2024") = false
  /\ normalizeDate 0 1704844800000 (fun _ => None) (VString "14 NOV 2024")
     = normalizeDate 0 0 (fun _ => None) (VString "14 NOV 2024").
Proof.
  split; [vm_compute; reflexivity|].
  apply (normalizeDate_clock_free (VString "14 NOV 2024")).
  vm_compute. reflexivity.
Defined.

(** C10.  ["31 FEB 2024"] is not a parse failure: in every zone and at every
    moment the day overflows into March, the result is ["2 March 2024"] with
    a non-null ISO date in March. *)
Theorem feb31_overflows (tz now : Z) (dateParse : string -> option Z) :
  zoneOffset tz ->
  normalizeDate tz now dateParse (VString "31 FEB 2024")
  = Returns {| full := VString "2 March 2024";
               iso := Some (if 0 <? tz then "2024-03-01" else "2024-03-02") |}
  /\ normalizeDate tz now dateParse (VString "31 FEB 2024")
     <> fallback (VString "31 FEB 2024").
Proof.
  intros Htz.
  assert (H : normalizeDate tz now dateParse (VString "31 FEB 2024")
    = Returns {| full := VString "2 March 2024";
                 iso := Some (if 0 <? tz then "2024-03-01" else "2024-03-02") |}).
  { absolute_input {| day := Some 31; month := Some 1; year := Some 2024 |}.
    unfold resolve. cbn [month day year noYear]. cbn [Z.eqb andb].
    rewrite newDate_midnight by reflexivity.
    change (MakeDay 2024 1 31) with 19784.
    rewrite finishAbsolute_midnight; [|exact Htz|lia|destruct (0 <? tz); reflexivity].
    destruct (0 <? tz); reflexivity. }
  split; [exact H|]. rewrite H. unfold fallback. discriminate.
Qed.

Lemma feb31_overflows_witness :
  normalizeDate 0 1704844800000 (fun _ => None) (VString "31 FEB 2024")
  = Returns {| full := VString "2 March 2024"; iso := Some "2024-03-02" |}.
Proof.
  apply (proj1 (feb31_overflows 0 1704844800000 (fun _ => None)
                  ltac:(unfold zoneOffset; lia))).
Defined.

End NormalizerClaims.


(** * Further properties *)

(** ** The collector loop *)

Section ScanFacts.

Import Collector Scans.

(** The rule of the [while] loop: [J] holds whenever the condition is
    tested, [Q] when the loop is left. *)
Lemma loop_rule (J Q : State -> Prop) (limit : nat) (src : RowSource) :
  (forall st, J st -> continues limit st = false -> Q st) ->
  (forall st, J st -> continues limit st = true ->
     (limit <= List.length (results (scanAndCount limit src st)) ->
      Q (scanAndCount limit src st))
     /\ (List.length (results (scanAndCount limit src st)) < limit ->
         J (scrollOn src (scanAndCount limit src st)))) ->
  forall fuel st st', J st -> loop fuel limit src st = Some st' -> Q st'.
Proof.
  intros Hexit Hstep. induction fuel as [|fuel IH]; intros st st' HJ; simpl.
  - destruct (continues limit st) eqn:E; [discriminate|].
    intros [= <-]. now apply Hexit.
  - destruct (continues limit st) eqn:E; [|intros [= <-]; now apply Hexit].
    destruct (Hstep st HJ E) as [Hbreak Hnext].
    destruct (limit <=? _) eqn:E'.
    + intros [= <-]. apply Hbreak. now apply Nat.leb_le.
    + apply IH. apply Hnext. now apply Nat.leb_gt.
Qed.

Lemma lastTitle_nil : lastTitle [] = None.
Proof. reflexivity. Qed.

Lemma lastTitle_some (e : Episode) (rs : list Episode) :
  exists t, lastTitle (e :: rs) = Some t.
Proof.
  revert e. induction rs as [|b rs IH]; intros e.
  - now exists (title e).
  - rewrite lastTitle_cons. apply IH.
Qed.

Lemma rowRecord_title (row : Row) (e : Episode) :
  rowRecord row = Some e -> rowTitle row = Some (title e) /\ title e <> "".
Proof.
  destruct row as [els|]; simpl; [|discriminate].
  destruct (option_map Text.trim (titleEl els)) as [[|c t]|]; try discriminate.
  intros [= <-]. simpl. split; [reflexivity|discriminate].
Qed.

Lemma visit_rowRecord (rs : list Episode) (row : Row) :
  visit rs row
  = match rowRecord row with
    | Some e => if sameTitle (title e) (lastTitle rs) then rs else rs ++ [e]
    | None => rs
    end.
Proof.
  destruct row as [els|]; simpl; [|reflexivity].
  destruct (option_map Text.trim (titleEl els)) as [[|c t]|]; reflexivity.
Qed.

(** One scan: the records of the rows are appended without the repeats, up
    to the limit. *)
Lemma scanRows_dropRepeats (limit : nat) (rows : list Row) :
  forall rs, List.length rs <= limit ->
    scanRows limit rows rs
    = firstn limit (rs ++ dropRepeats (lastTitle rs) (records rows)).
Proof.
  induction rows as [|row rows IH]; intros rs Hlen; cbn [scanRows records].
  - cbn [dropRepeats]. rewrite app_nil_r. symmetry. now apply firstn_all2.
  - destruct (limit <=? List.length rs) eqn:E.
    + apply Nat.leb_le in E. assert (limit = List.length rs) as -> by lia.
      rewrite firstn_app, Nat.sub_diag, firstn_all. cbn [firstn].
      now rewrite app_nil_r.
    + apply Nat.leb_gt in E. rewrite visit_rowRecord.
      destruct (rowRecord row) as [e|]; [|now apply IH].
      cbn [dropRepeats]. destruct (sameTitle (title e) (lastTitle rs));
        [now apply IH|].
      rewrite IH by (rewrite List.length_app; simpl; lia).
      now rewrite lastTitle_snoc, <- app_assoc.
Qed.

Lemma lastOr_cons (p : option string) (e : Episode) (rs : list Episode) :
  lastOr p (e :: rs) = lastOr (Some (title e)) rs.
Proof.
  unfold lastOr. destruct rs as [|b rs]; [reflexivity|].
  rewrite lastTitle_cons. now destruct (lastTitle_some b rs) as [t ->].
Qed.

Lemma dropRepeats_app (a b : list Episode) :
  forall p, dropRepeats p (a ++ b)
            = dropRepeats p a
              ++ dropRepeats (lastOr p (dropRepeats p a)) b.
Proof.
  induction a as [|e a IH]; intros p; cbn [app dropRepeats].
  - reflexivity.
  - destruct (sameTitle (title e) p); [apply IH|].
    rewrite IH, lastOr_cons. reflexivity.
Qed.

Lemma scanned_S (src : RowSource) (k : nat) :
  scanned src (S k) = scanned src k ++ records (src k).
Proof.
  unfold scanned. rewrite seq_S, flat_map_app. simpl. now rewrite app_nil_r.
Qed.

Lemma firstn_short {A : Type} (n : nat) (l : list A) :
  List.length (firstn n l) < n -> firstn n l = l.
Proof.
  rewrite List.length_firstn. intros H. apply firstn_all2. lia.
Qed.

(** The invariant of the loop on [results]. *)
Lemma results_scanned (fuel limit : nat) (src : RowSource) (st : State) :
  loop fuel limit src init = Some st ->
  results st = firstn limit (dropRepeats None (scanned src (iterations st))).
Proof.
  intros Hrun.
  apply (loop_rule
           (fun st => results st
                      = firstn limit
                          (dropRepeats None (scanned src (iterations st))))
           (fun st => results st
                      = firstn limit
                          (dropRepeats None (scanned src (iterations st))))
           limit src) with (fuel := fuel) (st := init); [| | |exact Hrun].
  - intros s Hs _. exact Hs.
  - intros s Hs Hc.
    assert (Hnext : results (scanAndCount limit src s)
              = firstn limit (dropRepeats None
                  (scanned src (iterations (scanAndCount limit src s))))).
    { rewrite results_scanAndCount, iterations_scanAndCount, scanned_S.
      unfold continues in Hc. apply andb_true_iff in Hc as [Hc _].
      apply Nat.ltb_lt in Hc.
      assert (Hfull : results s = dropRepeats None (scanned src (iterations s))).
      { rewrite Hs. apply firstn_short. now rewrite <- Hs. }
      rewrite scanRows_dropRepeats by lia.
      rewrite dropRepeats_app, <- Hfull. unfold lastOr.
      now destruct (lastTitle (results s)). }
    split; intros _; [exact Hnext|exact Hnext].
  - destruct limit; reflexivity.
Qed.

(** The final [slice(0, limit)] changes nothing. *)
Lemma collect_results (fuel limit : nat) (src : RowSource) (st : State) :
  loop fuel limit src init = Some st ->
  collect fuel limit src = Some (results st).
Proof.
  intros Hrun. pose proof (results_scanned fuel limit src st Hrun) as H.
  unfold collect. rewrite Hrun. simpl.
  rewrite H at 1. now rewrite firstn_firstn, Nat.min_id, <- H.
Qed.

(** X1.  When the loop is left, [results] holds the records of all the rows
    scanned, iteration after iteration and each time from the first row of
    the list, without the records that repeat the title before them, cut at
    the limit. *)
Theorem loop_results_scanned (fuel limit : nat) (src : RowSource) (st : State) :
  loop fuel limit src init = Some st ->
  results st = firstn limit (dropRepeats None (scanned src (iterations st)))
  /\ collect fuel limit src = Some (results st).
Proof.
  intros Hrun. split;
    [now apply (results_scanned fuel)|now apply collect_results].
Qed.

Lemma loop_results_scanned_witness :
  exists st,
    loop 13 4 (fun _ => [titled "a"; titled "a"; titled "b"]) init = Some st
    /\ map title (results st) = ["a"; "b"; "a"; "b"].
Proof.
  assert (H : exists st,
    loop 13 4 (fun _ => [titled "a"; titled "a"; titled "b"]) init = Some st).
  { eexists. vm_compute. reflexivity. }
  destruct H as [st H]. exists st. split; [exact H|].
  rewrite (proj1 (loop_results_scanned 13 4 _ st H)).
  revert H. vm_compute. intros [= <-]. reflexivity.
Defined.

(** X2.  When the rows already in the list give [limit] records, the loop
    makes one scan and returns the first [limit] of them, without a scroll
    request and without reading the list again. *)
Theorem collect_first_scan (fuel limit : nat) (src : RowSource) :
  0 < limit -> 0 < fuel ->
  limit <= List.length (dropRepeats None (records (src 0))) ->
  exists st,
    loop fuel limit src init = Some st
    /\ iterations st = 1 /\ scrolls st = []
    /\ results st = firstn limit (dropRepeats None (records (src 0)))
    /\ collect fuel limit src = Some (results st).
Proof.
  intros Hlimit Hfuel Hrows. destruct fuel as [|fuel]; [lia|].
  assert (Hres : results (scanAndCount limit src init)
                 = firstn limit (dropRepeats None (records (src 0)))).
  { rewrite results_scanAndCount. cbn [iterations results init].
    rewrite scanRows_dropRepeats by (simpl; lia). reflexivity. }
  assert (Hrun : loop (S fuel) limit src init = Some (scanAndCount limit src init)).
  { cbn [loop].
    replace (continues limit init) with true
      by (symmetry; unfold continues; apply andb_true_iff; split;
          apply Nat.ltb_lt; simpl; [lia|unfold maxStableAttempts; lia]).
    replace (limit <=? List.length (results (scanAndCount limit src init)))
      with true; [reflexivity|].
    symmetry. apply Nat.leb_le. rewrite Hres, List.length_firstn. lia. }
  exists (scanAndCount limit src init).
  split; [exact Hrun|]. split; [apply iterations_scanAndCount|].
  split; [unfold scanAndCount; now destruct (_ <? _)|].
  split; [exact Hres|].
  now apply collect_results.
Qed.

Lemma collect_first_scan_witness :
  exists st,
    loop 1 2 (fun _ => [titled "a"; titled "b"; titled "c"]) init = Some st
    /\ iterations st = 1 /\ scrolls st = []
    /\ results st
       = firstn 2 (dropRepeats None
                     (records [titled "a"; titled "b"; titled "c"]))
    /\ collect 1 2 (fun _ => [titled "a"; titled "b"; titled "c"])
       = Some (results st).
Proof.
  apply (collect_first_scan 1 2 (fun _ => [titled "a"; titled "b"; titled "c"]));
    [lia|lia|vm_compute; lia].
Defined.

Lemma maxCount_S (src : RowSource) (k : nat) :
  maxCount src (S k) = Nat.max (maxCount src k) (List.length (src k)).
Proof. reflexivity. Qed.

(** X3.  The loop is left with exactly [limit] records, or with fewer and
    [stableAttempts] at exactly [maxStableAttempts]; in the second case it
    made at least [maxStableAttempts] iterations and in none of the last
    [maxStableAttempts] did the list have more rows than in every iteration
    before.  [prevCount] is the largest row count seen. *)
Theorem loop_exit (fuel limit : nat) (src : RowSource) (st : State) :
  loop fuel limit src init = Some st ->
  prevCount st = maxCount src (iterations st)
  /\ (List.length (results st) = limit
      \/ (List.length (results st) < limit
          /\ stableAttempts st = maxStableAttempts
          /\ maxStableAttempts <= iterations st
          /\ forall i, iterations st - maxStableAttempts <= i < iterations st ->
               List.length (src i) <= maxCount src i)).
Proof.
  intros Hrun.
  set (J := fun s : State =>
    List.length (results s) <= limit
    /\ stableAttempts s <= maxStableAttempts
    /\ stableAttempts s <= iterations s
    /\ prevCount s = maxCount src (iterations s)
    /\ forall i, iterations s - stableAttempts s <= i < iterations s ->
         List.length (src i) <= maxCount src i).
  assert (Hstep : forall s, J s -> continues limit s = true ->
                            J (scanAndCount limit src s)).
  { intros s [H1 [H2 [H3 [H4 H5]]]] Hc. unfold continues in Hc.
    apply andb_true_iff in Hc as [Hc1 Hc2].
    apply Nat.ltb_lt in Hc1. apply Nat.ltb_lt in Hc2.
    unfold J. rewrite results_scanAndCount, iterations_scanAndCount.
    split; [apply scanRows_length; lia|].
    unfold scanAndCount.
    destruct (prevCount s <? List.length (src (iterations s))) eqn:E;
      cbn [stableAttempts prevCount];
      [apply Nat.ltb_lt in E|apply Nat.ltb_ge in E].
    - split; [lia|]. split; [lia|]. split; [rewrite maxCount_S; lia|].
      intros i Hi. lia.
    - split; [lia|]. split; [lia|]. split; [rewrite maxCount_S; lia|].
      intros i Hi. destruct (Nat.eq_dec i (iterations s)) as [->|Hne].
      + lia.
      + apply H5. lia. }
  assert (HJ : J st).
  { apply (loop_rule J J limit src) with (fuel := fuel) (st := init);
      [| | |exact Hrun].
    - intros s Hs _. exact Hs.
    - intros s Hs Hc. pose proof (Hstep s Hs Hc) as Hs'.
      split; intros _; exact Hs'.
    - unfold J. simpl. repeat split; try lia. }
  assert (Hout : continues limit st = false \/ limit <= List.length (results st)).
  { apply (loop_rule (fun _ => True)
             (fun s => continues limit s = false
                       \/ limit <= List.length (results s)) limit src)
      with (fuel := fuel) (st := init);
      [intros s _ Hc; now left
      |intros s _ _; split; [intros H; now right|intros _; exact I]
      |exact I|exact Hrun]. }
  destruct HJ as [H1 [H2 [H3 [H4 H5]]]]. split; [exact H4|].
  destruct Hout as [Hc|Hge]; [|left; lia].
  unfold continues in Hc. apply andb_false_iff in Hc as [Hc|Hc];
    [apply Nat.ltb_ge in Hc; left; lia|apply Nat.ltb_ge in Hc].
  destruct (Nat.eq_dec (List.length (results st)) limit) as [He|Hne];
    [now left|right].
  assert (Hs : stableAttempts st = maxStableAttempts) by lia.
  split; [lia|]. split; [exact Hs|]. split; [lia|].
  intros i Hi. apply H5. lia.
Qed.

Lemma loop_exit_witness :
  exists st,
    loop 13 5 (fun _ => [titled "a"]) init = Some st
    /\ prevCount st = maxCount (fun _ => [titled "a"]) (iterations st).
Proof.
  assert (H : exists st, loop 13 5 (fun _ => [titled "a"]) init = Some st).
  { eexists. vm_compute. reflexivity. }
  destruct H as [st H]. exists st. split; [exact H|].
  exact (proj1 (loop_exit 13 5 _ st H)).
Defined.

(** X4.  There is one scroll request, and one settle delay, for every
    iteration but the one that reaches the limit; the request of iteration
    [i] asks for the last row of the list as it was then, or for the next
    screen when the list had no row. *)
Theorem loop_scrolls (fuel limit : nat) (src : RowSource) (st : State) :
  loop fuel limit src init = Some st ->
  exists n,
    scrolls st = map (fun i => scrollFor (src i)) (seq 0 n)
    /\ (n = iterations st
        \/ (S n = iterations st /\ limit <= List.length (results st))).
Proof.
  apply (loop_rule
           (fun s => scrolls s
                     = map (fun i => scrollFor (src i)) (seq 0 (iterations s)))
           (fun s => exists n,
              scrolls s = map (fun i => scrollFor (src i)) (seq 0 n)
              /\ (n = iterations s
                  \/ (S n = iterations s
                      /\ limit <= List.length (results s))))
           limit src).
  - intros s Hs _. exists (iterations s). split; [exact Hs|now left].
  - intros s Hs Hc.
    assert (Hsc : scrolls (scanAndCount limit src s) = scrolls s).
    { unfold scanAndCount. now destruct (_ <? _). }
    split.
    + intros Hge. exists (iterations s). rewrite Hsc. split; [exact Hs|].
      right. now rewrite iterations_scanAndCount.
    + intros _. unfold scrollOn. cbn [scrolls iterations].
      rewrite Hsc, iterations_scanAndCount, seq_S, map_app, Hs.
      cbn [Nat.sub]. rewrite Nat.sub_0_r. reflexivity.
  - reflexivity.
Qed.

Lemma loop_scrolls_witness :
  exists st n,
    loop 13 5 (fun _ => [titled "a"]) init = Some st
    /\ scrolls st = map (fun i => scrollFor [titled "a"]) (seq 0 n).
Proof.
  assert (H : exists st, loop 13 5 (fun _ => [titled "a"]) init = Some st).
  { eexists. vm_compute. reflexivity. }
  destruct H as [st H].
  destruct (loop_scrolls 13 5 _ st H) as [n [Hn _]].
  exists st, n. split; [exact H|exact Hn].
Defined.

Lemma loop_exit_attempts (fuel limit : nat) (src : RowSource) (st : State) :
  loop fuel limit src init = Some st ->
  limit <= List.length (results st) \/ maxStableAttempts <= iterations st.
Proof.
  apply (loop_rule
           (fun st => stableAttempts st <= iterations st)
           (fun st => limit <= List.length (results st)
                      \/ maxStableAttempts <= iterations st) limit src).
  - intros s Hs Hc. unfold continues in Hc.
    apply andb_false_iff in Hc as [Hc|Hc]; apply Nat.ltb_ge in Hc;
      [left; exact Hc|right; lia].
  - intros s Hs _. split; [intros H; left; exact H|]. intros _.
    unfold scrollOn, scanAndCount. cbn [stableAttempts iterations].
    destruct (prevCount s <? _); cbn [stableAttempts iterations]; lia.
  - cbn. lia.
Qed.

Lemma scanned_nil (src : RowSource) (k : nat) :
  scanned src k = [] <-> forall i, i < k -> records (src i) = [].
Proof.
  induction k as [|k IH]; [split; [lia|reflexivity]|].
  rewrite scanned_S. split.
  - intros H. apply app_eq_nil in H as [H1 H2]. intros i Hi.
    destruct (Nat.eq_dec i k) as [->|Hne]; [exact H2|].
    apply IH; [exact H1|lia].
  - intros H. rewrite (proj2 IH) by (intros i Hi; apply H; lia).
    rewrite H by lia. reflexivity.
Qed.

Lemma dropRepeats_nil (es : list Episode) : dropRepeats None es = [] -> es = [].
Proof. destruct es as [|e es]; [reflexivity|discriminate]. Qed.

Lemma records_repeat_Faulty (n : nat) : records (repeat Faulty n) = [].
Proof. induction n as [|n IH]; [reflexivity|exact IH]. Qed.

(** While the list grows at every scan, the plateau counter stays at most
    one. *)
Lemma growing_attempts (fuel limit : nat) (src : RowSource) (st : State) :
  (forall i, List.length (src i) < List.length (src (S i))) ->
  loop fuel limit src init = Some st -> stableAttempts st <= 1.
Proof.
  intros Hgrow.
  apply (loop_rule
           (fun s => stableAttempts s <= 1
                     /\ (iterations s = 0 ->
                         stableAttempts s = 0 /\ prevCount s = 0)
                     /\ (forall k, iterations s = S k ->
                           prevCount s <= List.length (src k)))
           (fun s => stableAttempts s <= 1) limit src).
  - intros s [H _] _. exact H.
  - intros s (H1 & H0 & Hk) _.
    assert (Hnext : stableAttempts (scanAndCount limit src s) <= 1
                    /\ prevCount (scanAndCount limit src s)
                       <= List.length (src (iterations s))).
    { unfold scanAndCount.
      destruct (prevCount s <? List.length (src (iterations s))) eqn:E;
        cbn [stableAttempts prevCount]; [lia|].
      apply Nat.ltb_ge in E. destruct (iterations s) as [|k] eqn:Ek.
      - destruct (H0 eq_refl) as [Ha Hp]. lia.
      - specialize (Hk k eq_refl). specialize (Hgrow k). lia. }
    split; [intros _; apply Hnext|]. intros _.
    unfold scrollOn. cbn [stableAttempts prevCount iterations].
    rewrite iterations_scanAndCount.
    split; [apply Hnext|]. split; [discriminate|].
    intros k [= <-]. apply Hnext.
  - cbn. split; [lia|]. split; [split; reflexivity|discriminate].
Qed.

(** The condition of the [while] is false when the loop is left, unless
    the limit was reached. *)
Lemma loop_exit_condition (fuel limit : nat) (src : RowSource) (st : State) :
  loop fuel limit src init = Some st ->
  limit <= List.length (results st)
  \/ maxStableAttempts <= stableAttempts st.
Proof.
  intros Hrun.
  apply (loop_rule (fun _ => True)
           (fun s => limit <= List.length (results s)
                     \/ maxStableAttempts <= stableAttempts s) limit src)
    with (fuel := fuel) (st := init); [| |exact I|exact Hrun].
  - intros s _ Hc. unfold continues in Hc.
    apply andb_false_iff in Hc as [Hc|Hc]; apply Nat.ltb_ge in Hc;
      [now left|now right].
  - intros s _ _. split; [intros Hge; now left|trivial].
Qed.

(** X18.  The loop has no bound of its own on the number of scans: on a
    list that has more rows at every scan while its rows never give [limit]
    records, no number of iterations ends it, and nothing is returned. *)
Theorem loop_unbounded (limit : nat) (src : RowSource) :
  (forall i, List.length (src i) < List.length (src (S i))) ->
  (forall k, List.length (dropRepeats None (scanned src k)) < limit) ->
  forall fuel, loop fuel limit src init = None /\ collect fuel limit src = None.
Proof.
  intros Hgrow Hfew fuel.
  assert (H : loop fuel limit src init = None).
  { destruct (loop fuel limit src init) as [st|] eqn:Hrun; [|reflexivity].
    exfalso.
    pose proof (growing_attempts fuel limit src st Hgrow Hrun) as Hst.
    pose proof (results_scanned fuel limit src st Hrun) as Hres.
    pose proof (Hfew (iterations st)) as Hlen.
    assert (Hshort : List.length (results st) < limit)
      by (rewrite Hres, List.length_firstn; lia).
    destruct (loop_exit_condition fuel limit src st Hrun) as [H|H];
      unfold maxStableAttempts in *; lia. }
  split; [exact H|]. unfold collect. now rewrite H.
Qed.

Lemma loop_unbounded_witness :
  loop 1000 1 (fun i => repeat Faulty (S i)) init = None.
Proof.
  apply (loop_unbounded 1 (fun i => repeat Faulty (S i))).
  - intros i. rewrite !repeat_length. lia.
  - intros k.
    rewrite (proj2 (scanned_nil (fun i => repeat Faulty (S i)) k))
      by (intros i _; apply records_repeat_Faulty).
    simpl. lia.
Defined.

End ScanFacts.

(** ** The calendar *)

Section CalendarFacts.

Import Text JSDate Calendar.
Local Open Scope Z_scope.

Lemma DayFromYear_mono (a b : Z) : a <= b -> DayFromYear a <= DayFromYear b.
Proof. unfold DayFromYear. intros H. Z.div_mod_to_equations. lia. Qed.

Lemma YearFromDay_bounds (a b d : Z) :
  DayFromYear a <= d < DayFromYear (b + 1) -> a <= YearFromDay d <= b.
Proof.
  intros [H1 H2]. pose proof (YearFromDay_spec d) as [H3 H4].
  split.
  - destruct (Z_lt_le_dec (YearFromDay d) a) as [Hlt|]; [|assumption].
    pose proof (DayFromYear_mono (YearFromDay d + 1) a). lia.
  - destruct (Z_lt_le_dec b (YearFromDay d)) as [Hlt|]; [|assumption].
    pose proof (DayFromYear_mono (b + 1) (YearFromDay d)). lia.
Qed.

Lemma YearFromDay_unique (y d : Z) :
  DayFromYear y <= d < DayFromYear (y + 1) -> YearFromDay d = y.
Proof. intros H. pose proof (YearFromDay_bounds y y d H). lia. Qed.

Lemma dayWithinYear_range (d : Z) :
  0 <= dayWithinYear d < DaysInYear (YearFromDay d).
Proof.
  unfold dayWithinYear. pose proof (YearFromDay_spec d) as [H1 H2].
  rewrite year_length in H2. lia.
Qed.

Ltac months m :=
  assert (m = 0 \/ m = 1 \/ m = 2 \/ m = 3 \/ m = 4 \/ m = 5 \/ m = 6
          \/ m = 7 \/ m = 8 \/ m = 9 \/ m = 10 \/ m = 11) as Hmonths by lia;
  repeat (destruct Hmonths as [->|Hmonths]); [..|subst m].

Ltac branches :=
  repeat match goal with
         | |- context [if ?c then _ else _] => destruct c eqn:?
         end;
  rewrite ?Z.ltb_lt, ?Z.ltb_ge, ?Z.eqb_eq, ?Z.eqb_neq in *.

Lemma monthStart_next (leap : bool) (m : Z) :
  0 <= m <= 11 ->
  monthStart leap m + daysInMonth leap m
  = (if m =? 11 then (if leap then 366 else 365) else monthStart leap (m + 1)).
Proof.
  intros Hm. months m; destruct leap; reflexivity.
Qed.

Lemma daysInMonth_range (leap : bool) (m : Z) : 28 <= daysInMonth leap m <= 31.
Proof. unfold daysInMonth. destruct leap; branches; lia. Qed.

Lemma monthOfYearDay_monthStart (leap : bool) (m k : Z) :
  0 <= m <= 11 -> 0 <= k < daysInMonth leap m ->
  monthOfYearDay leap (monthStart leap m + k) = m.
Proof.
  intros Hm Hk. months m; destruct leap;
    cbv [daysInMonth monthStart Z.eqb Pos.eqb orb] in *;
    unfold monthOfYearDay; branches; lia.
Qed.

Lemma DateFromDay_range (d : Z) :
  1 <= DateFromDay d <= daysInMonth (leapOfDay d) (MonthFromDay d).
Proof.
  unfold DateFromDay, MonthFromDay.
  pose proof (dayWithinYear_range d) as H. unfold DaysInYear in H.
  fold (leapOfDay d) in H.
  set (w := dayWithinYear d) in *. clearbody w.
  destruct (leapOfDay d); unfold monthOfYearDay; branches;
    cbv [daysInMonth monthStart Z.eqb Pos.eqb orb]; lia.
Qed.

(** [MakeDay] and the three date fields are inverse to each other on the
    days that exist. *)
Lemma MakeDay_inverse (y m dt : Z) :
  0 <= m <= 11 -> 1 <= dt <= daysInMonth (isLeap y) m ->
  YearFromDay (MakeDay y m dt) = y
  /\ MonthFromDay (MakeDay y m dt) = m
  /\ DateFromDay (MakeDay y m dt) = dt.
Proof.
  intros Hm Hdt. unfold MakeDay.
  rewrite Z.div_small, Z.mod_small, Z.add_0_r by lia.
  pose proof (monthStart_range (isLeap y) m) as Hs.
  pose proof (monthStart_next (isLeap y) m Hm) as Hn.
  pose proof (monthStart_le (isLeap y) (m + 1)) as Hle.
  pose proof (year_length y) as Hy. unfold DaysInYear in Hy.
  assert (HY : YearFromDay (DayFromYear y + monthStart (isLeap y) m + dt - 1) = y).
  { apply YearFromDay_unique. rewrite Hy.
    destruct (m =? 11); destruct (isLeap y); lia. }
  split; [exact HY|].
  assert (HM : MonthFromDay (DayFromYear y + monthStart (isLeap y) m + dt - 1) = m).
  { unfold MonthFromDay, leapOfDay, dayWithinYear. rewrite HY.
    replace (DayFromYear y + monthStart (isLeap y) m + dt - 1 - DayFromYear y)
      with (monthStart (isLeap y) m + (dt - 1)) by lia.
    apply monthOfYearDay_monthStart; lia. }
  split; [exact HM|].
  unfold DateFromDay. rewrite HM. unfold leapOfDay, dayWithinYear. rewrite HY.
  lia.
Qed.

Lemma monthStart_mono (leap : bool) (a b : Z) :
  0 <= a <= b -> b <= 11 -> monthStart leap a <= monthStart leap b.
Proof.
  intros Ha Hb. unfold monthStart. destruct leap; branches; lia.
Qed.

Lemma MakeDay_month_mono (y m1 m2 d : Z) :
  m1 <= m2 -> MakeDay y m1 d <= MakeDay y m2 d.
Proof.
  intros Hm. unfold MakeDay.
  assert (Hq : m1 / 12 < m2 / 12 \/ (m1 / 12 = m2 / 12 /\ m1 mod 12 <= m2 mod 12))
    by (Z.div_mod_to_equations; lia).
  assert (H1 : 0 <= m1 mod 12 < 12) by (apply Z.mod_pos_bound; lia).
  assert (H2 : 0 <= m2 mod 12 < 12) by (apply Z.mod_pos_bound; lia).
  destruct Hq as [Hq|[Hq Hr]].
  - pose proof (monthStart_range (isLeap (y + m1 / 12)) (m1 mod 12)).
    pose proof (monthStart_range (isLeap (y + m2 / 12)) (m2 mod 12)).
    pose proof (year_length (y + m1 / 12)) as Hy. unfold DaysInYear in Hy.
    pose proof (DayFromYear_mono (y + m1 / 12 + 1) (y + m2 / 12)).
    destruct (isLeap (y + m1 / 12)); lia.
  - rewrite Hq.
    pose proof (monthStart_mono (isLeap (y + m2 / 12)) (m1 mod 12) (m2 mod 12)).
    lia.
Qed.

Lemma MakeDay_year_mono (y1 y2 m d : Z) :
  0 <= m <= 11 -> y1 <= y2 -> MakeDay y1 m d <= MakeDay y2 m d.
Proof.
  intros Hm Hy. unfold MakeDay.
  rewrite Z.div_small, Z.mod_small, !Z.add_0_r by lia.
  destruct (Z.eq_dec y1 y2) as [->|Hne]; [lia|].
  pose proof (monthStart_range (isLeap y1) m).
  pose proof (monthStart_range (isLeap y2) m).
  pose proof (year_length y1) as Hl. unfold DaysInYear in Hl.
  pose proof (DayFromYear_mono (y1 + 1) y2).
  destruct (isLeap y1); lia.
Qed.

Lemma parseDigits_nonneg (l : list ascii) : 0 <= parseDigits l.
Proof.
  unfold parseDigits.
  assert (H : forall acc, 0 <= acc ->
            0 <= fold_left (fun a c => 10 * a + digitVal c) l acc).
  { induction l as [|c l IH]; intros acc Hacc; cbn [fold_left]; [exact Hacc|].
    apply IH. unfold digitVal. lia. }
  apply H. lia.
Qed.

(** A month back is at least 28 days back, a year at least 365. *)
Lemma MakeDay_month_step (y m d : Z) :
  MakeDay y (m - 1) d + 28 <= MakeDay y m d.
Proof.
  unfold MakeDay.
  assert (Hr : 0 <= m mod 12 < 12) by (apply Z.mod_pos_bound; lia).
  destruct (Z.eq_dec (m mod 12) 0) as [H0|Hpos].
  - assert (Hq : (m - 1) / 12 = m / 12 - 1 /\ (m - 1) mod 12 = 11)
      by (Z.div_mod_to_equations; lia).
    destruct Hq as [-> ->]. rewrite H0.
    pose proof (year_length (y + (m / 12 - 1))) as Hy.
    replace (y + (m / 12 - 1) + 1) with (y + m / 12) in Hy by lia.
    rewrite Hy. unfold DaysInYear.
    destruct (isLeap (y + (m / 12 - 1))); destruct (isLeap (y + m / 12));
      cbv [monthStart Z.eqb Pos.eqb]; lia.
  - assert (Hq : (m - 1) / 12 = m / 12 /\ (m - 1) mod 12 = m mod 12 - 1)
      by (Z.div_mod_to_equations; lia).
    destruct Hq as [-> ->].
    pose proof (monthStart_next (isLeap (y + m / 12)) (m mod 12 - 1)
                  ltac:(lia)) as Hn.
    pose proof (daysInMonth_range (isLeap (y + m / 12)) (m mod 12 - 1)) as Hd.
    replace (m mod 12 - 1 =? 11) with false in Hn
      by (symmetry; apply Z.eqb_neq; lia).
    replace (m mod 12 - 1 + 1) with (m mod 12) in Hn by lia.
    lia.
Qed.

Lemma MakeDay_month_gap (y d n : Z) :
  0 <= n -> forall m, MakeDay y (m - n) d + 28 * n <= MakeDay y m d.
Proof.
  intros Hn. pattern n. apply natlike_ind; [| |exact Hn].
  - intros m. rewrite Z.sub_0_r. lia.
  - intros k Hk IH m.
    pose proof (MakeDay_month_step y (m - k) d) as Hs.
    replace (m - Z.succ k) with (m - k - 1) by lia.
    specialize (IH m). lia.
Qed.

Lemma MakeDay_year_step (y m d : Z) :
  0 <= m <= 11 -> MakeDay (y - 1) m d + 365 <= MakeDay y m d.
Proof.
  intros Hm. unfold MakeDay.
  rewrite Z.div_small, Z.mod_small, !Z.add_0_r by lia.
  pose proof (year_length (y - 1)) as Hy.
  replace (y - 1 + 1) with y in Hy by lia. rewrite Hy. unfold DaysInYear.
  months m; destruct (isLeap (y - 1)); destruct (isLeap y);
    cbv [monthStart Z.eqb Pos.eqb]; lia.
Qed.

Lemma MakeDay_year_gap (m d n : Z) :
  0 <= m <= 11 -> 0 <= n ->
  forall y, MakeDay (y - n) m d + 365 * n <= MakeDay y m d.
Proof.
  intros Hm Hn. pattern n. apply natlike_ind; [| |exact Hn].
  - intros y. rewrite Z.sub_0_r. lia.
  - intros k Hk IH y.
    pose proof (MakeDay_year_step (y - k) m d Hm) as Hs.
    replace (y - Z.succ k) with (y - k - 1) by lia.
    specialize (IH y). lia.
Qed.

(** The local time a relative date is read from is at least [n] times the
    shortest length of the unit before the local time of the clock. *)
Lemma subtract_local (zone : Zone) (now : Z) (u : Normalizer.Unit) (n : Z) :
  0 <= n ->
  exists l, Normalizer.subtract zone now u n = TimeClip (UTC zone l)
            /\ l <= LocalTime zone now - n * Normalizer.shortest u.
Proof.
  intros Hn.
  destruct (Normalizer.fixedMillis u) as [ms|] eqn:Hu.
  - exists (LocalTime zone now - n * ms).
    split; [now apply subtract_wall|].
    destruct u; simpl in Hu; try discriminate Hu; injection Hu as <-;
      apply Z.le_refl.
  - pose proof (MakeDate_Day (LocalTime zone now)) as Hd.
    pose proof (MakeDay_fields (Day (LocalTime zone now))) as Hf.
    pose proof (MonthFromDay_range (Day (LocalTime zone now))) as Hm.
    destruct u; try discriminate Hu.
    + exists (MakeDate
                (MakeDay (YearFromDay (Day (LocalTime zone now)))
                   (MonthFromDay (Day (LocalTime zone now)) - n)
                   (DateFromDay (Day (LocalTime zone now))))
                (TimeWithinDay (LocalTime zone now))).
      split; [reflexivity|].
      pose proof (MakeDay_month_gap (YearFromDay (Day (LocalTime zone now)))
                    (DateFromDay (Day (LocalTime zone now))) n Hn
                    (MonthFromDay (Day (LocalTime zone now)))) as Hgap.
      rewrite Hf in Hgap. clear Hf Hm.
      generalize dependent (MakeDay (YearFromDay (Day (LocalTime zone now)))
                              (MonthFromDay (Day (LocalTime zone now)) - n)
                              (DateFromDay (Day (LocalTime zone now)))).
      intros D Hgap. unfold Normalizer.shortest, MakeDate, msPerDay in *. lia.
    + exists (MakeDate
                (MakeDay (YearFromDay (Day (LocalTime zone now)) - n)
                   (MonthFromDay (Day (LocalTime zone now)))
                   (DateFromDay (Day (LocalTime zone now))))
                (TimeWithinDay (LocalTime zone now))).
      split; [reflexivity|].
      pose proof (MakeDay_year_gap (MonthFromDay (Day (LocalTime zone now)))
                    (DateFromDay (Day (LocalTime zone now))) n Hm Hn
                    (YearFromDay (Day (LocalTime zone now)))) as Hgap.
      rewrite Hf in Hgap. clear Hf Hm.
      generalize dependent (MakeDay (YearFromDay (Day (LocalTime zone now)) - n)
                              (MonthFromDay (Day (LocalTime zone now)))
                              (DateFromDay (Day (LocalTime zone now)))).
      intros D Hgap. unfold Normalizer.shortest, MakeDate, msPerDay in *. lia.
Qed.

(** X5.  A relative date is not after the current moment when the offsets of
    the host differ by no more than the length counted back, a month
    counting for at least 28 days and a year for 365: on a host with one
    offset all year it never is, whatever the unit, the number and the
    overflow of the day of the month; on a host with daylight saving it
    can be, and in New York at 03:30 of 10 March 2024, half an hour after
    the clocks went forward, ["45 MINUTES AGO"] is a quarter of an hour
    after the current moment. *)
Theorem relative_not_after :
  (forall (zone : Zone) (now : Z) (ds : string) (u : Normalizer.Unit) (t : Z),
     Normalizer.spread zone
       (Normalizer.parseInt ds * Normalizer.shortest u) ->
     Normalizer.subtract zone now u (Normalizer.parseInt ds) = Some t ->
     t <= now)
  /\ (forall (tz now : Z) (ds : string) (u : Normalizer.Unit) (t : Z),
        Normalizer.subtract tz now u (Normalizer.parseInt ds) = Some t ->
        t <= now)
  /\ (let zone := transition 1710054000000 (-18000000) (-14400000) in
      let now := 1710055800000 in
      Normalizer.spread zone msPerHour
      /\ Normalizer.subtract zone now Normalizer.MINUTE
           (Normalizer.parseInt "45")
         = Some (now + 15 * msPerMinute)).
Proof.
  assert (Hgen : forall (zone : Zone) (now : Z) (ds : string)
                   (u : Normalizer.Unit) (t : Z),
     Normalizer.spread zone
       (Normalizer.parseInt ds * Normalizer.shortest u) ->
     Normalizer.subtract zone now u (Normalizer.parseInt ds) = Some t ->
     t <= now).
  { intros zone now ds u t Hspread Ht.
    pose proof (parseDigits_nonneg (chars ds)) as Hn.
    fold (Normalizer.parseInt ds) in Hn.
    destruct (subtract_local zone now u (Normalizer.parseInt ds) Hn)
      as [l [E Hl]].
    rewrite E in Ht. apply TimeClip_Some in Ht.
    specialize (Hspread now l). unfold UTC, LocalTime in *. lia. }
  split; [exact Hgen|]. split.
  - intros tz now ds u t. apply Hgen.
    intros a b. fixed_offset.
    pose proof (parseDigits_nonneg (chars ds)) as Hn.
    fold (Normalizer.parseInt ds) in Hn.
    assert (0 <= Normalizer.shortest u) by (destruct u; vm_compute; discriminate).
    nia.
  - cbv zeta. split; [|vm_compute; reflexivity].
    intros a b. unfold transition. cbn [offsetAt offsetOfLocal].
    destruct (a <? 1710054000000); destruct (b <? _); vm_compute; discriminate.
Qed.

Lemma relative_not_after_witness :
  exists t, Normalizer.subtract
              (transition 1710054000000 (-18000000) (-14400000))
              1710055800000 Normalizer.HOUR (Normalizer.parseInt "1") = Some t
            /\ t <= 1710055800000.
Proof.
  assert (H : exists t, Normalizer.subtract
                          (transition 1710054000000 (-18000000) (-14400000))
                          1710055800000 Normalizer.HOUR
                          (Normalizer.parseInt "1") = Some t).
  { eexists. vm_compute. reflexivity. }
  destruct H as [t H]. exists t. split; [exact H|].
  apply (proj1 relative_not_after
           (transition 1710054000000 (-18000000) (-14400000))
           1710055800000 "1" Normalizer.HOUR t); [|exact H].
  intros a b. unfold transition. cbn [offsetAt offsetOfLocal].
  destruct (a <? 1710054000000); destruct (b <? _); vm_compute; discriminate.
Defined.

Lemma all_upTo (P : Z -> bool) (n : nat) :
  forallb P (upTo n) = true -> forall z, 0 <= z < Z.of_nat n -> P z = true.
Proof.
  intros H z Hz. rewrite forallb_forall in H. apply H. unfold upTo.
  apply in_map_iff. exists (Z.to_nat z). split; [lia|]. apply in_seq. lia.
Qed.

Lemma padded4 (y : Z) : 0 <= y <= 9999 -> padded 4 y = true.
Proof.
  intros Hy. apply (all_upTo (padded 4) (Z.to_nat 10000)); [vm_compute; reflexivity|lia].
Qed.

Lemma padded2 (v : Z) : 0 <= v <= 99 -> padded 2 v = true.
Proof.
  intros Hv. apply (all_upTo (padded 2) (Z.to_nat 100)); [vm_compute; reflexivity|lia].
Qed.

Lemma padded_inv (w : nat) (n : Z) :
  padded w n = true ->
  List.length (chars (pad w n)) = w
  /\ allDigits (chars (pad w n)) = true
  /\ parseDigits (chars (pad w n)) = n.
Proof.
  unfold padded. intros H. apply andb_true_iff in H as [H H3].
  apply andb_true_iff in H as [H1 H2].
  apply Nat.eqb_eq in H1. apply Z.eqb_eq in H3. now repeat split.
Qed.

Lemma length_chars (s : string) : List.length (chars s) = String.length s.
Proof.
  unfold chars. induction s as [|c s IH]; simpl; [reflexivity|now rewrite IH].
Qed.

(** The characters of the date part of [toISOString] in the years 0 to
    9999. *)
Lemma isoDateOfDay_chars (d : Z) :
  0 <= YearFromDay d <= 9999 ->
  exists y1 y2 y3 y4 m1 m2 d1 d2,
    chars (isoDateOfDay d) = [y1; y2; y3; y4; "-"; m1; m2; "-"; d1; d2]%char
    /\ allDigits [y1; y2; y3; y4; m1; m2; d1; d2] = true
    /\ parseDigits [y1; y2; y3; y4] = YearFromDay d
    /\ parseDigits [m1; m2] = MonthFromDay d + 1
    /\ parseDigits [d1; d2] = DateFromDay d.
Proof.
  intros Hy.
  pose proof (MonthFromDay_range d) as Hm.
  pose proof (DateFromDay_range d) as Hd.
  pose proof (daysInMonth_range (leapOfDay d) (MonthFromDay d)) as Hl.
  destruct (padded_inv 4 _ (padded4 (YearFromDay d) Hy)) as [L4 [D4 P4]].
  destruct (padded_inv 2 _ (padded2 (MonthFromDay d + 1) ltac:(lia)))
    as [Lm [Dm Pm]].
  destruct (padded_inv 2 _ (padded2 (DateFromDay d) ltac:(lia)))
    as [Ld [Dd Pd]].
  unfold isoDateOfDay, isoYear.
  replace ((0 <=? YearFromDay d) && (YearFromDay d <=? 9999)) with true
    by (symmetry; apply andb_true_iff; split; apply Z.leb_le; lia).
  rewrite !chars_app.
  destruct (chars (pad 4 (YearFromDay d))) as [|y1 [|y2 [|y3 [|y4 [|]]]]];
    try discriminate L4.
  destruct (chars (pad 2 (MonthFromDay d + 1))) as [|m1 [|m2 [|]]];
    try discriminate Lm.
  destruct (chars (pad 2 (DateFromDay d))) as [|d1 [|d2 [|]]];
    try discriminate Ld.
  exists y1, y2, y3, y4, m1, m2, d1, d2.
  split; [reflexivity|]. split; [|now repeat split].
  unfold allDigits in *. cbn [forallb] in *.
  repeat match goal with
         | H : _ && _ = true |- _ => apply andb_true_iff in H as [? H]
         end.
  repeat match goal with
         | H : isDigit _ = true |- _ => rewrite H; clear H
         end.
  reflexivity.
Qed.

(** X6.  For an instant whose UTC year is between 0 and 9999, the ISO date
    of a record, the first ten characters of [toISOString], is the year on
    four digits, the month and the day on two, with a month from 01 to 12
    and a day from 01 to 31. *)
Theorem iso_well_formed (t : Z) :
  0 <= YearFromTime t <= 9999 ->
  slice0 10 (isoString t)
  = (pad 4 (YearFromTime t) ++ "-" ++ pad 2 (MonthFromTime t + 1) ++ "-"
     ++ pad 2 (DateFromTime t))%string
  /\ isIsoDate (slice0 10 (isoString t)) = true.
Proof.
  intros Hy. unfold YearFromTime in Hy.
  pose proof (MonthFromDay_range (Day t)) as Hm.
  pose proof (DateFromDay_range (Day t)) as Hd.
  pose proof (daysInMonth_range (leapOfDay (Day t)) (MonthFromDay (Day t))) as Hl.
  destruct (isoDateOfDay_chars (Day t) Hy)
    as [y1 [y2 [y3 [y4 [m1 [m2 [d1 [d2 [Hc [Hdig [_ [Pm Pd]]]]]]]]]]]].
  assert (Hslice : slice0 10 (isoString t) = isoDateOfDay (Day t)).
  { apply (isoDate_slice t (Day t) eq_refl).
    now rewrite <- length_chars, Hc. }
  rewrite Hslice. split.
  - unfold isoDateOfDay, isoYear, YearFromTime, MonthFromTime, DateFromTime.
    replace ((0 <=? YearFromDay (Day t)) && (YearFromDay (Day t) <=? 9999))
      with true
      by (symmetry; apply andb_true_iff; split; apply Z.leb_le; lia).
    reflexivity.
  - unfold isIsoDate. rewrite Hc, Hdig, Pm, Pd.
    replace (1 <=? MonthFromDay (Day t) + 1) with true
      by (symmetry; apply Z.leb_le; lia).
    replace (MonthFromDay (Day t) + 1 <=? 12) with true
      by (symmetry; apply Z.leb_le; lia).
    replace (1 <=? DateFromDay (Day t)) with true
      by (symmetry; apply Z.leb_le; lia).
    replace (DateFromDay (Day t) <=? 31) with true
      by (symmetry; apply Z.leb_le; lia).
    reflexivity.
Qed.

Lemma iso_well_formed_witness :
  isIsoDate (slice0 10 (isoString 1704844800000)) = true.
Proof.
  apply (proj2 (iso_well_formed 1704844800000 ltac:(vm_compute; split; discriminate))).
Defined.

End CalendarFacts.

(** ** Dates with a year *)

Section WrittenDates.

Import Text JSDate Normalizer Calendar.
Local Open Scope Z_scope.

Lemma clean_filtered (r : string) (a z : ascii) (m : list ascii) :
  filter (fun c => negb (Ascii.eqb c ",")) (chars r) = a :: m ++ [z] ->
  isSpace a = false -> isSpace z = false ->
  chars (clean r) = map upperChar (a :: m ++ [z]).
Proof.
  intros E Ha Hz. unfold clean, toUpperCase, trim, removeCommas.
  rewrite !chars_str, E. now rewrite (trimChars_fixed a z m Ha Hz).
Qed.

Lemma isYear_chars (ys : string) :
  isYear ys = true ->
  exists a b c d, chars ys = [a; b; c; d]
                  /\ forallb isDigit [a; b; c; d] = true.
Proof.
  unfold isYear, allDigits. intros H. apply andb_true_iff in H as [H L].
  apply Nat.eqb_eq in L.
  destruct (chars ys) as [|a [|b [|c [|d [|]]]]]; try discriminate L.
  now exists a, b, c, d.
Qed.

Lemma digitVal_range (c : ascii) : isDigit c = true -> 0 <= digitVal c <= 9.
Proof.
  destruct c as [[] [] [] [] [] [] [] []]; vm_compute; intros H;
    (discriminate H || (split; discriminate)).
Qed.

Lemma isYear_range (ys : string) : isYear ys = true -> 0 <= parseInt ys <= 9999.
Proof.
  intros H. destruct (isYear_chars ys H) as [a [b [c [d [E Hd]]]]].
  unfold parseInt. rewrite E. cbn [forallb] in Hd.
  repeat match goal with
         | H : _ && _ = true |- _ => apply andb_true_iff in H as [? H]
         end.
  pose proof (digitVal_range a ltac:(assumption)).
  pose proof (digitVal_range b ltac:(assumption)).
  pose proof (digitVal_range c ltac:(assumption)).
  pose proof (digitVal_range d ltac:(assumption)).
  unfold parseDigits. cbn [fold_left]. lia.
Qed.

Lemma monthOf_key (p : string) (m : Z) :
  monthOf p = Some m ->
  exists k1 k2 k3 tl,
    chars p = k1 :: k2 :: k3 :: tl /\ In (str [k1; k2; k3], m) months.
Proof.
  unfold monthOf. intros H. apply lookup_In in H. unfold slice0 in H.
  assert (Hk : In (str (firstn 3 (chars p)), m) months) by exact H.
  set (k := str (firstn 3 (chars p))) in H.
  assert (Hlen : List.length (firstn 3 (chars p)) = 3%nat).
  { assert (Hc : firstn 3 (chars p) = chars k)
      by (subst k; now rewrite chars_str).
    clearbody k. unfold months in H. cbn [In] in H.
    repeat (destruct H as [H|H];
      [injection H as Hkey _; rewrite <- Hkey in Hc; now rewrite Hc|]).
    contradiction. }
  clear H k.
  destruct (chars p) as [|k1 [|k2 [|k3 tl]]]; try discriminate Hlen.
  exists k1, k2, k3, tl. split; [reflexivity|exact Hk].
Qed.

(** No month token begins like the name of a unit. *)
Lemma unitTail_month (p : string) (m : Z) (rest : list ascii) :
  monthOf p = Some m -> forall us, unitTail us (chars p ++ rest) = None.
Proof.
  intros H. destruct (monthOf_key p m H) as [k1 [k2 [k3 [tl [E Hin]]]]].
  rewrite E. clear E H.
  assert (Hlit : forall u, literal (chars (unitName u))
                             ((k1 :: k2 :: k3 :: tl) ++ rest) = None).
  { intros u. unfold months in Hin. cbn [In] in Hin.
    repeat (destruct Hin as [Hin|Hin];
      [inversion Hin; subst; destruct u; vm_compute; reflexivity|]).
    contradiction. }
  induction us as [|u us IH]; cbn [unitTail]; [reflexivity|].
  now rewrite Hlit.
Qed.

Lemma splitSpaces_restart (x : ascii) (rest : list ascii) :
  isSpace x = false ->
  splitSpaces true [] (x :: rest) = splitSpaces false [] (x :: rest).
Proof. intros H. cbn [splitSpaces]. now rewrite H. Qed.

(** Three tokens separated by white space. *)
Lemma split_three (t1 s1 t2 s2 t3 : list ascii) :
  forallb (fun c => negb (isSpace c)) t1 = true ->
  forallb (fun c => negb (isSpace c)) t2 = true ->
  forallb (fun c => negb (isSpace c)) t3 = true ->
  t2 <> [] -> t3 <> [] ->
  s1 <> [] -> forallb isSpace s1 = true ->
  s2 <> [] -> forallb isSpace s2 = true ->
  splitSpaces false [] (t1 ++ s1 ++ t2 ++ s2 ++ t3) = [str t1; str t2; str t3].
Proof.
  intros H1 H2 H3 N2 N3 Ns1 Hs1 Ns2 Hs2.
  rewrite (splitSpaces_first t1 s1 _ H1 Ns1 Hs1).
  destruct t2 as [|x t2]; [contradiction|].
  pose proof H2 as H2'. simpl in H2'. apply andb_true_iff in H2' as [Hx _].
  apply negb_true_iff in Hx.
  change ((x :: t2) ++ s2 ++ t3) with (x :: (t2 ++ s2 ++ t3)).
  rewrite (splitSpaces_restart x _ Hx).
  change (x :: (t2 ++ s2 ++ t3)) with ((x :: t2) ++ s2 ++ t3).
  rewrite (splitSpaces_first (x :: t2) s2 _ H2 Ns2 Hs2).
  destruct t3 as [|y t3]; [contradiction|].
  now rewrite (splitSpaces_last true y t3 H3).
Qed.

(** Day, month token, year. *)
Lemma day_month_year_input (ds sp1 w sp2 ys : string) (m : Z) :
  isDay ds = true -> isBlank sp1 = true -> isBlank sp2 = true ->
  isToken w = true -> monthOf (toUpperCase w) = Some m -> isYear ys = true ->
  (ds ++ sp1 ++ w ++ sp2 ++ ys)%string <> ""
  /\ relativeMatch (clean (ds ++ sp1 ++ w ++ sp2 ++ ys)%string) = None
  /\ fields (split (clean (ds ++ sp1 ++ w ++ sp2 ++ ys)%string))
     = {| day := Some (parseInt ds); month := Some m;
          year := Some (parseInt ys) |}.
Proof.
  intros Hds Hsp1 Hsp2 Hw Hm Hys.
  destruct (isDay_chars ds Hds) as [d [D [ED HD]]].
  destruct (isBlank_chars sp1 Hsp1) as [c1 [S1 [E1 H1]]].
  destruct (isBlank_chars sp2 Hsp2) as [c2 [S2 [E2 H2]]].
  destruct (isToken_chars w Hw) as [x [W [EW HW]]].
  destruct (isYear_chars ys Hys) as [y1 [y2 [y3 [y4 [EY HY]]]]].
  assert (Eraw : chars (ds ++ sp1 ++ w ++ sp2 ++ ys)%string
                 = chars ds ++ chars sp1 ++ chars w ++ chars sp2 ++ chars ys)
    by now rewrite !chars_app.
  assert (HWu : forallb (fun c => negb (isSpace c)) (map upperChar (chars w))
                = true).
  { apply no_space_upper_plain. now rewrite EW. }
  assert (EWu : map upperChar (chars w) = chars (toUpperCase w)).
  { unfold toUpperCase. now rewrite chars_str. }
  assert (Hclean : chars (clean (ds ++ sp1 ++ w ++ sp2 ++ ys)%string)
                   = chars ds ++ chars sp1 ++ map upperChar (chars w)
                     ++ chars sp2 ++ chars ys).
  { rewrite (clean_chars _ d y4 (D ++ chars sp1 ++ chars w ++ chars sp2
                                   ++ [y1; y2; y3])).
    - rewrite Eraw, !map_app.
      rewrite (upper_digits (chars ds)) by (rewrite ED; exact HD).
      rewrite (upper_digits (chars ys)) by (rewrite EY; exact HY).
      rewrite (upper_spaces (chars sp1)) by (rewrite E1; exact H1).
      now rewrite (upper_spaces (chars sp2)) by (rewrite E2; exact H2).
    - rewrite Eraw, ED, EY. simpl. now rewrite <- !app_assoc.
    - rewrite Eraw, !forallb_app.
      rewrite (no_comma_digits (chars ds)) by (rewrite ED; exact HD).
      rewrite (no_comma_digits (chars ys)) by (rewrite EY; exact HY).
      rewrite (no_comma_spaces (chars sp1)) by (rewrite E1; exact H1).
      rewrite (no_comma_spaces (chars sp2)) by (rewrite E2; exact H2).
      now rewrite (no_comma_plain (chars w)) by (rewrite EW; exact HW).
    - simpl in HD. apply andb_true_iff in HD as [Hd _].
      now apply digit_inv in Hd as [-> _].
    - cbn [forallb] in HY.
      repeat match goal with
             | H : _ && _ = true |- _ => apply andb_true_iff in H as [? H]
             end.
      match goal with
      | H : isDigit y4 = true |- _ => now apply digit_inv in H as [-> _]
      end. }
  assert (Hc1 : isDigit c1 = false).
  { simpl in H1. apply andb_true_iff in H1 as [Hc _].
    now apply space_inv in Hc as [-> _]. }
  split; [|split].
  - unfold chars in ED. destruct ds; discriminate.
  - unfold relativeMatch. rewrite Hclean.
    rewrite takeWhile_app, dropWhile_app;
      try (rewrite ED; exact HD);
      try (rewrite E1; simpl; rewrite Hc1; discriminate).
    rewrite ED at 1.
    assert (Hspaces : spaces (chars sp1 ++ map upperChar (chars w)
                              ++ chars sp2 ++ chars ys)
                      = Some (map upperChar (chars w) ++ chars sp2 ++ chars ys)).
    { unfold spaces. rewrite E1 at 1. cbn [app].
      pose proof H1 as H1'. simpl in H1'. apply andb_true_iff in H1' as [-> _].
      rewrite dropWhile_app; [reflexivity|now rewrite E1|].
      rewrite EW in *. simpl in *. apply andb_true_iff in HWu as [Hx _].
      apply negb_true_iff in Hx. rewrite Hx. discriminate. }
    rewrite Hspaces, EWu. now rewrite (unitTail_month _ m _ Hm).
  - unfold split. rewrite Hclean.
    rewrite split_three;
      [|apply no_space_digits; rewrite ED; exact HD
       |exact HWu
       |apply no_space_digits; rewrite EY; exact HY
       |rewrite EW; discriminate|rewrite EY; discriminate
       |rewrite E1; discriminate|rewrite E1; exact H1
       |rewrite E2; discriminate|rewrite E2; exact H2].
    rewrite !str_chars. fold (toUpperCase w).
    unfold fields, yearOf. now rewrite Hds, Hys, Hm.
Qed.

(** Month token, day, an optional comma, year. *)
Lemma month_day_year_input (w sp1 ds comma sp2 ys : string) (m : Z) :
  isDay ds = true -> isBlank sp1 = true -> isBlank sp2 = true ->
  isToken w = true -> monthOf (toUpperCase w) = Some m -> isYear ys = true ->
  comma = "" \/ comma = "," ->
  (w ++ sp1 ++ ds ++ comma ++ sp2 ++ ys)%string <> ""
  /\ relativeMatch (clean (w ++ sp1 ++ ds ++ comma ++ sp2 ++ ys)%string) = None
  /\ fields (split (clean (w ++ sp1 ++ ds ++ comma ++ sp2 ++ ys)%string))
     = {| day := Some (parseInt ds); month := Some m;
          year := Some (parseInt ys) |}.
Proof.
  intros Hds Hsp1 Hsp2 Hw Hm Hys Hcomma.
  destruct (isDay_chars ds Hds) as [d [D [ED HD]]].
  destruct (isBlank_chars sp1 Hsp1) as [c1 [S1 [E1 H1]]].
  destruct (isBlank_chars sp2 Hsp2) as [c2 [S2 [E2 H2]]].
  destruct (isToken_chars w Hw) as [x [W [EW HW]]].
  destruct (isYear_chars ys Hys) as [y1 [y2 [y3 [y4 [EY HY]]]]].
  destruct (monthOf_inv _ _ Hm) as [_ [ux [Wu [EWu Hux]]]].
  assert (EWu' : map upperChar (chars w) = ux :: Wu).
  { rewrite <- EWu. unfold toUpperCase. now rewrite chars_str. }
  assert (Hfilter : filter (fun c => negb (Ascii.eqb c ","))
                      (chars (w ++ sp1 ++ ds ++ comma ++ sp2 ++ ys)%string)
                    = chars w ++ chars sp1 ++ chars ds ++ chars sp2 ++ chars ys).
  { rewrite !chars_app, !filter_app.
    rewrite (filter_all _ (chars w))
      by (apply no_comma_plain; rewrite EW; exact HW).
    rewrite (filter_all _ (chars sp1))
      by (apply no_comma_spaces; rewrite E1; exact H1).
    rewrite (filter_all _ (chars ds))
      by (apply no_comma_digits; rewrite ED; exact HD).
    rewrite (filter_all _ (chars sp2))
      by (apply no_comma_spaces; rewrite E2; exact H2).
    rewrite (filter_all _ (chars ys))
      by (apply no_comma_digits; rewrite EY; exact HY).
    destruct Hcomma as [->| ->]; reflexivity. }
  assert (Hclean : chars (clean (w ++ sp1 ++ ds ++ comma ++ sp2 ++ ys)%string)
                   = (ux :: Wu) ++ chars sp1 ++ chars ds ++ chars sp2 ++ chars ys).
  { rewrite (clean_filtered _ x y4 (W ++ chars sp1 ++ chars ds ++ chars sp2
                                      ++ [y1; y2; y3])).
    - replace (x :: (W ++ chars sp1 ++ chars ds ++ chars sp2 ++ [y1; y2; y3])
                 ++ [y4])
        with (chars w ++ chars sp1 ++ chars ds ++ chars sp2 ++ chars ys)
        by (rewrite EW, EY; simpl; now rewrite <- !app_assoc).
      rewrite !map_app, EWu'.
      rewrite (upper_digits (chars ds)) by (rewrite ED; exact HD).
      rewrite (upper_digits (chars ys)) by (rewrite EY; exact HY).
      rewrite (upper_spaces (chars sp1)) by (rewrite E1; exact H1).
      now rewrite (upper_spaces (chars sp2)) by (rewrite E2; exact H2).
    - rewrite Hfilter, EW, EY. simpl. now rewrite <- !app_assoc.
    - simpl in HW. apply andb_true_iff in HW as [Hx _].
      now apply plain_inv in Hx as [-> _].
    - cbn [forallb] in HY.
      repeat match goal with
             | H : _ && _ = true |- _ => apply andb_true_iff in H as [? H]
             end.
      match goal with
      | H : isDigit y4 = true |- _ => now apply digit_inv in H as [-> _]
      end. }
  assert (HWu : forallb (fun c => negb (isSpace c)) (ux :: Wu) = true).
  { rewrite <- EWu'. apply no_space_upper_plain. now rewrite EW. }
  split; [|split].
  - unfold chars in EW. destruct w; discriminate.
  - unfold relativeMatch. rewrite Hclean. cbn [app takeWhile].
    now rewrite Hux.
  - unfold split. rewrite Hclean.
    rewrite split_three;
      [|exact HWu
       |apply no_space_digits; rewrite ED; exact HD
       |apply no_space_digits; rewrite EY; exact HY
       |rewrite ED; discriminate|rewrite EY; discriminate
       |rewrite E1; discriminate|rewrite E1; exact H1
       |rewrite E2; discriminate|rewrite E2; exact H2].
    rewrite !str_chars.
    assert (Eup : str (ux :: Wu) = toUpperCase w).
    { unfold toUpperCase. now rewrite EWu'. }
    rewrite Eup. unfold fields, yearOf.
    assert (Hnd : isDay (toUpperCase w) = false).
    { unfold isDay, allDigits. rewrite EWu. simpl. now rewrite Hux. }
    now rewrite Hnd, Hds, Hys, Hm.
Qed.

Lemma isoDateOfDay_length (d : Z) :
  0 <= YearFromDay d <= 9999 -> String.length (isoDateOfDay d) = 10%nat.
Proof.
  intros Hy.
  destruct (isoDateOfDay_chars d Hy)
    as [y1 [y2 [y3 [y4 [m1 [m2 [d1 [d2 [Hc _]]]]]]]]].
  now rewrite <- length_chars, Hc.
Qed.

(** A day that exists, with a year from 100 to 9999: the long form shows the
    day, the month and the year that were found. *)
Lemma midnight_outcome (tz : Z) (raw : Value) (y m d : Z) :
  zoneOffset tz ->
  100 <= y <= 9999 -> 0 <= m <= 11 -> 1 <= d <= daysInMonth (isLeap y) m ->
  finishAbsolute tz raw (Some (newDate tz y m d))
  = Returns {| full := VString (decimal d ++ " " ++ monthName m ++ " "
                                ++ decimal y)%string;
               iso := Some (isoDateOfDay (if 0 <? tz then MakeDay y m d - 1
                                          else MakeDay y m d)) |}.
Proof.
  intros Htz Hy Hm Hd.
  rewrite newDate_midnight
    by (apply andb_false_iff; right; apply Z.leb_gt; lia).
  destruct (MakeDay_inverse y m d Hm Hd) as [HY [HM HD]].
  pose proof (YearFromDay_spec (MakeDay y m d)) as Hspec. rewrite HY in Hspec.
  pose proof (year_length (y - 1)) as Hprev.
  replace (y - 1 + 1) with y in Hprev by lia. unfold DaysInYear in Hprev.
  assert (Hbound : -99999999 <= MakeDay y m d <= 99999999).
  { revert Hspec. generalize (MakeDay y m d). intros D Hspec.
    unfold DayFromYear in Hspec. Z.div_mod_to_equations. lia. }
  assert (Hyear : 0 <= YearFromDay (if 0 <? tz then MakeDay y m d - 1
                                    else MakeDay y m d) <= 9999).
  { destruct (0 <? tz); [|lia].
    pose proof (YearFromDay_bounds (y - 1) y (MakeDay y m d - 1)) as Hb.
    destruct (isLeap (y - 1)); lia. }
  rewrite finishAbsolute_midnight; [|exact Htz|exact Hbound|].
  - unfold longDateOfDay. rewrite HY, HM, HD.
    replace (y <=? 0) with false by (symmetry; apply Z.leb_gt; lia).
    destruct (0 <? tz); reflexivity.
  - destruct (0 <? tz); now apply isoDateOfDay_length.
Qed.

Lemma explicit_date_outcome (tz now : Z) (dateParse : string -> option Z)
    (r : string) (y m d : Z) :
  zoneOffset tz -> r <> "" -> relativeMatch (clean r) = None ->
  fields (split (clean r))
  = {| day := Some d; month := Some m; year := Some y |} ->
  100 <= y <= 9999 -> 0 <= m <= 11 -> 1 <= d <= daysInMonth (isLeap y) m ->
  normalizeDate tz now dateParse (VString r)
  = Returns {| full := VString (decimal d ++ " " ++ monthName m ++ " "
                                ++ decimal y)%string;
               iso := Some (isoDateOfDay (if 0 <? tz then MakeDay y m d - 1
                                          else MakeDay y m d)) |}.
Proof.
  intros Htz Hr Hrel Hf Hy Hm Hd.
  rewrite (explicit_year_outcome tz now dateParse r y m d Hr Hrel Hf)
    by (simpl; apply Z.eqb_neq; lia).
  now apply midnight_outcome.
Qed.

(** X7.  A date written as month, day and year (with or without the comma
    after the day, as in "Jan 15, 2024") or as day, month and year, with a
    day that exists in that month and a year from 0100 to 9999, is given
    back as that day, the full name of that month and that year; the ISO
    date is that same date on a host at or west of UTC. *)
Theorem written_date (tz now : Z) (dateParse : string -> option Z)
    (ds sp1 w sp2 ys comma : string) (m : Z) :
  zoneOffset tz ->
  isDay ds = true -> isBlank sp1 = true -> isBlank sp2 = true ->
  isToken w = true -> monthOf (toUpperCase w) = Some m -> isYear ys = true ->
  comma = "" \/ comma = "," ->
  100 <= parseInt ys ->
  1 <= parseInt ds <= daysInMonth (isLeap (parseInt ys)) m ->
  let out :=
    Returns {| full := VString (decimal (parseInt ds) ++ " " ++ monthName m
                                ++ " " ++ decimal (parseInt ys))%string;
               iso := Some (if 0 <? tz
                            then isoDateOfDay
                                   (MakeDay (parseInt ys) m (parseInt ds) - 1)
                            else (pad 4 (parseInt ys) ++ "-" ++ pad 2 (m + 1)
                                  ++ "-" ++ pad 2 (parseInt ds))%string) |} in
  normalizeDate tz now dateParse
    (VString (w ++ sp1 ++ ds ++ comma ++ sp2 ++ ys)%string) = out
  /\ normalizeDate tz now dateParse
       (VString (ds ++ sp1 ++ w ++ sp2 ++ ys)%string) = out.
Proof.
  intros Htz Hds Hsp1 Hsp2 Hw Hm Hys Hcomma Hy Hd. cbv zeta.
  pose proof (isYear_range ys Hys) as Hyr.
  destruct (monthOf_inv _ _ Hm) as [Hmr _].
  destruct (MakeDay_inverse (parseInt ys) m (parseInt ds) Hmr Hd)
    as [HY [HM HD]].
  assert (Hiso : (if 0 <? tz
                  then isoDateOfDay (MakeDay (parseInt ys) m (parseInt ds) - 1)
                  else (pad 4 (parseInt ys) ++ "-" ++ pad 2 (m + 1) ++ "-"
                        ++ pad 2 (parseInt ds))%string)
                 = isoDateOfDay (if 0 <? tz
                                 then MakeDay (parseInt ys) m (parseInt ds) - 1
                                 else MakeDay (parseInt ys) m (parseInt ds))).
  { destruct (0 <? tz); [reflexivity|].
    unfold isoDateOfDay, isoYear. rewrite HY, HM, HD.
    replace ((0 <=? parseInt ys) && (parseInt ys <=? 9999)) with true
      by (symmetry; apply andb_true_iff; split; apply Z.leb_le; lia).
    reflexivity. }
  rewrite Hiso. split.
  - destruct (month_day_year_input w sp1 ds comma sp2 ys m
                Hds Hsp1 Hsp2 Hw Hm Hys Hcomma) as [Hne [Hrel Hf]].
    apply explicit_date_outcome; try assumption; lia.
  - destruct (day_month_year_input ds sp1 w sp2 ys m
                Hds Hsp1 Hsp2 Hw Hm Hys) as [Hne [Hrel Hf]].
    apply explicit_date_outcome; try assumption; lia.
Qed.

Lemma written_date_witness :
  normalizeDate 0 0 (fun _ => None)
    (VString ("Jan" ++ " " ++ "15" ++ "," ++ " " ++ "2024")%string)
  = Returns {| full := VString (decimal (parseInt "15") ++ " " ++ monthName 0
                                ++ " " ++ decimal (parseInt "2024"))%string;
               iso := Some (if 0 <? 0
                            then isoDateOfDay
                                   (MakeDay (parseInt "2024") 0 (parseInt "15") - 1)
                            else (pad 4 (parseInt "2024") ++ "-" ++ pad 2 (0 + 1)
                                  ++ "-" ++ pad 2 (parseInt "15"))%string) |}.
Proof.
  exact (proj1 (written_date 0 0 (fun _ => None) "15" " " "Jan" " " "2024" "," 0
                  ltac:(unfold zoneOffset; lia)
                  ltac:(vm_compute; reflexivity) ltac:(vm_compute; reflexivity)
                  ltac:(vm_compute; reflexivity) ltac:(vm_compute; reflexivity)
                  ltac:(vm_compute; reflexivity) ltac:(vm_compute; reflexivity)
                  ltac:(right; reflexivity)
                  ltac:(vm_compute; discriminate)
                  ltac:(vm_compute; split; discriminate))).
Defined.

(** X17.  A year written with four digits of which the first two are zero
    is not taken as written: "0000" counts as no year at all, so that the
    year is inferred from the clock, and "0001" to "0099" become 1901 to
    1999, as [new Date(year, month, day)] has it. *)
Theorem short_year_written (tz now : Z) (dateParse : string -> option Z)
    (ds sp1 w sp2 ys : string) (m : Z) :
  zoneOffset tz ->
  isDay ds = true -> isBlank sp1 = true -> isBlank sp2 = true ->
  isToken w = true -> monthOf (toUpperCase w) = Some m -> isYear ys = true ->
  parseInt ys <= 99 ->
  let raw := VString (ds ++ sp1 ++ w ++ sp2 ++ ys)%string in
  let y := 1900 + parseInt ys in
  (parseInt ys = 0 ->
   normalizeDate tz now dateParse raw
   = finishAbsolute tz raw (Some (inferYear tz now m (parseInt ds))))
  /\ (1 <= parseInt ys ->
      1 <= parseInt ds <= daysInMonth (isLeap y) m ->
      normalizeDate tz now dateParse raw
      = Returns {| full := VString (decimal (parseInt ds) ++ " "
                                    ++ monthName m ++ " " ++ decimal y)%string;
                   iso := Some (isoDateOfDay
                                  (if 0 <? tz
                                   then MakeDay y m (parseInt ds) - 1
                                   else MakeDay y m (parseInt ds))) |}).
Proof.
  intros Htz Hds Hsp1 Hsp2 Hw Hm Hys Hsmall. cbv zeta.
  pose proof (isYear_range ys Hys) as Hyr.
  destruct (monthOf_inv _ _ Hm) as [Hmr _].
  destruct (day_month_year_input ds sp1 w sp2 ys m
              Hds Hsp1 Hsp2 Hw Hm Hys) as [Hne [Hrel Hf]].
  split.
  - intros H0. rewrite (normalizeDate_absolute tz now dateParse _ _ Hne Hrel Hf).
    unfold resolve, inferYear. cbn [month day year noYear]. rewrite H0.
    cbn [Z.eqb andb].
    now destruct (isAfter now (newDate tz (getFullYear tz now) m (parseInt ds))).
  - intros H1 Hd.
    rewrite (explicit_year_outcome tz now dateParse _ _ _ _ Hne Hrel Hf)
      by (cbn [noYear]; apply Z.eqb_neq; lia).
    assert (Hnew : newDate tz (parseInt ys) m (parseInt ds)
                   = newDate tz (1900 + parseInt ys) m (parseInt ds)).
    { unfold newDate.
      replace ((0 <=? parseInt ys) && (parseInt ys <=? 99)) with true
        by (symmetry; apply andb_true_iff; split; apply Z.leb_le; lia).
      replace ((0 <=? 1900 + parseInt ys) && (1900 + parseInt ys <=? 99))
        with false
        by (symmetry; apply andb_false_iff; right; apply Z.leb_gt; lia).
      reflexivity. }
    rewrite Hnew. apply midnight_outcome; [exact Htz|lia|exact Hmr|exact Hd].
Qed.

Lemma short_year_written_witness :
  normalizeDate 0 0 (fun _ => None) (VString "14 Nov 0024")
  = Returns {| full := VString "14 November 1924"; iso := Some "1924-11-14" |}.
Proof.
  apply (proj2 (short_year_written 0 0 (fun _ => None) "14" " " "Nov" " " "0024"
                  10
                  ltac:(unfold zoneOffset; lia)
                  ltac:(vm_compute; reflexivity) ltac:(vm_compute; reflexivity)
                  ltac:(vm_compute; reflexivity) ltac:(vm_compute; reflexivity)
                  ltac:(vm_compute; reflexivity) ltac:(vm_compute; reflexivity)
                  ltac:(vm_compute; discriminate)));
    vm_compute; [discriminate|split; discriminate].
Defined.

Lemma dayText_ok (v : Z) : 0 <= v <= 31 -> dayText v = true.
Proof.
  intros Hv. apply (all_upTo dayText (Z.to_nat 32)); [vm_compute; reflexivity|lia].
Qed.

Lemma yearText_ok (y : Z) : 0 <= y <= 9999 -> yearText y = true.
Proof.
  intros Hy.
  apply (all_upTo yearText (Z.to_nat 10000)); [vm_compute; reflexivity|lia].
Qed.

Lemma monthText_ok (m : Z) : 0 <= m <= 11 -> monthText m = true.
Proof.
  intros Hm.
  apply (all_upTo monthText (Z.to_nat 12)); [vm_compute; reflexivity|lia].
Qed.

(** X8.  The long form is a fixed point: for every day of the years 1000 to
    9999, the text [normalizeDate] writes for that day is read back as that
    same day, so normalizing a record a second time leaves its date as it
    is. *)
Theorem long_form_fixed_point (tz now : Z) (dateParse : string -> option Z)
    (d : Z) :
  zoneOffset tz -> 1000 <= YearFromDay d <= 9999 ->
  normalizeDate tz now dateParse (VString (longDateOfDay d))
  = Returns {| full := VString (longDateOfDay d);
               iso := Some (isoDateOfDay (if 0 <? tz then d - 1 else d)) |}.
Proof.
  intros Htz Hy.
  pose proof (MonthFromDay_range d) as Hm.
  pose proof (DateFromDay_range d) as Hd.
  pose proof (daysInMonth_range (leapOfDay d) (MonthFromDay d)) as Hl.
  pose proof (MakeDay_fields d) as Hmk.
  pose proof (dayText_ok (DateFromDay d) ltac:(lia)) as Hdt.
  pose proof (yearText_ok (YearFromDay d) ltac:(lia)) as Hyt.
  pose proof (monthText_ok (MonthFromDay d) Hm) as Hmt.
  unfold dayText in Hdt. apply andb_true_iff in Hdt as [Hdt Hdtok].
  apply andb_true_iff in Hdt as [Hday Hdv]. apply Z.eqb_eq in Hdv.
  unfold yearText in Hyt. apply orb_true_iff in Hyt as [Hyt|Hyt];
    [apply Z.ltb_lt in Hyt; lia|].
  apply andb_true_iff in Hyt as [Hyear Hyv]. apply Z.eqb_eq in Hyv.
  unfold monthText in Hmt. apply andb_true_iff in Hmt as [Hmtok Hmv].
  destruct (monthOf (toUpperCase (monthName (MonthFromDay d)))) as [k|] eqn:Hk;
    [|discriminate]. apply Z.eqb_eq in Hmv. subst k.
  assert (Hlong : longDateOfDay d
                  = (decimal (DateFromDay d) ++ " "
                     ++ monthName (MonthFromDay d) ++ " "
                     ++ decimal (YearFromDay d))%string).
  { unfold longDateOfDay.
    replace (YearFromDay d <=? 0) with false
      by (symmetry; apply Z.leb_gt; lia).
    reflexivity. }
  rewrite Hlong at 1.
  destruct (day_month_year_input (decimal (DateFromDay d)) " "
              (monthName (MonthFromDay d)) " " (decimal (YearFromDay d))
              (MonthFromDay d) Hday eq_refl eq_refl Hmtok Hk Hyear)
    as [Hne [Hrel Hf]].
  rewrite Hdv, Hyv in Hf.
  rewrite (explicit_date_outcome tz now dateParse _ _ _ _ Htz Hne Hrel Hf);
    [|lia|exact Hm|exact Hd].
  now rewrite Hmk, Hlong.
Qed.

Lemma long_form_fixed_point_witness :
  normalizeDate 0 0 (fun _ => None) (VString (longDateOfDay 20041))
  = Returns {| full := VString (longDateOfDay 20041);
               iso := Some (isoDateOfDay (if 0 <? 0 then 20041 - 1 else 20041)) |}.
Proof.
  apply (long_form_fixed_point 0 0 (fun _ => None) 20041);
    [unfold zoneOffset; lia|vm_compute; split; discriminate].
Defined.

Lemma slice_sign (a b c : string) :
  exists r, slice0 10 ((("-" ++ a) ++ b) ++ c)%string = String "-" r.
Proof.
  unfold slice0, chars, str.
  cbn [append list_ascii_of_string firstn string_of_list_ascii].
  eexists. reflexivity.
Qed.

Lemma isIsoDate_sign (r : string) : isIsoDate (String "-" r) = false.
Proof.
  unfold isIsoDate, chars. cbn [list_ascii_of_string].
  destruct (list_ascii_of_string r)
    as [|y2 [|y3 [|y4 [|h1 [|m1 [|m2 [|h2 [|d1 [|d2 [|]]]]]]]]]];
    reflexivity.
Qed.

(** X9.  A relative date in years that reaches before the year 0 is
    returned with an ISO date that is no date: it starts with the sign of
    the expanded year of [toISOString] and stops in the middle of the month.
    From 1970 to 2100 that is every amount from 2102 to 270000 years. *)
Theorem far_past_iso (tz now : Z) (dateParse : string -> option Z)
    (ds sp1 w sp2 ago : string) :
  zoneOffset tz -> 0 <= now <= 4102444800000 ->
  isNumber ds = true -> isBlank sp1 = true -> isBlank sp2 = true ->
  namesUnit w YEAR -> toUpperCase ago = "AGO" ->
  2102 <= parseInt ds <= 270000 ->
  exists f i,
    normalizeDate tz now dateParse
      (VString (ds ++ sp1 ++ w ++ sp2 ++ ago)%string)
    = Returns {| full := VString f; iso := Some i |}
    /\ isIsoDate i = false
    /\ exists r, i = String "-" r.
Proof.
  intros Htz Hnow Hds Hsp1 Hsp2 Hw Hago Hn. unfold zoneOffset in Htz.
  rewrite (normalizeDate_relative tz now dateParse _ (parseInt ds) YEAR);
    [|unfold isNumber, chars in Hds; destruct ds; discriminate
     |now apply relativeMatch_input].
  generalize dependent (parseInt ds). intros n Hn.
  rewrite subtract_year. cbv zeta.
  unfold YearFromTime, MonthFromTime, DateFromTime.
  set (l := LocalTime tz now).
  assert (Hl : l = now + tz * 60000) by reflexivity. clearbody l.
  pose proof (DateFromDay_range (Day l)) as HD.
  pose proof (daysInMonth_range (leapOfDay (Day l)) (MonthFromDay (Day l))) as HL.
  pose proof (monthStart_range (isLeap (YearFromDay (Day l) - n))
                (MonthFromDay (Day l))) as Hms.
  assert (Hdt : 1 <= DateFromDay (Day l) <= 31) by lia. clear HD HL.
  set (ms := monthStart (isLeap (YearFromDay (Day l) - n))
               (MonthFromDay (Day l))) in *.
  set (dt := DateFromDay (Day l)) in *. clearbody ms dt.
  assert (HYr : 1969 <= YearFromDay (Day l) <= 2100).
  { assert (-1 <= Day l <= 47483)
      by (unfold Day, msPerDay; Z.div_mod_to_equations; lia).
    split.
    - pose proof (YearFromDay_bounds 1969 9999 (Day l)) as Hb.
      apply Hb.
      pose proof (DayFromYear_mono 2101 (9999 + 1) ltac:(lia)) as Hmono.
      assert (DayFromYear 1969 = -365) by reflexivity.
      assert (DayFromYear 2101 = 47847) by reflexivity. lia.
    - pose proof (YearFromDay_bounds (-1) 2100 (Day l)) as Hb.
      apply Hb. split.
      + pose proof (DayFromYear_mono (-1) 1969 ltac:(lia)) as Hmono.
        assert (DayFromYear 1969 = -365) by reflexivity. lia.
      + assert (DayFromYear (2100 + 1) = 47847) by reflexivity. lia. }
  set (Y := YearFromDay (Day l)) in *. clearbody Y.
  set (x := UTC tz (MakeDate (DayFromYear (Y - n) + ms + dt - 1)
                      (TimeWithinDay l))).
  assert (Hlow : DayFromYear (-268031) <= DayFromYear (Y - n))
    by (apply DayFromYear_mono; lia).
  assert (Hhigh : DayFromYear (Y - n) <= DayFromYear (-2))
    by (apply DayFromYear_mono; lia).
  assert (El : DayFromYear (-268031) = -98615840) by reflexivity.
  assert (Eh : DayFromYear (-2) = -720258) by reflexivity.
  assert (Hw' : 0 <= TimeWithinDay l < msPerDay)
    by (unfold TimeWithinDay; apply Z.mod_pos_bound; reflexivity).
  assert (Hx : -98615840 * msPerDay - msPerDay <= x
               < (-720258 + 366) * msPerDay + 2 * msPerDay).
  { unfold x, UTC, MakeDate, msPerDay, msPerMinute in *. fixed_offset. lia. }
  clearbody x. clear Hlow Hhigh Hw'.
  assert (Hclip : TimeClip x = Some x).
  { unfold TimeClip.
    replace (Z.abs x <=? 8640000000000000) with true; [reflexivity|].
    symmetry. apply Z.leb_le. unfold msPerDay in Hx. lia. }
  rewrite Hclip. unfold finishRelative.
  assert (Hyear : YearFromDay (Day x) < 0).
  { assert (HDx : Day x < DayFromYear 0).
    { assert (DayFromYear 0 = -719528) by reflexivity.
      unfold Day, msPerDay in *. Z.div_mod_to_equations. lia. }
    pose proof (YearFromDay_spec (Day x)) as [Hs _].
    destruct (Z_lt_le_dec (YearFromDay (Day x)) 0) as [|Hge]; [assumption|].
    pose proof (DayFromYear_mono 0 (YearFromDay (Day x)) Hge). lia. }
  assert (Hiso : exists r, slice0 10 (isoString x) = String "-" r).
  { assert (Hyr : isoYear (YearFromDay (Day x))
                   = ("-" ++ pad 6 (Z.abs (YearFromDay (Day x))))%string).
    { unfold isoYear.
      replace ((0 <=? YearFromDay (Day x)) && (YearFromDay (Day x) <=? 9999))
        with false
        by (symmetry; apply andb_false_iff; left; apply Z.leb_gt; lia).
      replace (YearFromDay (Day x) <? 0) with true
        by (symmetry; apply Z.ltb_lt; lia).
      reflexivity. }
    unfold isoString, isoDateOfDay. rewrite Hyr. apply slice_sign. }
  destruct Hiso as [r Hr]. eexists. exists (String "-" r).
  split; [now rewrite Hr|]. split; [apply isIsoDate_sign|now exists r].
Qed.

Lemma far_past_iso_witness :
  exists f i,
    normalizeDate 0 1704844800000 (fun _ => None)
      (VString ("3000" ++ " " ++ "years" ++ " " ++ "ago")%string)
    = Returns {| full := VString f; iso := Some i |}
    /\ isIsoDate i = false
    /\ exists r, i = String "-" r.
Proof.
  apply (far_past_iso 0 1704844800000 (fun _ => None) "3000" " " "years" " " "ago");
    try (vm_compute; reflexivity).
  - unfold zoneOffset. lia.
  - lia.
  - right. vm_compute. reflexivity.
  - vm_compute. split; discriminate.
Defined.

Lemma TimeClip_valid (x t : Z) :
  TimeClip x = Some t -> Z.abs t <= 8640000000000000.
Proof.
  unfold TimeClip. destruct (Z.abs x <=? 8640000000000000) eqn:E;
    [|discriminate]. intros [= <-]. now apply Z.leb_le.
Qed.

Lemma subtract_clip (tz now : Z) (u : Unit) (n : Z) :
  exists x, subtract tz now u n = TimeClip x.
Proof.
  destruct u; unfold subtract, setSeconds, setMinutes, setHours, setDate,
    setMonth, setFullYear; eexists; reflexivity.
Qed.

Lemma resolve_clip (tz now : Z) (dateParse : string -> option Z)
    (f : Fields) (s : string) (d : Date) :
  resolve tz now dateParse f s = Some d -> exists x, d = TimeClip x.
Proof.
  unfold resolve, newDate.
  destruct (month f) as [m|]; [destruct (day f) as [dd|]|].
  - destruct (noYear (year f) && _); intros [= <-]; eexists; reflexivity.
  - destruct (dateParse s); [|discriminate]. intros [= <-]. eexists. reflexivity.
  - destruct (dateParse s); [|discriminate]. intros [= <-]. eexists. reflexivity.
Qed.

(** X10.  What a call returns is either the input given back with a null ISO
    date, or the long form and the ISO date of one valid instant: the long
    form is the day of that instant on the host, the ISO date its day in
    UTC, which is the same day on a host at UTC and at most one day away
    otherwise.  The text "Invalid Date" is never paired with an ISO date. *)
Theorem date_and_iso (tz now : Z) (dateParse : string -> option Z)
    (raw : Value) (out : Normalized) :
  zoneOffset tz ->
  normalizeDate tz now dateParse raw = Returns out ->
  (full out = raw /\ iso out = None)
  \/ exists t,
       Z.abs t <= 8640000000000000
       /\ full out = VString (longDateOfDay (Day (LocalTime tz t)))
       /\ iso out = Some (slice0 10 (isoString t))
       /\ Day t - 1 <= Day (LocalTime tz t) <= Day t + 1
       /\ (tz = 0 -> Day (LocalTime tz t) = Day t).
Proof.
  intros Htz Hout. unfold zoneOffset in Htz.
  assert (Hright : forall t x, TimeClip x = Some t ->
            out = {| full := VString (longDate (LocalTime tz t));
                     iso := Some (slice0 10 (isoString t)) |} ->
            exists t,
              Z.abs t <= 8640000000000000
              /\ full out = VString (longDateOfDay (Day (LocalTime tz t)))
              /\ iso out = Some (slice0 10 (isoString t))
              /\ Day t - 1 <= Day (LocalTime tz t) <= Day t + 1
              /\ (tz = 0 -> Day (LocalTime tz t) = Day t)).
  { intros t x Hx ->. exists t. split; [exact (TimeClip_valid x t Hx)|].
    split; [reflexivity|]. split; [reflexivity|]. split.
    - unfold Day, LocalTime, msPerDay, msPerMinute. fixed_offset.
      Z.div_mod_to_equations. lia.
    - intros ->. unfold LocalTime. fixed_offset.
      now rewrite Z.mul_0_l, Z.add_0_r. }
  destruct raw as [| | | |r];
    try (injection Hout as <-; left; split; reflexivity).
  destruct r as [|c r]; [injection Hout as <-; left; split; reflexivity|].
  unfold normalizeDate in Hout. cbv zeta in Hout.
  destruct (relativeMatch (clean (String c r))) as [[n u]|].
  - destruct (subtract_clip tz now u n) as [x Hx].
    unfold finishRelative in Hout.
    destruct (subtract tz now u n) as [t|]; [|discriminate].
    injection Hout as <-. right. apply (Hright t x); [now rewrite Hx|reflexivity].
  - unfold finishAbsolute in Hout.
    destruct (resolve tz now dateParse _ _) as [[t|]|] eqn:E.
    + destruct (resolve_clip _ _ _ _ _ _ E) as [x Hx].
      injection Hout as <-. right. apply (Hright t x); [now rewrite Hx|reflexivity].
    + injection Hout as <-. left. split; reflexivity.
    + injection Hout as <-. left. split; reflexivity.
Qed.

Lemma date_and_iso_witness :
  (full {| full := VString "8 January 2024"; iso := Some "2024-01-08" |}
   = VString "2 days ago"
   /\ iso {| full := VString "8 January 2024"; iso := Some "2024-01-08" |}
      = None)
  \/ exists t,
       Z.abs t <= 8640000000000000
       /\ full {| full := VString "8 January 2024"; iso := Some "2024-01-08" |}
          = VString (longDateOfDay (Day (LocalTime 0 t)))
       /\ iso {| full := VString "8 January 2024"; iso := Some "2024-01-08" |}
          = Some (slice0 10 (isoString t))
       /\ Day t - 1 <= Day (LocalTime 0 t) <= Day t + 1
       /\ (0 = 0 -> Day (LocalTime 0 t) = Day t).
Proof.
  apply (date_and_iso 0 1704844800000 (fun _ => None) (VString "2 days ago"));
    [unfold zoneOffset; lia|vm_compute; reflexivity].
Defined.

End WrittenDates.

(** ** The search URL *)

Section UrlFacts.

Import Text Url.

Lemma unreserved_not_percent (c : ascii) :
  isUnreserved c = true -> Ascii.eqb c "%" = false.
Proof.
  destruct c as [[] [] [] [] [] [] [] []]; vm_compute; intros H;
    (discriminate H || reflexivity).
Qed.

Lemma hex_byte (c : ascii) :
  ascii_of_nat (16 * hexValue (hexDigit (nat_of_ascii c / 16))
                + hexValue (hexDigit (nat_of_ascii c mod 16))) = c.
Proof.
  destruct c as [[] [] [] [] [] [] [] []]; vm_compute; reflexivity.
Qed.

Lemma decode_encodeChar (c : ascii) (rest : list ascii) :
  decode (encodeChar c ++ rest) = c :: decode rest.
Proof.
  unfold encodeChar. destruct (isUnreserved c) eqn:E.
  - cbn [app decode]. now rewrite (unreserved_not_percent c E).
  - unfold percent. cbn [app decode]. rewrite Ascii.eqb_refl.
    now rewrite hex_byte.
Qed.

Lemma decode_encode (l : list ascii) : decode (flat_map encodeChar l) = l.
Proof.
  induction l as [|c l IH]; [reflexivity|].
  cbn [flat_map]. now rewrite decode_encodeChar, IH.
Qed.

Lemma encodeChar_safe (c : ascii) : forallb urlSafe (encodeChar c) = true.
Proof.
  destruct c as [[] [] [] [] [] [] [] []]; vm_compute; reflexivity.
Qed.

Lemma chars_inj (a b : string) : chars a = chars b -> a = b.
Proof.
  intros H. rewrite <- (str_chars a), <- (str_chars b). now rewrite H.
Qed.

(** X11.  The encoding of the search term can be read back, byte for byte,
    so two search terms never give the same search URL. *)
Theorem search_url_injective :
  (forall s, decode (chars (encodeURIComponent s)) = chars s)
  /\ (forall a b, encodeURIComponent a = encodeURIComponent b -> a = b)
  /\ (forall a b, a <> "" -> b <> "" ->
        searchUrl (Some {| searchTerm := Some a; totalEpisodes := None |})
        = searchUrl (Some {| searchTerm := Some b; totalEpisodes := None |}) ->
        a = b).
Proof.
  assert (Hdec : forall s, decode (chars (encodeURIComponent s)) = chars s).
  { intros s. unfold encodeURIComponent. rewrite chars_str. apply decode_encode. }
  assert (Hinj : forall a b, encodeURIComponent a = encodeURIComponent b -> a = b).
  { intros a b H. apply chars_inj. rewrite <- (Hdec a), <- (Hdec b). now rewrite H. }
  split; [exact Hdec|]. split; [exact Hinj|].
  intros a b Ha Hb H. unfold searchUrl in H.
  assert (Ea : termOf (Some {| searchTerm := Some a; totalEpisodes := None |}) = a)
    by (destruct a; [contradiction|reflexivity]).
  assert (Eb : termOf (Some {| searchTerm := Some b; totalEpisodes := None |}) = b)
    by (destruct b; [contradiction|reflexivity]).
  rewrite Ea, Eb in H. apply Hinj. apply chars_inj.
  apply (f_equal chars) in H. rewrite !chars_app in H.
  now apply app_inv_head in H.
Qed.

Lemma search_url_injective_witness :
  "Giva jewellery" = "Giva jewellery".
Proof.
  apply (proj2 (proj2 search_url_injective) "Giva jewellery" "Giva jewellery");
    [discriminate|discriminate|reflexivity].
Defined.

(** X12.  The search term in the URL is made of unreserved characters and
    percent signs only: no space, [&], [=], [#], [?], [/] or [+] of the term
    reaches the URL, a space becoming [%20]; a missing or empty term is
    replaced by "Giva" and a missing or zero count by 50. *)
Theorem search_url_safe (input : Input) :
  forallb urlSafe (chars (encodeURIComponent (termOf input))) = true
  /\ (forall c, In c (chars (encodeURIComponent (termOf input))) ->
        ~ In c (chars " &=#?/+"))
  /\ (forall a b, encodeURIComponent (a ++ " " ++ b)
                  = (encodeURIComponent a ++ "%20" ++ encodeURIComponent b)%string)
  /\ termOf input <> "" /\ limitOf input <> 0%Z
  /\ searchUrl None = "https://podcasts.apple.com/in/search?term=Giva"
  /\ limitOf None = 50%Z.
Proof.
  assert (Hsafe : forall s, forallb urlSafe (chars (encodeURIComponent s)) = true).
  { intros s. unfold encodeURIComponent. rewrite chars_str.
    induction (chars s) as [|c l IH]; [reflexivity|].
    cbn [flat_map]. now rewrite forallb_app, encodeChar_safe, IH. }
  split; [apply Hsafe|]. split; [|split; [|split; [|split; [|split]]]].
  - intros c Hin Hbad. specialize (Hsafe (termOf input)).
    rewrite forallb_forall in Hsafe. specialize (Hsafe c Hin).
    cbn in Hbad.
    repeat (destruct Hbad as [<-|Hbad]; [discriminate Hsafe|]).
    contradiction.
  - intros a b. unfold encodeURIComponent. apply chars_inj.
    repeat rewrite ?chars_app, ?chars_str, ?flat_map_app. reflexivity.
  - destruct input as [[[[|c t]|] n]|]; discriminate.
  - destruct input as [[t [n|]]|]; cbn; try discriminate.
    destruct (n =? 0)%Z eqn:E; [discriminate|]. now apply Z.eqb_neq in E.
  - reflexivity.
  - reflexivity.
Qed.

Lemma search_url_safe_witness :
  ~ In "%"%char (chars " &=#?/+").
Proof.
  apply (proj1 (proj2
           (search_url_safe
              (Some {| searchTerm := Some "a b&c"; totalEpisodes := None |})))).
  vm_compute. tauto.
Defined.

End UrlFacts.

(** ** Saving the records *)

Section PipelineFacts.

Import Text Collector Scans Normalizer Pipeline.

Variable zone : JSDate.Zone.
Variable dateParse : string -> option Z.

(** [normalizeDate] raises on the relative texts whose instant is out of the
    range of [Date], and on nothing else. *)
Lemma normalizeDate_throws (now : Z) (raw : Value) :
  normalizeDate zone now dateParse raw = ThrowsRangeError <->
  exists r n u, raw = VString r /\ relativeMatch (clean r) = Some (n, u)
                /\ subtract zone now u n = None.
Proof.
  split.
  - destruct raw as [| | | |r]; try discriminate.
    destruct r as [|c r]; [discriminate|].
    unfold normalizeDate. cbv zeta.
    destruct (relativeMatch (clean (String c r))) as [[n u]|] eqn:E.
    + unfold finishRelative.
      destruct (subtract zone now u n) eqn:Es; [discriminate|].
      intros _. exists (String c r), n, u. auto.
    + unfold finishAbsolute.
      destruct (resolve _ _ _ _ _) as [[t|]|]; discriminate.
  - intros (r & n & u & -> & Hm & Hs).
    destruct r as [|c r]; [discriminate Hm|].
    unfold normalizeDate. cbv zeta. rewrite Hm. unfold finishRelative.
    now rewrite Hs.
Qed.

Lemma normalizeEpisode_Some (now : Z) (ep : Episode) (item : Item) :
  normalizeEpisode zone dateParse now ep = Some item ->
  itemTitle item = title ep /\ itemDescription item = description ep
  /\ itemShareUrl item = shareUrl ep
  /\ normalizeDate zone now dateParse (rawDate (date ep))
     = Returns {| full := itemDate item; iso := itemDateISO item |}.
Proof.
  unfold normalizeEpisode.
  destruct (normalizeDate zone now dateParse (rawDate (date ep))) as [[f i]|];
    [|discriminate].
  intros [= <-]. repeat split.
Qed.

Lemma normalizeEpisode_None (now : Z) (ep : Episode) :
  normalizeEpisode zone dateParse now ep = None <->
  normalizeDate zone now dateParse (rawDate (date ep)) = ThrowsRangeError.
Proof.
  unfold normalizeEpisode.
  destruct (normalizeDate zone now dateParse (rawDate (date ep)));
    split; (discriminate || reflexivity).
Qed.

Lemma normalizeAll_Some (clock : nat -> Z) (eps : list Episode) :
  forall i items,
    normalizeAll zone dateParse clock i eps = Some items ->
    List.length items = List.length eps
    /\ forall k ep, nth_error eps k = Some ep ->
         exists item, nth_error items k = Some item
           /\ normalizeEpisode zone dateParse (clock (i + k)) ep = Some item.
Proof.
  induction eps as [|e eps IH]; intros i items; cbn [normalizeAll].
  - intros [= <-]. split; [reflexivity|]. intros [|k] ep; discriminate.
  - destruct (normalizeEpisode zone dateParse (clock i) e) as [item|] eqn:E;
      [|discriminate].
    destruct (normalizeAll zone dateParse clock (S i) eps) as [rest|] eqn:Er;
      [|discriminate].
    intros [= <-]. destruct (IH (S i) rest Er) as [Hlen Hnth].
    split; [simpl; now rewrite Hlen|].
    intros [|k] ep Hk.
    + injection Hk as <-. exists item. rewrite Nat.add_0_r. now split.
    + destruct (Hnth k ep Hk) as [it [H1 H2]]. exists it.
      rewrite Nat.add_succ_r. now split.
Qed.

Lemma normalizeAll_None (clock : nat -> Z) (eps : list Episode) :
  forall i,
    normalizeAll zone dateParse clock i eps = None <->
    exists k ep, nth_error eps k = Some ep
      /\ normalizeEpisode zone dateParse (clock (i + k)) ep = None.
Proof.
  induction eps as [|e eps IH]; intros i; cbn [normalizeAll].
  - split; [discriminate|]. intros ([|k] & ep & H & _); discriminate.
  - destruct (normalizeEpisode zone dateParse (clock i) e) as [item|] eqn:E.
    + destruct (normalizeAll zone dateParse clock (S i) eps) as [rest|] eqn:Er.
      * split; [discriminate|]. intros ([|k] & ep & Hk & Hn).
        -- injection Hk as <-. rewrite Nat.add_0_r in Hn. congruence.
        -- assert (Hex : exists k ep, nth_error eps k = Some ep
                     /\ normalizeEpisode zone dateParse (clock (S i + k)) ep = None).
           { exists k, ep. rewrite Nat.add_succ_r in Hn. now split. }
           apply (IH (S i)) in Hex. congruence.
      * split; [intros _|reflexivity].
        destruct (proj1 (IH (S i)) Er) as (k & ep & Hk & Hn).
        exists (S k), ep. rewrite Nat.add_succ_r. now split.
    + split; [intros _|reflexivity]. exists 0, e.
      rewrite Nat.add_0_r. now split.
Qed.

Lemma map_nth_eq {A B : Type} (f : A -> B) (g : Episode -> B) :
  forall (items : list A) (eps : list Episode),
    List.length items = List.length eps ->
    (forall k ep, nth_error eps k = Some ep ->
       exists item, nth_error items k = Some item /\ f item = g ep) ->
    map f items = map g eps.
Proof.
  induction items as [|it items IH]; intros [|e eps] Hlen Hnth;
    try discriminate Hlen; [reflexivity|].
  cbn [map]. f_equal.
  - destruct (Hnth 0 e eq_refl) as [x [[= <-] Hx]]. exact Hx.
  - apply IH; [now injection Hlen|].
    intros k ep Hk. exact (Hnth (S k) ep Hk).
Qed.

(** X13.  What is pushed is one item per collected record, in the same
    order, with the title, the summary and the link of the record unchanged;
    its two date fields are what [normalizeDate] returned for the date text
    of the record at the time the record was reached, and a record without a
    date element or with an empty one keeps its date and gets a null ISO
    date. *)
Theorem pushed_items (clock : nat -> Z) (eps : list Episode)
    (items : list Item) :
  saveEpisodes zone dateParse clock eps = Pushed items ->
  eps <> []
  /\ map itemTitle items = map title eps
  /\ map itemDescription items = map description eps
  /\ map itemShareUrl items = map shareUrl eps
  /\ forall k ep, nth_error eps k = Some ep ->
       exists item, nth_error items k = Some item
         /\ normalizeDate zone (clock k) dateParse (rawDate (date ep))
            = Returns {| full := itemDate item; iso := itemDateISO item |}
         /\ (date ep = None \/ date ep = Some "" ->
             itemDate item = rawDate (date ep) /\ itemDateISO item = None).
Proof.
  unfold saveEpisodes. destruct eps as [|e0 eps0]; [discriminate|].
  set (eps := e0 :: eps0).
  destruct (normalizeAll zone dateParse clock 0 eps) as [its|] eqn:E;
    [|discriminate].
  intros [= <-]. destruct (normalizeAll_Some clock eps 0 its E) as [Hlen Hnth].
  assert (Hfield : forall k ep, nth_error eps k = Some ep ->
            exists item, nth_error its k = Some item
              /\ itemTitle item = title ep
              /\ itemDescription item = description ep
              /\ itemShareUrl item = shareUrl ep
              /\ normalizeDate zone (clock k) dateParse (rawDate (date ep))
                 = Returns {| full := itemDate item; iso := itemDateISO item |}).
  { intros k ep Hk. destruct (Hnth k ep Hk) as [item [Hi Hn]].
    exists item. split; [exact Hi|]. now apply normalizeEpisode_Some. }
  split; [discriminate|].
  split; [|split; [|split]].
  - apply map_nth_eq; [exact Hlen|]. intros k ep Hk.
    destruct (Hfield k ep Hk) as (item & Hi & Ht & _). now exists item.
  - apply map_nth_eq; [exact Hlen|]. intros k ep Hk.
    destruct (Hfield k ep Hk) as (item & Hi & _ & Hd & _). now exists item.
  - apply map_nth_eq; [exact Hlen|]. intros k ep Hk.
    destruct (Hfield k ep Hk) as (item & Hi & _ & _ & Hs & _). now exists item.
  - intros k ep Hk.
    destruct (Hfield k ep Hk) as (item & Hi & _ & _ & _ & Hn).
    exists item. split; [exact Hi|]. split; [exact Hn|].
    intros [Hd|Hd]; rewrite Hd in Hn |- *; injection Hn as <- <-;
      split; reflexivity.
Qed.

(** X14.  Nothing is pushed, and the exception of [normalizeDate] leaves the
    handler, exactly when one collected record has a relative date text whose
    instant, counted back from the time the record is reached, is out of the
    range of [Date]; the records before it are lost with it. *)
Theorem save_raises (clock : nat -> Z) (eps : list Episode) :
  saveEpisodes zone dateParse clock eps = Raised <->
  exists k ep s n u,
    nth_error eps k = Some ep /\ date ep = Some s
    /\ relativeMatch (clean s) = Some (n, u)
    /\ subtract zone (clock k) u n = None.
Proof.
  unfold saveEpisodes. split.
  - destruct eps as [|e0 eps0]; [discriminate|]. set (eps := e0 :: eps0).
    destruct (normalizeAll zone dateParse clock 0 eps) as [its|] eqn:E;
      [discriminate|].
    intros _. apply normalizeAll_None in E as (k & ep & Hk & Hn).
    apply normalizeEpisode_None, normalizeDate_throws in Hn
      as (r & n & u & Hr & Hm & Hs).
    destruct (date ep) as [s|] eqn:Ed; [|discriminate Hr].
    injection Hr as ->. now exists k, ep, r, n, u.
  - intros (k & ep & s & n & u & Hk & Hd & Hm & Hs).
    assert (E : normalizeAll zone dateParse clock 0 eps = None).
    { apply normalizeAll_None. exists k, ep. split; [exact Hk|].
      apply normalizeEpisode_None, normalizeDate_throws.
      exists s, n, u. rewrite Hd. now split. }
    destruct eps as [|e0 eps0]; [now destruct k|]. now rewrite E.
Qed.

Lemma titles_scanRows (limit : nat) (rows : list Row) :
  forall rs, Forall (fun e => title e <> "") rs ->
    Forall (fun e => title e <> "") (scanRows limit rows rs).
Proof.
  induction rows as [|row rows IH]; intros rs H; cbn [scanRows]; [exact H|].
  destruct (limit <=? List.length rs); [exact H|]. apply IH.
  rewrite visit_rowRecord. destruct (rowRecord row) as [e|] eqn:E; [|exact H].
  destruct (sameTitle (title e) (lastTitle rs)); [exact H|].
  apply Forall_app. split; [exact H|]. constructor; [|constructor].
  now destruct (rowRecord_title row e E).
Qed.

(** X15.  From the input to the dataset: what is pushed has at least one
    item and at most [totalEpisodes] (50 by default), so the count is
    positive; no item has the title of the item before it, and every item
    has a title that is not empty. *)
Theorem scrape_pushed (clock : nat -> Z) (fuel : nat) (input : Url.Input)
    (src : RowSource) (items : list Item) :
  scrape zone dateParse clock fuel input src = Some (Pushed items) ->
  (0 < Url.limitOf input)%Z
  /\ 1 <= List.length items <= Z.to_nat (Url.limitOf input)
  /\ noAdjacentRepeat (map itemTitle items)
  /\ Forall (fun item => itemTitle item <> "") items.
Proof.
  unfold scrape. set (limit := Z.to_nat (Url.limitOf input)).
  destruct (collect fuel limit src) as [eps|] eqn:Ec; [|discriminate].
  intros [= Hsave]. pose proof (collect_length_le _ _ _ _ Ec) as Hle.
  unfold collect in Ec.
  destruct (loop fuel limit src init) as [st|] eqn:Hrun; [|discriminate].
  injection Ec as <-.
  assert (Hadj : noAdjacentRepeat (map title (results st))).
  { apply (loop_results_invariant
             (fun rs => noAdjacentRepeat (map title rs)) limit src)
      with (fuel := fuel) (st := init); [|exact I|exact Hrun].
    intros rows rs. apply scanRows_noAdjacentRepeat. }
  assert (Htitle : Forall (fun e => title e <> "") (results st)).
  { apply (loop_results_invariant
             (fun rs => Forall (fun e => title e <> "") rs) limit src)
      with (fuel := fuel) (st := init); [|constructor|exact Hrun].
    intros rows rs. apply titles_scanRows. }
  set (eps := firstn limit (results st)) in *.
  assert (Hlen : List.length items = List.length eps
                 /\ map itemTitle items = map title eps /\ eps <> []).
  { unfold saveEpisodes in Hsave. destruct eps as [|e0 eps0]; [discriminate|].
    destruct (normalizeAll zone dateParse clock 0 (e0 :: eps0)) as [its|] eqn:E;
      [|discriminate].
    injection Hsave as ->.
    destruct (normalizeAll_Some clock _ 0 items E) as [Hl Hnth].
    split; [exact Hl|]. split; [|discriminate].
    apply map_nth_eq; [exact Hl|]. intros k ep Hk.
    destruct (Hnth k ep Hk) as [item [Hi Hn]]. exists item.
    split; [exact Hi|]. now destruct (normalizeEpisode_Some _ _ _ Hn). }
  destruct Hlen as (Hlen & Hmap & Hne).
  assert (Hpos : 1 <= List.length eps)
    by (destruct eps; [contradiction|simpl; lia]).
  split; [unfold limit in Hle; lia|]. split; [lia|]. split.
  - rewrite Hmap. unfold eps. rewrite <- firstn_map.
    now apply noAdjacentRepeat_firstn.
  - apply (proj1 (Forall_map itemTitle (fun t => t <> "") items)).
    rewrite Hmap.
    apply (proj2 (Forall_map title (fun t => t <> "") eps)). unfold eps.
    rewrite <- (firstn_skipn limit (results st)) in Htitle.
    now apply Forall_app in Htitle.
Qed.

(** X16.  The debug capture of an empty result is taken when the count is
    not positive, in which case no row is read, and otherwise only after at
    least twelve scans in which no row had a title; it is what a list
    without a titled row gives once its row count stops growing. *)
Theorem debug_capture (clock : nat -> Z) (fuel : nat) (input : Url.Input)
    (src : RowSource) :
  (scrape zone dateParse clock fuel input src = Some DebugCaptured ->
   (Url.limitOf input <= 0)%Z
   \/ exists n, maxStableAttempts <= n
        /\ forall i, i < n -> records (src i) = [])
  /\ ((Url.limitOf input <= 0)%Z ->
      scrape zone dateParse clock fuel input src = Some DebugCaptured)
  /\ (forall n, stableFrom n src -> (forall i, records (src i) = []) ->
      S n + maxStableAttempts <= fuel ->
      scrape zone dateParse clock fuel input src = Some DebugCaptured).
Proof.
  unfold scrape. set (limit := Z.to_nat (Url.limitOf input)).
  split; [|split].
  - unfold collect.
    destruct (loop fuel limit src init) as [st|] eqn:Hrun; [|discriminate].
    cbn [option_map]. intros [= Hsave].
    assert (Hnil : firstn limit (results st) = []).
    { destruct (firstn limit (results st)); [reflexivity|].
      unfold saveEpisodes in Hsave.
      destruct (normalizeAll _ _ _ _ _); discriminate. }
    destruct (Nat.eq_dec limit 0) as [H0|Hpos]; [left; unfold limit in H0; lia|].
    right. exists (iterations st).
    pose proof (results_scanned fuel limit src st Hrun) as Hres.
    assert (Hempty : results st = []).
    { destruct (results st); [reflexivity|]. destruct limit; [lia|discriminate]. }
    split.
    + destruct (loop_exit_attempts fuel limit src st Hrun) as [H|H];
        [rewrite Hempty in H; simpl in H; lia|exact H].
    + apply scanned_nil. apply dropRepeats_nil.
      rewrite Hempty in Hres. symmetry in Hres.
      destruct (dropRepeats None (scanned src (iterations st)));
        [reflexivity|]. destruct limit; [lia|discriminate].
  - intros Hle. assert (H0 : limit = 0) by (unfold limit; lia). rewrite H0.
    destruct fuel; reflexivity.
  - intros n Hstable Hrec Hfuel.
    destruct (collect_returns limit n src Hstable fuel Hfuel) as [out Hout].
    rewrite Hout. unfold collect in Hout.
    destruct (loop fuel limit src init) as [st|] eqn:Hrun; [|discriminate].
    injection Hout as <-.
    rewrite (results_scanned fuel limit src st Hrun).
    rewrite (proj2 (scanned_nil src (iterations st)))
      by (intros i _; apply Hrec).
    cbn [dropRepeats]. rewrite !firstn_nil. reflexivity.
Qed.

End PipelineFacts.

Section PipelineExamples.

Import JSDate Collector Pipeline.

Lemma pushed_items_witness :
  exists items,
    saveEpisodes 0 (fun _ => None) (fun _ => 1704844800000%Z)
      [ {| title := "a"; description := None; date := Some "14 NOV 2024";
           shareUrl := None |};
        {| title := "b"; description := None; date := None;
           shareUrl := None |} ] = Pushed items
    /\ map itemTitle items = ["a"; "b"].
Proof.
  assert (H : exists items,
    saveEpisodes 0 (fun _ => None) (fun _ => 1704844800000%Z)
      [ {| title := "a"; description := None; date := Some "14 NOV 2024";
           shareUrl := None |};
        {| title := "b"; description := None; date := None;
           shareUrl := None |} ] = Pushed items).
  { eexists. vm_compute. reflexivity. }
  destruct H as [items H]. exists items. split; [exact H|].
  exact (proj1 (proj2 (pushed_items _ _ _ _ items H))).
Defined.

Lemma save_raises_witness :
  saveEpisodes 0 (fun _ => None) (fun _ => 1704844800000%Z)
    [ {| title := "a"; description := None; date := Some "2 days ago";
         shareUrl := None |};
      {| title := "b"; description := None; date := Some "300000 years ago";
         shareUrl := None |} ] = Raised.
Proof.
  apply (proj2 (save_raises 0 (fun _ => None) (fun _ => 1704844800000%Z) _)).
  exists 1,
    {| title := "b"; description := None; date := Some "300000 years ago";
       shareUrl := None |},
    "300000 years ago", 300000%Z, Normalizer.YEAR.
  repeat split; vm_compute; reflexivity.
Defined.

Lemma scrape_pushed_witness :
  exists items,
    scrape 0 (fun _ => None) (fun _ => 1704844800000%Z) 13
      (Some {| Url.searchTerm := None; Url.totalEpisodes := Some 2%Z |})
      (fun _ => [titled "a"; titled "a"; titled "b"; titled "c"])
    = Some (Pushed items)
    /\ 1 <= List.length items <= 2.
Proof.
  assert (H : exists items,
    scrape 0 (fun _ => None) (fun _ => 1704844800000%Z) 13
      (Some {| Url.searchTerm := None; Url.totalEpisodes := Some 2%Z |})
      (fun _ => [titled "a"; titled "a"; titled "b"; titled "c"])
    = Some (Pushed items)).
  { eexists. vm_compute. reflexivity. }
  destruct H as [items H]. exists items. split; [exact H|].
  exact (proj1 (proj2 (scrape_pushed _ _ _ _ _ _ items H))).
Defined.

Lemma debug_capture_witness :
  scrape 0 (fun _ => None) (fun _ => 0%Z) 0
    (Some {| Url.searchTerm := None; Url.totalEpisodes := Some (-3)%Z |})
    (fun _ => [titled "a"])
  = Some DebugCaptured.
Proof.
  apply (proj1 (proj2 (debug_capture 0 (fun _ => None) (fun _ => 0%Z) 0
           (Some {| Url.searchTerm := None; Url.totalEpisodes := Some (-3)%Z |})
           (fun _ => [titled "a"]))));
    vm_compute; discriminate.
Defined.

End PipelineExamples.
